(** * Zoltaran Speaks: the [zoltaranwish] contract

    A shallow embedding of [contracts/zoltaranwish.cpp] and the properties
    of its commit/reveal protocol, outcome resolver, treasury accounting,
    purchase notification handler and expiry sweeper.

    Conventions.
    - Fixed-width unsigned integers are values of [Z]; every arithmetic
      operation of the contract is followed by the wrap-around of its C++
      type ([wrap32], [wrap64]).
    - [name], [symbol] and [symbol_code] are their raw 64-bit values.
    - Tables with a single lookup key ([users], [tokenprices],
      [leaderboard]) are finite maps; tables whose iteration order or
      secondary indices matter ([commits], [gamehistory]) are lists of rows.
    - An action is a function into the error monad [result]: [check]
      failures abort the action, and the chain discards every write of an
      aborted action. *)

From Stdlib Require Import ZArith List Ascii String Bool Lia.
From stdpp Require Import base option list gmap strings.
Import ListNotations.

Local Open Scope Z_scope.

(** ** Machine integers *)

Definition wrap32 (x : Z) : Z := x mod 2 ^ 32.
Definition wrap64 (x : Z) : Z := x mod 2 ^ 64.

Definition is_u32 (x : Z) : Prop := 0 <= x < 2 ^ 32.
Definition is_u64 (x : Z) : Prop := 0 <= x < 2 ^ 64.

Definition UINT32_MAX : Z := 4294967295.

(** ** Strings and bytes *)

Definition byte_of_ascii (c : ascii) : Z := Z.of_N (N_of_ascii c).
Definition ascii_of_byte (b : Z) : ascii := ascii_of_N (Z.to_N b).

Fixpoint bytes_of_string (s : string) : list Z :=
  match s with
  | EmptyString => []
  | String c r => byte_of_ascii c :: bytes_of_string r
  end.

(** [std::string::substr(pos)] for [pos <= size()]. *)
Fixpoint string_drop (n : nat) (s : string) : string :=
  match n, s with
  | O, _ => s
  | S k, String _ r => string_drop k r
  | S _, EmptyString => EmptyString
  end.

(** [std::string::substr(0, n)]: at most [n] leading characters. *)
Fixpoint string_take (n : nat) (s : string) : string :=
  match n, s with
  | S k, String c r => String c (string_take k r)
  | _, _ => EmptyString
  end.

(** [std::to_string] on an unsigned value: its decimal digits. *)
Fixpoint dec_digits (fuel : nat) (n : Z) (acc : string) : string :=
  match fuel with
  | O => acc
  | S f =>
      let acc' := String (ascii_of_byte (48 + n mod 10)) acc in
      if n / 10 =? 0 then acc' else dec_digits f (n / 10) acc'
  end.

Definition to_string (n : Z) : string := dec_digits 20 n EmptyString.

(** ** SHA-256 (FIPS 180-4), the digest behind [eosio::sha256] *)

Module SHA256.

Definition rotr (n x : Z) : Z :=
    Z.lor (Z.shiftr x n) (wrap32 (Z.shiftl x (32 - n))).

Definition Ch (x y z : Z) : Z :=
    Z.lxor (Z.land x y) (Z.land (Z.lnot x) z).
Definition Maj (x y z : Z) : Z :=
    Z.lxor (Z.lxor (Z.land x y) (Z.land x z)) (Z.land y z).
Definition Sigma0 (x : Z) : Z :=
    Z.lxor (Z.lxor (rotr 2 x) (rotr 13 x)) (rotr 22 x).
Definition Sigma1 (x : Z) : Z :=
    Z.lxor (Z.lxor (rotr 6 x) (rotr 11 x)) (rotr 25 x).
Definition sigma0 (x : Z) : Z :=
    Z.lxor (Z.lxor (rotr 7 x) (rotr 18 x)) (Z.shiftr x 3).
Definition sigma1 (x : Z) : Z :=
    Z.lxor (Z.lxor (rotr 17 x) (rotr 19 x)) (Z.shiftr x 10).

Definition K : list Z :=
    [ 1116352408; 1899447441; 3049323471; 3921009573; 961987163; 1508970993;
      2453635748; 2870763221; 3624381080; 310598401; 607225278; 1426881987;
      1925078388; 2162078206; 2614888103; 3248222580; 3835390401; 4022224774;
      264347078; 604807628; 770255983; 1249150122; 1555081692; 1996064986;
      2554220882; 2821834349; 2952996808; 3210313671; 3336571891; 3584528711;
      113926993; 338241895; 666307205; 773529912; 1294757372; 1396182291;
      1695183700; 1986661051; 2177026350; 2456956037; 2730485921; 2820302411;
      3259730800; 3345764771; 3516065817; 3600352804; 4094571909; 275423344;
      430227734; 506948616; 659060556; 883997877; 958139571; 1322822218;
      1537002063; 1747873779; 1955562222; 2024104815; 2227730452; 2361852424;
      2428436474; 2756734187; 3204031479; 3329325298 ].

Definition H0 : list Z :=
    [ 1779033703; 3144134277; 1013904242; 2773480762;
      1359893119; 2600822924; 528734635; 1541459225 ].

  (** Big-endian encodings. *)
Fixpoint be_bytes (n : nat) (x : Z) : list Z :=
    match n with
    | O => []
    | S k => (Z.shiftr x (8 * Z.of_nat k)) mod 256 :: be_bytes k x
    end.

Fixpoint be_words (bs : list Z) : list Z :=
    match bs with
    | a :: b :: c :: d :: r =>
        Z.lor (Z.lor (Z.lor (Z.shiftl a 24) (Z.shiftl b 16)) (Z.shiftl c 8)) d
        :: be_words r
    | _ => []
    end.

  (** Message padding: a one bit, zeros up to 56 mod 64, the bit length. *)
Definition pad (msg : list Z) : list Z :=
    let len := Z.of_nat (length msg) in
    msg ++ [128] ++ repeat 0 (Z.to_nat ((55 - len) mod 64)) ++ be_bytes 8 (8 * len).

  (** The message schedule, most recent word first. *)
Fixpoint schedule (n : nat) (rev_w : list Z) : list Z :=
    match n with
    | O => rev_w
    | S k =>
        let w := wrap32 (sigma1 (nth 1 rev_w 0) + nth 6 rev_w 0
                         + sigma0 (nth 14 rev_w 0) + nth 15 rev_w 0) in
        schedule k (w :: rev_w)
    end.

Definition round (h : list Z) (kw : Z * Z) : list Z :=
    match h with
    | [a; b; c; d; e; f; g; hh] =>
        let t1 := wrap32 (hh + Sigma1 e + Ch e f g + fst kw + snd kw) in
        let t2 := wrap32 (Sigma0 a + Maj a b c) in
        [wrap32 (t1 + t2); a; b; c; wrap32 (d + t1); e; f; g]
    | _ => h
    end.

Definition compress (h : list Z) (block : list Z) : list Z :=
    let w := rev (schedule 48 (rev block)) in
    let h' := fold_left round (combine K w) h in
    map (fun p => wrap32 (fst p + snd p)) (combine h h').

Fixpoint blocks (fuel : nat) (ws : list Z) (h : list Z) : list Z :=
    match fuel with
    | O => h
    | S k =>
        match ws with
        | [] => h
        | _ => blocks k (skipn 16 ws) (compress h (firstn 16 ws))
        end
    end.

  (** The 32 digest bytes, in the order of [extract_as_byte_array]. *)
Definition digest (msg : list Z) : list Z :=
    let ws := be_words (pad msg) in
    concat (map (be_bytes 4) (blocks (length ws) ws H0)).

End SHA256.

Definition checksum256 : Type := list Z.

Definition sha256 (s : string) : checksum256 := SHA256.digest (bytes_of_string s).

Fixpoint hex_of_bytes (bs : list Z) : string :=
  match bs with
  | [] => EmptyString
  | b :: r =>
      let hx (d : Z) := ascii_of_byte (if d <? 10 then 48 + d else 87 + d) in
      String (hx (b / 16)) (String (hx (b mod 16)) (hex_of_bytes r))
  end.

(** ** The error monad of an action

    [eosio::check] aborts the running action with a message; so does a
    failed [require_auth] and a failed table operation. *)

Inductive result (A : Type) : Type :=
| Ok (a : A)
| Abort (msg : string).
Arguments Ok {A} a.
Arguments Abort {A} msg.

#[global] Instance result_ret : MRet result := fun _ a => Ok a.
#[global] Instance result_bind : MBind result := fun _ _ f m =>
  match m with
  | Ok a => f a
  | Abort msg => Abort msg
  end.

Definition check (b : bool) (msg : string) : result unit :=
  if b then Ok tt else Abort msg.

Definition is_ok {A : Type} (r : result A) : bool :=
  match r with Ok _ => true | Abort _ => false end.

(** ** Names, symbols and assets of the chain library *)

Definition name : Type := Z.

(** [name::to_string]: twelve base-32 characters and a thirteenth base-16
    one, most significant first, trailing dots removed. *)
Definition name_charmap : string := ".12345abcdefghijklmnopqrstuvwxyz".

Definition name_char (i : Z) : ascii :=
  match String.get (Z.to_nat i) name_charmap with
  | Some c => c
  | None => "."%char
  end.

Fixpoint name_chars (n : nat) (v : Z) : list ascii :=
  match n with
  | O => [name_char (Z.land v 15)]
  | S k => name_char (Z.land (Z.shiftr v (4 + 5 * Z.of_nat k)) 31) :: name_chars k v
  end.

Fixpoint trim_dots (rev_cs : list ascii) : list ascii :=
  match rev_cs with
  | c :: r => if Ascii.eqb c "."%char then trim_dots r else rev_cs
  | [] => []
  end.

Definition name_to_string (v : name) : string :=
  string_of_list_ascii (rev (trim_dots (rev (name_chars 12 v)))).

(** A [symbol] is [code << 8 | precision]. *)
Definition symbol_code_raw (sym : Z) : Z := Z.shiftr sym 8.

(** [symbol_code::is_valid]: one or more letters [A-Z], least significant
    byte first, then only zero bytes, within seven bytes. *)
Fixpoint all_zero_bytes (n : nat) (v : Z) : bool :=
  match n with
  | O => true
  | S k => (Z.land v 255 =? 0) && all_zero_bytes k (Z.shiftr v 8)
  end.

Fixpoint letters_then_zeros (n : nat) (v : Z) : bool :=
  match n with
  | O => true
  | S k =>
      let c := Z.land v 255 in
      if c =? 0 then all_zero_bytes k (Z.shiftr v 8)
      else (65 <=? c) && (c <=? 90) && letters_then_zeros k (Z.shiftr v 8)
  end.

Definition symbol_is_valid (sym : Z) : bool :=
  let code := symbol_code_raw sym in
  negb (Z.land code 255 =? 0) && letters_then_zeros 7 code.

Record asset : Type := mk_asset { amount : Z; symbol : Z }.

Definition max_amount : Z := 2 ^ 62 - 1.

(** Conversion of a [uint64_t] to the [int64_t] amount of an asset. *)
Definition to_i64 (x : Z) : Z := if x <? 2 ^ 63 then x else x - 2 ^ 64.

(** The checking constructor [asset(amount, symbol)]. *)
Definition asset_new (a : Z) (sym : Z) : result asset :=
  check ((- max_amount <=? a) && (a <=? max_amount))
        "magnitude of asset amount must be less than 2^62";;
  check (symbol_is_valid sym) "invalid symbol name";;
  Ok (mk_asset a sym).

(** An inline [transfer] action sent to a token contract. *)
Record inline_transfer : Type := mk_transfer {
  tr_contract : name;
  tr_from : name;
  tr_to : name;
  tr_quantity : asset;
  tr_memo : string
}.

(** ** Constants of the contract *)

Definition OUTCOME_WISH_GRANTED : Z := 0.
Definition OUTCOME_TOKENS_250 : Z := 1.
Definition OUTCOME_TOKENS_500 : Z := 2.
Definition OUTCOME_TOKENS_1000 : Z := 3.
Definition OUTCOME_FREE_SPIN : Z := 4.
Definition OUTCOME_TRY_AGAIN : Z := 5.

Definition TOKENS_250 : Z := 25000000000.
Definition TOKENS_500 : Z := 50000000000.
Definition TOKENS_1000 : Z := 100000000000.

Definition WISH_TYPE_FREE : Z := 0.
Definition WISH_TYPE_PURCHASED : Z := 1.

Definition COMMIT_EXPIRY_SECONDS : Z := 3600.
Definition MIN_REVEAL_DELAY_BLOCKS : Z := 1.

(** ** Tables *)

Module config.
Record t : Type := mk {
    admin : name;
    arcade_contract : name;
    arcade_symbol : Z;
    treasury_balance : Z;
    paused : bool;
    prob_win : Z;
    prob_tokens_250 : Z;
    prob_tokens_500 : Z;
    prob_tokens_1000 : Z;
    prob_free_spin : Z
  }.
  (** [config{}] *)
Definition empty : t := mk 0 0 0 0 false 0 0 0 0 0.
Definition set_treasury_balance (c : t) (b : Z) : t :=
    mk (admin c) (arcade_contract c) (arcade_symbol c) b (paused c)
       (prob_win c) (prob_tokens_250 c) (prob_tokens_500 c)
       (prob_tokens_1000 c) (prob_free_spin c).
Definition set_paused (c : t) (p : bool) : t :=
    mk (admin c) (arcade_contract c) (arcade_symbol c) (treasury_balance c) p
       (prob_win c) (prob_tokens_250 c) (prob_tokens_500 c)
       (prob_tokens_1000 c) (prob_free_spin c).
End config.

Module tokenconfig.
Record t : Type := mk {
    sym : Z;
    contract : name;
    price_per_wish : Z;
    bonus_bps : Z;
    enabled : bool
  }.
Definition primary_key (r : t) : Z := symbol_code_raw (sym r).
End tokenconfig.

Module user.
Record t : Type := mk {
    account : name;
    purchased_wishes : Z;
    last_free_day : Z;
    total_wishes : Z;
    total_wins : Z;
    tokens_won : Z
  }.
Definition primary_key (r : t) : Z := account r.
Definition set_purchased_wishes (u : t) (n : Z) : t :=
    mk (account u) n (last_free_day u) (total_wishes u) (total_wins u) (tokens_won u).
Definition set_last_free_day (u : t) (d : Z) : t :=
    mk (account u) (purchased_wishes u) d (total_wishes u) (total_wins u) (tokens_won u).
End user.

Module commit.
Record t : Type := mk {
    id : Z;
    player : name;
    commit_hash : checksum256;
    block_num : Z;
    wish_type : Z;
    timestamp : Z
  }.
Definition primary_key (r : t) : Z := id r.
Definition by_player (r : t) : Z := player r.
Definition by_time (r : t) : Z := timestamp r.
End commit.

Module gameresult.
Record t : Type := mk {
    id : Z;
    player : name;
    result_code : Z;
    tokens_won : Z;
    wish_ipfs_cid : string;
    timestamp : Z
  }.
Definition primary_key (r : t) : Z := id r.
End gameresult.

Module leader.
Record t : Type := mk {
    player : name;
    wins : Z;
    tokens_won : Z
  }.
Definition primary_key (r : t) : Z := player r.
Definition by_wins (r : t) : Z := UINT32_MAX - wins r.
End leader.

Module globals.
Record t : Type := mk {
    next_commit_id : Z;
    next_result_id : Z
  }.
End globals.

(** The contract's storage. *)
Record State : Type := mk_state {
  conf_table : option config.t;
  tokens : gmap Z tokenconfig.t;
  users : gmap Z user.t;
  commits : list commit.t;
  history : list gameresult.t;
  leaderboard : gmap Z leader.t;
  glob_table : option globals.t
}.

Definition empty_state : State := mk_state None ∅ ∅ [] [] ∅ None.

(** What the chain tells a running action. *)
Record Env : Type := mk_env {
  self : name;                (* get_self() *)
  has_auth : name -> bool;    (* the authorizations of the action *)
  sec_since_epoch : Z;        (* current_time_point().sec_since_epoch() *)
  tapos_block_prefix : Z;     (* tapos_block_prefix(), as uint32_t *)
  first_receiver : name       (* get_first_receiver() *)
}.

Definition require_auth (e : Env) (n : name) : result unit :=
  check (has_auth e n) "missing required authority".

(** *** The [commits] multi-index table *)

Module commits_table.

Definition find (k : Z) (rows : list commit.t) : option commit.t :=
    List.find (fun r => commit.id r =? k) rows.

  (** A row whose primary key is already present is refused by the chain. *)
Definition emplace (r : commit.t) (rows : list commit.t) : result (list commit.t) :=
    match find (commit.id r) rows with
    | Some _ => Abort "duplicate primary key"
    | None => Ok (rows ++ [r])
    end.

Definition erase (k : Z) (rows : list commit.t) : list commit.t :=
    List.filter (fun r => negb (commit.id r =? k)) rows.

  (** Order of a secondary index: by secondary key, then by primary key. *)
Definition index_lt (sec : commit.t -> Z) (a b : commit.t) : bool :=
    (sec a <? sec b) || ((sec a =? sec b) && (commit.id a <? commit.id b)).

  (** [begin()] of a secondary index: its least row. *)
Fixpoint index_begin (sec : commit.t -> Z) (rows : list commit.t) : option commit.t :=
    match rows with
    | [] => None
    | r :: rest =>
        match index_begin sec rest with
        | Some m => if index_lt sec m r then Some m else Some r
        | None => Some r
        end
    end.

  (** [find(k)] of a secondary index: the least row with that key. *)
Definition index_find (sec : commit.t -> Z) (k : Z) (rows : list commit.t)
    : option commit.t :=
    index_begin sec (List.filter (fun r => sec r =? k) rows).

End commits_table.

(** *** The [gamehistory] multi-index table *)

Module gamehistory_table.

Definition find (k : Z) (rows : list gameresult.t) : option gameresult.t :=
    List.find (fun r => gameresult.id r =? k) rows.

Definition emplace (r : gameresult.t) (rows : list gameresult.t)
    : result (list gameresult.t) :=
    match find (gameresult.id r) rows with
    | Some _ => Abort "duplicate primary key"
    | None => Ok (rows ++ [r])
    end.

End gamehistory_table.

(** ** [std::stoul] as the contract's tool chain provides it

    Leading white space is skipped, one sign is accepted, then decimal
    digits are read up to the first other character.  No digit at all, or a
    value above [ULONG_MAX], throws; a minus sign negates the value in
    [unsigned long].  The contract is compiled to 32-bit WebAssembly, where
    [unsigned long] has 32 bits. *)

Definition ULONG_MAX : Z := 2 ^ 32 - 1.

Definition isspace (c : ascii) : bool :=
  let b := byte_of_ascii c in (b =? 32) || ((9 <=? b) && (b <=? 13)).

Definition isdigit (c : ascii) : bool :=
  let b := byte_of_ascii c in (48 <=? b) && (b <=? 57).

Fixpoint skip_space (s : string) : string :=
  match s with
  | String c r => if isspace c then skip_space r else s
  | EmptyString => s
  end.

Fixpoint scan_digits (s : string) (acc : option Z) : option Z :=
  match s with
  | String c r =>
      if isdigit c
      then scan_digits r (Some (10 * default 0 acc + (byte_of_ascii c - 48)))
      else acc
  | EmptyString => acc
  end.

Definition stoul (s : string) : result Z :=
  let s1 := skip_space s in
  let '(neg, s2) :=
    match s1 with
    | String c r =>
        if Ascii.eqb c "-"%char then (true, r)
        else if Ascii.eqb c "+"%char then (false, r)
        else (false, s1)
    | EmptyString => (false, s1)
    end in
  match scan_digits s2 None with
  | None => Abort "stoul: no conversion"
  | Some y =>
      if ULONG_MAX <? y then Abort "stoul: out of range"
      else Ok (if neg then (- y) mod (ULONG_MAX + 1) else y)
  end.

(** ** Private helpers of the contract *)

Definition current_block (e : Env) : Z := sec_since_epoch e / 2.

Definition current_day_number (e : Env) : Z := sec_since_epoch e / 86400.

Definition update_leaderboard (player : name) (wins_delta tokens_delta : Z)
    (lb : gmap Z leader.t) : gmap Z leader.t :=
  match lb !! player with
  | None => <[player := leader.mk player wins_delta tokens_delta]> lb
  | Some l =>
      <[player := leader.mk (leader.player l)
                            (wrap32 (leader.wins l + wins_delta))
                            (wrap64 (leader.tokens_won l + tokens_delta))]> lb
  end.

Definition get_config (s : State) : result config.t :=
  match conf_table s with
  | Some c => Ok c
  | None => Abort "Contract not configured"
  end.

Definition get_globals (s : State) : globals.t :=
  match glob_table s with
  | Some g => g
  | None => globals.mk 1 1
  end.

(** ** Outcome resolution (the middle of [reveal]) *)

(** The draw: the first four digest bytes, big-endian, modulo 10000. *)
Definition random_value (client_secret : string) (tapos : Z) (player : name) : Z :=
  let rng_input := (client_secret ++ to_string tapos ++ name_to_string player)%string in
  let hash_data := sha256 rng_input in
  (Z.lor (Z.lor (Z.lor (Z.shiftl (nth 0 hash_data 0) 24)
                       (Z.shiftl (nth 1 hash_data 0) 16))
                (Z.shiftl (nth 2 hash_data 0) 8))
         (nth 3 hash_data 0)) mod 10000.

(** The nested bucket walk; returns [(result_code, tokens_won)]. *)
Definition determine_outcome (conf : config.t) (random_value : Z) : Z * Z :=
  let cumulative := 0 in
  let cumulative := wrap32 (cumulative + config.prob_win conf) in
  if random_value <? cumulative then (OUTCOME_WISH_GRANTED, 0)
  else
    let cumulative := wrap32 (cumulative + config.prob_tokens_250 conf) in
    if random_value <? cumulative then (OUTCOME_TOKENS_250, TOKENS_250)
    else
      let cumulative := wrap32 (cumulative + config.prob_tokens_500 conf) in
      if random_value <? cumulative then (OUTCOME_TOKENS_500, TOKENS_500)
      else
        let cumulative := wrap32 (cumulative + config.prob_tokens_1000 conf) in
        if random_value <? cumulative then (OUTCOME_TOKENS_1000, TOKENS_1000)
        else
          let cumulative := wrap32 (cumulative + config.prob_free_spin conf) in
          if random_value <? cumulative then (OUTCOME_FREE_SPIN, 0)
          else (OUTCOME_TRY_AGAIN, 0).

(** The resolver: draw, then bucket walk. *)
Definition resolve_outcome (client_secret : string) (tapos : Z) (player : name)
    (conf : config.t) : Z * Z :=
  determine_outcome conf (random_value client_secret tapos player).

(** ** Actions *)

Definition setconfig (e : Env) (s : State)
    (admin arcade_contract : name) (arcade_symbol : Z)
    (prob_win prob_tokens_250 prob_tokens_500 prob_tokens_1000 prob_free_spin : Z)
    : result (State * list inline_transfer) :=
  require_auth e (self e);;
  let total :=
    wrap32 (wrap32 (wrap32 (wrap32 (prob_win + prob_tokens_250) + prob_tokens_500)
                    + prob_tokens_1000) + prob_free_spin) in
  check (total <=? 10000) "Probabilities exceed 100%";;
  let conf := match conf_table s with Some c => c | None => config.empty end in
  let conf :=
    config.mk admin arcade_contract arcade_symbol (config.treasury_balance conf)
              false prob_win prob_tokens_250 prob_tokens_500 prob_tokens_1000
              prob_free_spin in
  Ok (mk_state (Some conf) (tokens s) (users s) (commits s) (history s)
               (leaderboard s) (glob_table s), []).

Definition settoken (e : Env) (s : State)
    (sym : Z) (token_contract : name) (price_per_wish bonus_bps : Z) (enabled : bool)
    : result (State * list inline_transfer) :=
  conf ← get_config s;
  require_auth e (config.admin conf);;
  let key := symbol_code_raw sym in
  let row :=
    match tokens s !! key with
    | None => tokenconfig.mk sym token_contract price_per_wish bonus_bps enabled
    | Some t =>
        tokenconfig.mk (tokenconfig.sym t) token_contract price_per_wish bonus_bps enabled
    end in
  Ok (mk_state (conf_table s) (<[key := row]> (tokens s)) (users s) (commits s)
               (history s) (leaderboard s) (glob_table s), []).

Definition setpause (e : Env) (s : State) (paused : bool)
    : result (State * list inline_transfer) :=
  conf ← get_config s;
  require_auth e (config.admin conf);;
  Ok (mk_state (Some (config.set_paused conf paused)) (tokens s) (users s)
               (commits s) (history s) (leaderboard s) (glob_table s), []).

(** The account bookkeeping at the start of [commit]. *)
Definition commit_take_wish (e : Env) (player : name) (wish_type : Z)
    (us : gmap Z user.t) : result (gmap Z user.t) :=
  if wish_type =? WISH_TYPE_FREE then
    let today := current_day_number e in
    match us !! player with
    | None => Ok (<[player := user.mk player 0 today 0 0 0]> us)
    | Some u =>
        check (user.last_free_day u <? today) "Free wish already used today";;
        Ok (<[player := user.set_last_free_day u today]> us)
    end
  else
    match us !! player with
    | None => Abort "User not found"
    | Some u =>
        check (0 <? user.purchased_wishes u) "No purchased wishes available";;
        Ok (<[player := user.set_purchased_wishes u
                          (wrap32 (user.purchased_wishes u - 1))]> us)
    end.

Definition commit (e : Env) (s : State)
    (player : name) (commit_hash : checksum256) (wish_type : Z)
    : result (State * list inline_transfer) :=
  require_auth e player;;
  conf ← get_config s;
  check (negb (config.paused conf)) "Game is paused";;
  users' ← commit_take_wish e player wish_type (users s);
  let existing := commits_table.index_find commit.by_player player (commits s) in
  check (bool_decide (existing = None))
        "You have a pending commit - reveal or wait for expiry";;
  let glob := get_globals s in
  commits' ← commits_table.emplace
                (commit.mk (globals.next_commit_id glob) player commit_hash
                           (current_block e) wish_type (sec_since_epoch e))
                (commits s);
  let glob := globals.mk (wrap64 (globals.next_commit_id glob + 1))
                         (globals.next_result_id glob) in
  Ok (mk_state (conf_table s) (tokens s) users' commits' (history s)
               (leaderboard s) (Some glob), []).

(** The account bookkeeping of [reveal]. *)
Definition reveal_update_user (player : name) (result_code tokens_won : Z)
    (us : gmap Z user.t) : gmap Z user.t :=
  match us !! player with
  | None =>
      <[player := user.mk player
                    (if result_code =? OUTCOME_FREE_SPIN then 1 else 0)
                    0
                    1
                    (if result_code =? OUTCOME_WISH_GRANTED then 1 else 0)
                    tokens_won]> us
  | Some u =>
      <[player := user.mk (user.account u)
                    (if result_code =? OUTCOME_FREE_SPIN
                     then wrap32 (user.purchased_wishes u + 1)
                     else user.purchased_wishes u)
                    (user.last_free_day u)
                    (wrap32 (user.total_wishes u + 1))
                    (if result_code =? OUTCOME_WISH_GRANTED
                     then wrap32 (user.total_wins u + 1)
                     else user.total_wins u)
                    (wrap64 (user.tokens_won u + tokens_won))]> us
  end.

(** The payout at the end of [reveal]: the inline transfer and the new
    configuration row; nothing is written when nothing was won. *)
Definition reveal_payout (e : Env) (conf : config.t) (player : name) (tokens_won : Z)
    : result (config.t * list inline_transfer) :=
  if 0 <? tokens_won then
    payout ← asset_new (to_i64 tokens_won) (config.arcade_symbol conf);
    Ok (config.set_treasury_balance conf
          (wrap64 (config.treasury_balance conf - tokens_won)),
        [mk_transfer (config.arcade_contract conf) (self e) player payout
                     "Zoltaran Speaks winnings!"])
  else Ok (conf, []).

Definition reveal (e : Env) (s : State)
    (player : name) (commit_id : Z) (client_secret wish_ipfs_cid : string)
    : result (State * list inline_transfer) :=
  require_auth e player;;
  conf ← get_config s;
  check (negb (config.paused conf)) "Game is paused";;
  commit_itr ← match commits_table.find commit_id (commits s) with
               | Some c => Ok c
               | None => Abort "Commit not found"
               end;
  check (commit.player commit_itr =? player) "Not your commit";;
  check (commit.block_num commit_itr <? current_block e) "Must wait at least 1 block";;
  let preimage := (client_secret ++ wish_ipfs_cid)%string in
  let computed_hash := sha256 preimage in
  check (bool_decide (commit.commit_hash commit_itr = computed_hash))
        "Hash mismatch - invalid secret or CID";;
  let '(result_code, tokens_won) :=
    resolve_outcome client_secret (tapos_block_prefix e) player conf in
  let users' := reveal_update_user player result_code tokens_won (users s) in
  let leaderboard' :=
    if (result_code =? OUTCOME_WISH_GRANTED) || (0 <? tokens_won)
    then update_leaderboard player
           (if result_code =? OUTCOME_WISH_GRANTED then 1 else 0) tokens_won
           (leaderboard s)
    else leaderboard s in
  let glob := get_globals s in
  history' ← gamehistory_table.emplace
               (gameresult.mk (globals.next_result_id glob) player result_code
                              tokens_won wish_ipfs_cid (sec_since_epoch e))
               (history s);
  let glob := globals.mk (globals.next_commit_id glob)
                         (wrap64 (globals.next_result_id glob + 1)) in
  '(conf', sent) ← reveal_payout e conf player tokens_won;
  Ok (mk_state (Some conf') (tokens s) users'
               (commits_table.erase (commit.id commit_itr) (commits s))
               history' leaderboard' (Some glob), sent).

Definition is_treasury_memo (memo : string) : bool :=
  String.eqb memo "TREASURY" || String.eqb memo "treasury" || String.eqb memo "fund".

(** The purchase branch of [on_transfer], entered once the memo starts
    with the purchase prefix. *)
Definition on_transfer_purchase (e : Env) (s : State)
    (from : name) (quantity : asset) (memo : string)
    : result (State * list inline_transfer) :=
  wish_count ← match stoul (string_drop 7 memo) with
               | Ok v => Ok (wrap32 v)
               | Abort _ => Abort "Invalid wish count in memo"
               end;
  check ((0 <? wish_count) && (wish_count <=? 1000)) "Invalid wish count";;
  token_itr ← match tokens s !! symbol_code_raw (symbol quantity) with
              | Some t => Ok t
              | None => Abort "Token not accepted"
              end;
  check (tokenconfig.enabled token_itr) "Token currently disabled";;
  check (tokenconfig.contract token_itr =? first_receiver e) "Wrong token contract";;
  let required := wrap64 (tokenconfig.price_per_wish token_itr * wish_count) in
  check (required <=? wrap64 (amount quantity)) "Insufficient payment";;
  let bonus_wishes := wrap32 (wish_count * tokenconfig.bonus_bps token_itr) / 10000 in
  let total_wishes := wrap32 (wish_count + bonus_wishes) in
  let users' :=
    match users s !! from with
    | None => <[from := user.mk from total_wishes 0 0 0 0]> (users s)
    | Some u =>
        <[from := user.set_purchased_wishes u
                    (wrap32 (user.purchased_wishes u + total_wishes))]> (users s)
    end in
  Ok (mk_state (conf_table s) (tokens s) users' (commits s) (history s)
               (leaderboard s) (glob_table s), []).

Definition on_transfer (e : Env) (s : State)
    (from to : name) (quantity : asset) (memo : string)
    : result (State * list inline_transfer) :=
  if negb (to =? self e) || (from =? self e) then Ok (s, [])
  else
    match conf_table s with
    | None => Ok (s, [])
    | Some conf =>
        if (first_receiver e =? config.arcade_contract conf)
           && (symbol quantity =? config.arcade_symbol conf)
           && is_treasury_memo memo
        then
          Ok (mk_state
                (Some (config.set_treasury_balance conf
                         (wrap64 (config.treasury_balance conf + amount quantity))))
                (tokens s) (users s) (commits s) (history s) (leaderboard s)
                (glob_table s), [])
        else if negb (String.eqb (string_take 7 memo) "WISHES:") then Ok (s, [])
        else on_transfer_purchase e s from quantity memo
    end.

(** The refund of one expired commit in [cleanup]. *)
Definition cleanup_refund (c : commit.t) (us : gmap Z user.t) : gmap Z user.t :=
  if commit.wish_type c =? WISH_TYPE_PURCHASED then
    match us !! commit.player c with
    | Some u =>
        <[commit.player c := user.set_purchased_wishes u
                               (wrap32 (user.purchased_wishes u + 1))]> us
    | None => us
    end
  else us.

(** The loop of [cleanup]; [budget] is what remains of [max_clean]. *)
Fixpoint cleanup_loop (budget : nat) (now : Z) (cs : list commit.t)
    (us : gmap Z user.t) : list commit.t * gmap Z user.t :=
  match budget with
  | O => (cs, us)
  | S b =>
      match commits_table.index_begin commit.by_time cs with
      | None => (cs, us)
      | Some itr =>
          if COMMIT_EXPIRY_SECONDS <? wrap32 (now - commit.timestamp itr) then
            cleanup_loop b now (commits_table.erase (commit.id itr) cs)
                         (cleanup_refund itr us)
          else (cs, us)
      end
  end.

Definition cleanup (e : Env) (s : State) (max_clean : Z)
    : result (State * list inline_transfer) :=
  _ ← get_config s;
  let '(commits', users') :=
    cleanup_loop (Z.to_nat max_clean) (sec_since_epoch e) (commits s) (users s) in
  Ok (mk_state (conf_table s) (tokens s) users' commits' (history s)
               (leaderboard s) (glob_table s), []).

Definition withdraw (e : Env) (s : State) (to : name) (quantity : asset)
    : result (State * list inline_transfer) :=
  conf ← get_config s;
  require_auth e (config.admin conf);;
  check (symbol quantity =? config.arcade_symbol conf) "Wrong token symbol";;
  check (wrap64 (amount quantity) <=? config.treasury_balance conf)
        "Insufficient treasury";;
  Ok (mk_state
        (Some (config.set_treasury_balance conf
                 (wrap64 (config.treasury_balance conf - amount quantity))))
        (tokens s) (users s) (commits s) (history s) (leaderboard s)
        (glob_table s),
      [mk_transfer (config.arcade_contract conf) (self e) to quantity
                   "Treasury withdrawal"]).

(** ** Transactions and reachable states *)

Inductive Action : Type :=
| Asetconfig (admin arcade_contract : name) (arcade_symbol : Z)
             (prob_win prob_tokens_250 prob_tokens_500 prob_tokens_1000
              prob_free_spin : Z)
| Asettoken (sym : Z) (token_contract : name) (price_per_wish bonus_bps : Z)
            (enabled : bool)
| Asetpause (paused : bool)
| Acommit (player : name) (commit_hash : checksum256) (wish_type : Z)
| Areveal (player : name) (commit_id : Z) (client_secret wish_ipfs_cid : string)
| Aon_transfer (from to : name) (quantity : asset) (memo : string)
| Acleanup (max_clean : Z)
| Awithdraw (to : name) (quantity : asset).

Definition run (e : Env) (s : State) (a : Action)
    : result (State * list inline_transfer) :=
  match a with
  | Asetconfig ad ac sy p0 p1 p2 p3 p4 => setconfig e s ad ac sy p0 p1 p2 p3 p4
  | Asettoken sy tc pr bp en => settoken e s sy tc pr bp en
  | Asetpause p => setpause e s p
  | Acommit p h w => commit e s p h w
  | Areveal p i cs cid => reveal e s p i cs cid
  | Aon_transfer f t q m => on_transfer e s f t q m
  | Acleanup n => cleanup e s n
  | Awithdraw t q => withdraw e s t q
  end.

(** The storage after an action: an aborted action leaves it as it was. *)
Definition apply (e : Env) (s : State) (a : Action) : State :=
  match run e s a with
  | Ok (s', _) => s'
  | Abort _ => s
  end.

(** States reachable from the empty storage by successful actions, the
    clock never running backwards; the index is the time of the last
    action. *)
Inductive reachable : Z -> State -> Prop :=
| reachable_init : reachable 0 empty_state
| reachable_step (t : Z) (s : State) (e : Env) (a : Action)
    (s' : State) (sent : list inline_transfer) :
    reachable t s ->
    t <= sec_since_epoch e < 2 ^ 32 ->
    run e s a = Ok (s', sent) ->
    reachable (sec_since_epoch e) s'.

(** ** A sample deployment

    Concrete accounts, environments and storages on which the properties
    below are exercised. *)

(** The [name] of a string of at most twelve characters, as [""_n] builds it. *)
Definition char_to_value (c : ascii) : Z :=
  let b := byte_of_ascii c in
  if (49 <=? b) && (b <=? 53) then b - 49 + 1
  else if (97 <=? b) && (b <=? 122) then b - 97 + 6
  else 0.

Fixpoint name_of_chars (i : nat) (s : string) : Z :=
  match s with
  | EmptyString => 0
  | String c r =>
      Z.lor (Z.shiftl (char_to_value c) (64 - 5 * (Z.of_nat i + 1)))
            (name_of_chars (S i) r)
  end.

Definition name_of_string (s : string) : name := name_of_chars 0 s.

Definition zoltaran : name := name_of_string "zoltaranwish".
Definition the_admin : name := name_of_string "admin".
Definition arcade_token : name := name_of_string "arcadetoken".
Definition alice : name := name_of_string "alice".
Definition bob : name := name_of_string "bob".

(** [symbol("ARCADE", 8)] *)
Definition ARCADE : Z := 19496820486062344.

(** An environment at time [t] in which exactly [signer] authorizes. *)
Definition env_at (t tapos : Z) (signer receiver : name) : Env :=
  mk_env zoltaran (fun n => n =? signer) t tapos receiver.

Definition default_setconfig : Action :=
  Asetconfig the_admin arcade_token ARCADE 2000 1000 800 200 1000.

(** The contract right after its first [setconfig]. *)
Definition st_configured : State :=
  apply (env_at 1000 0 zoltaran zoltaran) empty_state default_setconfig.

(** Alice has committed a free wish at time 2000. *)
Definition st_committed : State :=
  apply (env_at 2000 0 alice zoltaran) st_configured
        (Acommit alice (sha256 "secret2QmWish") WISH_TYPE_FREE).

(** Alice's reveal ten seconds later, in a transaction whose block prefix
    is 777: the draw is 2010. *)
Definition env_reveal : Env := env_at 2010 777 alice zoltaran.
Definition alice_reveal : Action := Areveal alice 1 "secret2" "QmWish".

(** The outcome stored by the last completed reveal. *)
Definition recorded_outcome (s : State) : option (Z * Z) :=
  (fun g => (gameresult.result_code g, gameresult.tokens_won g)) <$> last (history s).

(** The five probability weights of a configuration, in walk order. *)
Definition weights (c : config.t) : list Z :=
  [config.prob_win c; config.prob_tokens_250 c; config.prob_tokens_500 c;
   config.prob_tokens_1000 c; config.prob_free_spin c].

(** The running sums of a list of weights, without wrap-around. *)
Fixpoint partial_sums (acc : Z) (ws : list Z) : list Z :=
  match ws with
  | [] => []
  | w :: r => (acc + w) :: partial_sums (acc + w) r
  end.

(** The outcomes of the five buckets, in walk order. *)
Definition bucket_outcomes : list (Z * Z) :=
  [(OUTCOME_WISH_GRANTED, 0); (OUTCOME_TOKENS_250, TOKENS_250);
   (OUTCOME_TOKENS_500, TOKENS_500); (OUTCOME_TOKENS_1000, TOKENS_1000);
   (OUTCOME_FREE_SPIN, 0)].

(** The walk in the words of the specification: each bucket, in the order
    granted, small, medium, large, free-respin, carries its cumulative
    threshold, the sum of the weights up to and including its own; the draw
    takes the first bucket whose threshold exceeds it, and "no win" when
    there is none. *)
Definition thresholds (c : config.t) : list (Z * (Z * Z)) :=
  combine (partial_sums 0 (weights c)) bucket_outcomes.

Definition first_bucket (draw : Z) (ts : list (Z * (Z * Z))) : Z * Z :=
  match List.find (fun t => draw <? fst t) ts with
  | Some t => snd t
  | None => (OUTCOME_TRY_AGAIN, 0)
  end.

(** The weights of the scenario: 2000, 1000, 800, 200, 1000. *)
Definition scenario_config : config.t :=
  config.mk the_admin arcade_token ARCADE 0 false 2000 1000 800 200 1000.

(** A configuration whose weights add up to [2^32 + 4], and Alice's free
    commit under it. *)
Definition wrapping_setconfig : Action :=
  Asetconfig the_admin arcade_token ARCADE 5 4294967295 0 0 0.
Definition st_wrapped : State :=
  apply (env_at 1000 0 zoltaran zoltaran) empty_state wrapping_setconfig.
Definition st_wrapped_committed : State :=
  apply (env_at 2000 0 alice zoltaran) st_wrapped
        (Acommit alice (sha256 "secret2QmWish") WISH_TYPE_FREE).

(** The treasury has been funded after Alice's commit. *)
Definition st_funded : State :=
  apply (env_at 2005 0 bob arcade_token) st_committed
        (Aon_transfer bob zoltaran (mk_asset 100000000000 ARCADE) "TREASURY").

(** The pause flag as the actions read it. *)
Definition is_paused (s : State) : bool :=
  match conf_table s with
  | Some c => config.paused c
  | None => false
  end.

(** The tracked balance; a missing configuration row counts as [config{}]. *)
Definition tracked_balance (s : State) : Z :=
  match conf_table s with
  | Some c => config.treasury_balance c
  | None => config.treasury_balance config.empty
  end.

(** The admin has paused the freshly configured game. *)
Definition st_paused : State :=
  apply (env_at 1500 0 the_admin zoltaran) st_configured (Asetpause true).

(** The funding branch of [on_transfer] is taken. *)
Definition is_treasury_funding (e : Env) (conf : config.t) (quantity : asset)
    (memo : string) : bool :=
  (first_receiver e =? config.arcade_contract conf)
  && (symbol quantity =? config.arcade_symbol conf)
  && is_treasury_memo memo.

(** The memo starts with the purchase prefix. *)
Definition has_purchase_prefix (memo : string) : bool :=
  String.eqb (string_take 7 memo) "WISHES:".

Fixpoint all_digits (s : string) : bool :=
  match s with
  | EmptyString => true
  | String c r => isdigit c && all_digits r
  end.

(** A well-formed purchase memo: the prefix followed by one or more
    decimal digits and nothing else. *)
Definition well_formed_purchase (memo : string) : bool :=
  has_purchase_prefix memo
  && negb (String.eqb (string_drop 7 memo) "")
  && all_digits (string_drop 7 memo).

(** The count of a purchase memo is missing, too large for [stoul], or
    outside 1..1000. *)
Definition bad_wish_count (memo : string) : bool :=
  match stoul (string_drop 7 memo) with
  | Ok v => negb ((0 <? wrap32 v) && (wrap32 v <=? 1000))
  | Abort _ => true
  end.

(** The expiry test of [cleanup]. *)
Definition expired (now : Z) (c : commit.t) : bool :=
  COMMIT_EXPIRY_SECONDS <? wrap32 (now - commit.timestamp c).

(** What [cleanup] does to the account row of the owner of a removed
    commitment. *)
Definition refund_row (c : commit.t) (row : option user.t) : option user.t :=
  if commit.wish_type c =? WISH_TYPE_PURCHASED
  then (fun u => user.set_purchased_wishes u (wrap32 (user.purchased_wishes u + 1)))
         <$> row
  else row.

(** A commitment of the table before a sweep that is gone after it. *)
Definition removed (cs cs' : list commit.t) (c : commit.t) : Prop :=
  In c cs /\ ~ In c cs'.

(** Bob buys five wishes and commits one at 1300; Alice commits a free
    wish at 2000. *)
Definition st_token : State :=
  apply (env_at 1100 0 the_admin zoltaran) st_configured
        (Asettoken ARCADE arcade_token 100 0 true).
Definition st_bought : State :=
  apply (env_at 1200 0 bob arcade_token) st_token
        (Aon_transfer bob zoltaran (mk_asset 500 ARCADE) "WISHES:5").
Definition st_bob_committed : State :=
  apply (env_at 1300 0 bob zoltaran) st_bought
        (Acommit bob (sha256 "bobsecretQmBob") WISH_TYPE_PURCHASED).
Definition st_two_commits : State :=
  apply (env_at 2000 0 alice zoltaran) st_bob_committed
        (Acommit alice (sha256 "secret2QmWish") WISH_TYPE_FREE).

(** What every reachable storage satisfies at time [t]: primary keys and
    owners of the pending commitments are pairwise distinct, no commitment
    is stamped later than [t], and every owner has an account row. *)
Definition sweep_inv (t : Z) (s : State) : Prop :=
  0 <= t
  /\ List.NoDup (map commit.id (commits s))
  /\ List.NoDup (map commit.player (commits s))
  /\ forall c, In c (commits s) ->
       0 <= commit.timestamp c <= t /\ is_Some (users s !! commit.player c).

(** ** Further vocabulary for the properties of the actions *)

(** Any number of successful actions, in arbitrary environments. *)
Inductive evolves : State -> State -> Prop :=
| evolves_refl (s : State) : evolves s s
| evolves_step (s s1 s2 : State) (e : Env) (a : Action) (sent : list inline_transfer) :
    evolves s s1 -> run e s1 a = Ok (s2, sent) -> evolves s s2.

(** The account whose authorization an action demands, if any. *)
Definition required_authority (e : Env) (s : State) (a : Action) : option name :=
  match a with
  | Asetconfig _ _ _ _ _ _ _ _ => Some (self e)
  | Asettoken _ _ _ _ _ | Asetpause _ | Awithdraw _ _ => config.admin <$> conf_table s
  | Acommit p _ _ | Areveal p _ _ _ => Some p
  | Aon_transfer _ _ _ _ | Acleanup _ => None
  end.

(** The amount an action books as treasury funding. *)
Definition deposit (e : Env) (s : State) (a : Action) : Z :=
  match a with
  | Aon_transfer from to q memo =>
      if negb (to =? self e) || (from =? self e) then 0
      else match conf_table s with
           | Some conf => if is_treasury_funding e conf q memo then amount q else 0
           | None => 0
           end
  | _ => 0
  end.

(** The total of the inline transfers an action sends. *)
Definition paid_out (sent : list inline_transfer) : Z :=
  fold_right (fun tr acc => amount (tr_quantity tr) + acc) 0 sent.

(** The outcomes the bucket walk can produce, with their rewards. *)
Definition outcome_table : list (Z * Z) :=
  [(OUTCOME_WISH_GRANTED, 0); (OUTCOME_TOKENS_250, TOKENS_250);
   (OUTCOME_TOKENS_500, TOKENS_500); (OUTCOME_TOKENS_1000, TOKENS_1000);
   (OUTCOME_FREE_SPIN, 0); (OUTCOME_TRY_AGAIN, 0)].

(** The leaderboard row of a player mirrors the win statistics of the
    account row; without a leaderboard row the account has no win. *)
Definition rows_agree (p : name) (row : option user.t) (lrow : option leader.t)
    : Prop :=
  match row, lrow with
  | Some u, Some l =>
      leader.player l = p
      /\ leader.wins l = user.total_wins u
      /\ leader.tokens_won l = user.tokens_won u
      /\ 0 <= user.total_wins u < 2 ^ 32
      /\ 0 <= user.tokens_won u < 2 ^ 64
  | Some u, None => user.total_wins u = 0 /\ user.tokens_won u = 0
  | None, None => True
  | None, Some _ => False
  end.

Definition stats_agree (s : State) (p : name) : Prop :=
  rows_agree p (users s !! p) (leaderboard s !! p).

(** The wishes credited for a purchase of [n] with a bonus of [bps]. *)
Definition credited_wishes (n bps : Z) : Z := n + n * bps / 10000.

(** Bob has bought five wishes and committed one with the tag 2 at 1300. *)
Definition st_bob_tag2 : State :=
  apply (env_at 1300 0 bob zoltaran) st_bought
        (Acommit bob (sha256 "bobsecretQmBob") 2).

(** Alice's reveal has been carried out. *)
Definition st_revealed : State := apply env_reveal st_committed alice_reveal.

Definition is_reveal (a : Action) : bool :=
  match a with
  | Areveal _ _ _ _ => true
  | _ => false
  end.

(** How an account row may change under an action other than [reveal]: a
    row is never deleted, a new row starts without wins, and an existing row
    keeps its identity and statistics while its free-wish day never goes
    back. *)
Definition row_kept (before after : option user.t) : Prop :=
  match before, after with
  | Some u, Some u' =>
      user.account u' = user.account u
      /\ user.total_wishes u' = user.total_wishes u
      /\ user.total_wins u' = user.total_wins u
      /\ user.tokens_won u' = user.tokens_won u
      /\ user.last_free_day u <= user.last_free_day u'
  | None, Some u' => user.total_wins u' = 0 /\ user.tokens_won u' = 0
  | None, None => True
  | Some _, None => False
  end.

(** The commitments of one player that are in the table. *)
Definition live_commits (p : name) (s : State) : list commit.t :=
  List.filter (fun c => commit.player c =? p) (commits s).

Definition ends_liveness (a : Action) : bool :=
  match a with
  | Areveal _ _ _ _ | Acleanup _ => true
  | _ => false
  end.

(** * Properties *)

(** ** Test vectors of the library models *)

Example sha256_empty :
  hex_of_bytes (sha256 "") =
  "e3b0c44298fc1c149afbf4c8996fb92427ae41e4649b934ca495991b7852b855"%string.
Proof. vm_compute. reflexivity. Qed.

Example sha256_abc :
  hex_of_bytes (sha256 "abc") =
  "ba7816bf8f01cfea414140de5dae2223b00361a396177a9cb410ff61f20015ad"%string.
Proof. vm_compute. reflexivity. Qed.

Example sha256_two_blocks :
  hex_of_bytes
    (sha256 "abcdbcdecdefdefgefghfghighijhijkijkljklmklmnlmnomnopnopq") =
  "248d6a61d20638b8e5c026930c3e6039a33ce45964ff2167f6ecedd419db06c1"%string.
Proof. vm_compute. reflexivity. Qed.

Example to_string_samples :
  to_string 0 = "0"%string /\ to_string 4294967295 = "4294967295"%string
  /\ to_string 1020 = "1020"%string.
Proof. vm_compute. auto. Qed.

Example name_samples :
  name_to_string alice = "alice"%string
  /\ name_to_string zoltaran = "zoltaranwish"%string
  /\ name_to_string 0 = ""%string
  /\ symbol_is_valid ARCADE = true
  /\ symbol_is_valid 0 = false.
Proof. vm_compute. auto. Qed.

Example stoul_samples :
  stoul "5" = Ok 5
  /\ stoul "  +12abc" = Ok 12
  /\ stoul "-5" = Ok 4294967291
  /\ is_ok (stoul "abc") = false
  /\ is_ok (stoul "") = false
  /\ is_ok (stoul "4294967296") = false.
Proof. vm_compute. auto 10. Qed.

Example random_value_sample : random_value "secret2" 777 alice = 2010.
Proof. vm_compute. reflexivity. Qed.

(** ** The error monad *)

Lemma bind_Ok_inv {A B : Type} (m : result A) (f : A -> result B) (b : B) :
  m ≫= f = Ok b -> exists a, m = Ok a /\ f a = Ok b.
Proof. destruct m as [a|msg]; simpl; [eauto | discriminate]. Qed.

Lemma bind_Abort {A B : Type} (m : result A) (f : A -> result B) (msg : string) :
  m = Abort msg -> m ≫= f = Abort msg.
Proof. intros ->. reflexivity. Qed.

Lemma check_Ok_inv (b : bool) (msg : string) (u : unit) :
  check b msg = Ok u -> b = true.
Proof. destruct b; [reflexivity | discriminate]. Qed.

Lemma get_config_Ok_inv (s : State) (c : config.t) :
  get_config s = Ok c -> conf_table s = Some c.
Proof. unfold get_config. destruct (conf_table s); [congruence | discriminate]. Qed.

(** Peel the successful prefix of an action off a hypothesis [H : _ = Ok _]. *)
Ltac ok_step H :=
  match type of H with
  | mbind _ (check _ _) = Ok _ =>
      let u := fresh "u" in let Hc := fresh "Hc" in
      apply bind_Ok_inv in H; destruct H as (u & Hc & H);
      apply check_Ok_inv in Hc
  | mbind _ (require_auth _ _) = Ok _ =>
      let u := fresh "u" in let Hc := fresh "Hauth" in
      apply bind_Ok_inv in H; destruct H as (u & Hc & H);
      apply check_Ok_inv in Hc
  | mbind _ (get_config _) = Ok _ =>
      let c := fresh "conf" in let Hc := fresh "Hconf" in
      apply bind_Ok_inv in H; destruct H as (c & Hc & H);
      apply get_config_Ok_inv in Hc
  | mbind _ _ = Ok _ =>
      let x := fresh "x" in let Hx := fresh "Hx" in
      apply bind_Ok_inv in H; destruct H as (x & Hx & H)
  end.

Ltac ok_steps H := repeat ok_step H.

(** ** The [commits] table *)

Lemma index_begin_None (sec : commit.t -> Z) (rows : list commit.t) :
  commits_table.index_begin sec rows = None <-> rows = [].
Proof.
  split; [| intros ->; reflexivity].
  destruct rows as [|r rest]; [reflexivity |]. simpl.
  destruct (commits_table.index_begin sec rest) as [m|]; [| discriminate].
  destruct (commits_table.index_lt sec m r); discriminate.
Qed.

Lemma index_begin_In (sec : commit.t -> Z) (rows : list commit.t) (c : commit.t) :
  commits_table.index_begin sec rows = Some c -> In c rows.
Proof.
  revert c. induction rows as [|r rest IH]; intros c; simpl; [discriminate |].
  destruct (commits_table.index_begin sec rest) as [m|].
  - destruct (commits_table.index_lt sec m r); intros [= <-]; auto.
  - intros [= <-]. auto.
Qed.

Lemma erase_In (k : Z) (rows : list commit.t) (c : commit.t) :
  In c (commits_table.erase k rows) <-> In c rows /\ commit.id c <> k.
Proof.
  unfold commits_table.erase. rewrite filter_In.
  rewrite negb_true_iff, Z.eqb_neq. reflexivity.
Qed.

Lemma filter_erase_length (P : commit.t -> bool) (k : Z) (rows : list commit.t) :
  (length (List.filter P (commits_table.erase k rows)) <= length (List.filter P rows))%nat.
Proof.
  unfold commits_table.erase.
  induction rows as [|r rest IH]; simpl; [lia |].
  destruct (negb (commit.id r =? k)); simpl; destruct (P r); simpl; lia.
Qed.

Lemma cleanup_loop_filter_length (P : commit.t -> bool) (budget : nat) (now : Z)
    (cs : list commit.t) (us : gmap Z user.t) :
  (length (List.filter P (cleanup_loop budget now cs us).1) <= length (List.filter P cs))%nat.
Proof.
  revert cs us. induction budget as [|b IH]; intros cs us; simpl; [lia |].
  destruct (commits_table.index_begin commit.by_time cs) as [itr|]; simpl; [| lia].
  destruct (COMMIT_EXPIRY_SECONDS <? wrap32 (now - commit.timestamp itr)); simpl; [| lia].
  etransitivity; [apply IH | apply filter_erase_length].
Qed.

Lemma cleanup_loop_In (budget : nat) (now : Z) (cs : list commit.t)
    (us : gmap Z user.t) (c : commit.t) :
  In c (cleanup_loop budget now cs us).1 -> In c cs.
Proof.
  revert cs us. induction budget as [|b IH]; intros cs us; simpl; [auto |].
  destruct (commits_table.index_begin commit.by_time cs) as [itr|]; simpl; [| auto].
  destruct (COMMIT_EXPIRY_SECONDS <? wrap32 (now - commit.timestamp itr)); simpl; [| auto].
  intros Hin. apply IH in Hin. apply erase_In in Hin. tauto.
Qed.

(** What a successful action does to the [commits] table. *)
Lemma commit_commits (e : Env) (s s' : State) (p : name) (h : checksum256) (w : Z)
    (sent : list inline_transfer) :
  commit e s p h w = Ok (s', sent) ->
  live_commits p s = [] /\
  exists c, commit.player c = p /\ commits s' = commits s ++ [c].
Proof.
  unfold commit. intros H. ok_steps H.
  apply bool_decide_eq_true in Hc0.
  unfold commits_table.index_find in Hc0. apply index_begin_None in Hc0.
  unfold commits_table.emplace in Hx0.
  destruct (commits_table.find _ _); [discriminate |].
  injection Hx0 as <-. injection H as <- <-. simpl.
  split; [exact Hc0 |]. eexists. split; [| reflexivity]. reflexivity.
Qed.

Lemma reveal_commits (e : Env) (s s' : State) (p : name) (i : Z) (cs cid : string)
    (sent : list inline_transfer) :
  reveal e s p i cs cid = Ok (s', sent) ->
  exists k, commits s' = commits_table.erase k (commits s).
Proof.
  unfold reveal. intros H. ok_steps H.
  destruct (resolve_outcome _ _ _ _) as [rc tw]. ok_steps H.
  destruct x1 as [conf' snt]. injection H as <- <-. simpl. eauto.
Qed.

Lemma cleanup_commits (e : Env) (s s' : State) (n : Z) (sent : list inline_transfer) :
  cleanup e s n = Ok (s', sent) ->
  commits s' = (cleanup_loop (Z.to_nat n) (sec_since_epoch e) (commits s) (users s)).1.
Proof.
  unfold cleanup. intros H. ok_steps H.
  destruct (cleanup_loop _ _ _ _) as [c' u']. injection H as <- <-. reflexivity.
Qed.

Lemma other_commits (e : Env) (s s' : State) (a : Action) (sent : list inline_transfer) :
  run e s a = Ok (s', sent) ->
  match a with
  | Acommit _ _ _ | Areveal _ _ _ _ | Acleanup _ => True
  | _ => commits s' = commits s
  end.
Proof.
  destruct a; simpl; try exact (fun _ => I).
  - unfold setconfig. intros H. ok_steps H. injection H as <- <-. reflexivity.
  - unfold settoken. intros H. ok_steps H. injection H as <- <-. reflexivity.
  - unfold setpause. intros H. ok_steps H. injection H as <- <-. reflexivity.
  - unfold on_transfer. intros H.
    destruct (negb (to =? self e) || (from =? self e)); [injection H as <- <-; reflexivity |].
    destruct (conf_table s) as [conf|]; [| injection H as <- <-; reflexivity].
    destruct (_ && _ && _); [injection H as <- <-; reflexivity |].
    destruct (negb _); [injection H as <- <-; reflexivity |].
    unfold on_transfer_purchase in H. ok_steps H. injection H as <- <-. reflexivity.
  - unfold withdraw. intros H. ok_steps H. injection H as <- <-. reflexivity.
Qed.

Lemma run_live_commits (e : Env) (s s' : State) (a : Action)
    (sent : list inline_transfer) (p : name) :
  run e s a = Ok (s', sent) ->
  (length (live_commits p s) <= 1)%nat ->
  (length (live_commits p s') <= 1)%nat.
Proof.
  intros Hrun Hinv. unfold live_commits in *.
  destruct a; try (apply other_commits in Hrun; simpl in Hrun; rewrite Hrun; exact Hinv).
  - simpl in Hrun. apply commit_commits in Hrun.
    destruct Hrun as (Hnone & c & Hp & ->). unfold live_commits in Hnone.
    rewrite List.filter_app, length_app. simpl.
    destruct (Z.eqb_spec player p) as [->|Hne].
    + rewrite Hnone. destruct (commit.player c =? p); simpl; lia.
    + rewrite Hp. destruct (Z.eqb_spec player p); [contradiction | simpl; lia].
  - simpl in Hrun. apply reveal_commits in Hrun. destruct Hrun as (k & ->).
    etransitivity; [apply filter_erase_length | exact Hinv].
  - simpl in Hrun. apply cleanup_commits in Hrun. rewrite Hrun.
    etransitivity; [apply cleanup_loop_filter_length | exact Hinv].
Qed.

Lemma reachable_live_commits (t : Z) (s : State) (p : name) :
  reachable t s -> (length (live_commits p s) <= 1)%nat.
Proof.
  induction 1 as [|t s e a s' sent Hr IH Ht Hrun]; [simpl; lia |].
  eapply run_live_commits; eauto.
Qed.

Lemma commit_pending_aborts (e : Env) (s : State) (p : name) (h : checksum256) (w : Z) :
  live_commits p s <> [] -> exists msg, commit e s p h w = Abort msg.
Proof.
  intros Hlive. destruct (commit e s p h w) as [[s' sent]|msg] eqn:E; [| eauto].
  apply commit_commits in E. destruct E as [Hnone _]. contradiction.
Qed.

Lemma commit_pending_message (e : Env) (s : State) (p : name) (h : checksum256)
    (w : Z) (conf : config.t) (us : gmap Z user.t) :
  has_auth e p = true ->
  conf_table s = Some conf ->
  config.paused conf = false ->
  commit_take_wish e p w (users s) = Ok us ->
  live_commits p s <> [] ->
  commit e s p h w = Abort "You have a pending commit - reveal or wait for expiry".
Proof.
  intros Hauth Hconf Hp Hus Hlive. unfold commit, require_auth, get_config.
  rewrite Hauth, Hconf. simpl. rewrite Hp, Hus. simpl.
  rewrite bool_decide_eq_false_2; [reflexivity |].
  unfold commits_table.index_find. rewrite index_begin_None. exact Hlive.
Qed.

Lemma only_reveal_and_cleanup_remove (e : Env) (s s' : State) (a : Action)
    (sent : list inline_transfer) (c : commit.t) :
  run e s a = Ok (s', sent) ->
  In c (commits s) -> ~ In c (commits s') -> ends_liveness a = true.
Proof.
  intros Hrun Hin Hout.
  destruct a; try reflexivity;
    try (apply other_commits in Hrun; simpl in Hrun; rewrite Hrun in Hout; contradiction).
  simpl in Hrun. apply commit_commits in Hrun. destruct Hrun as (_ & c' & _ & Heq).
  rewrite Heq in Hout. exfalso. apply Hout. apply in_or_app. auto.
Qed.

(** C1. In every reachable state each player has at most one commitment in
    the [commits] table.  [commit] aborts when the caller already has one;
    once its earlier checks pass, it aborts with the pending-commit message
    of the by-player lookup.  A row leaves the table only through [reveal]
    or [cleanup]. *)
Theorem one_live_commit_per_player (t : Z) (s : State) (p : name) :
  reachable t s ->
  (length (live_commits p s) <= 1)%nat
  /\ (forall e h w, live_commits p s <> [] -> exists msg, commit e s p h w = Abort msg)
  /\ (forall e h w conf us,
        has_auth e p = true ->
        conf_table s = Some conf ->
        config.paused conf = false ->
        commit_take_wish e p w (users s) = Ok us ->
        live_commits p s <> [] ->
        commit e s p h w = Abort "You have a pending commit - reveal or wait for expiry")
  /\ (forall e a s' sent c,
        run e s a = Ok (s', sent) ->
        In c (commits s) -> ~ In c (commits s') -> ends_liveness a = true).
Proof.
  intros Hr. split; [exact (reachable_live_commits t s p Hr) |].
  split; [intros; by apply commit_pending_aborts |].
  split; [intros; by eapply commit_pending_message |].
  intros. by eapply only_reveal_and_cleanup_remove.
Qed.

(** ** The sample deployment is reachable *)

Lemma st_configured_reachable : reachable 1000 st_configured.
Proof.
  apply (reachable_step 0 empty_state (env_at 1000 0 zoltaran zoltaran)
           default_setconfig st_configured []).
  - exact reachable_init.
  - simpl. lia.
  - vm_compute. reflexivity.
Qed.

Lemma st_committed_reachable : reachable 2000 st_committed.
Proof.
  apply (reachable_step 1000 st_configured (env_at 2000 0 alice zoltaran)
           (Acommit alice (sha256 "secret2QmWish") WISH_TYPE_FREE) st_committed []).
  - exact st_configured_reachable.
  - simpl. lia.
  - vm_compute. reflexivity.
Qed.

Lemma one_live_commit_per_player_witness :
  reachable 2000 st_committed
  /\ length (live_commits alice st_committed) = 1%nat
  /\ (length (live_commits alice st_committed) <= 1)%nat.
Proof.
  split; [exact st_committed_reachable |].
  split; [vm_compute; reflexivity |].
  exact (proj1 (one_live_commit_per_player 2000 st_committed alice
                  st_committed_reachable)).
Defined.

(** ** Treasury accounting *)

(** [withdraw] checks the amount against the tracked balance before the
    transfer: its decrement never wraps. *)
Lemma withdraw_no_underflow (e : Env) (s s' : State) (to : name) (q : asset)
    (sent : list inline_transfer) (conf : config.t) :
  conf_table s = Some conf ->
  is_u64 (config.treasury_balance conf) ->
  withdraw e s to q = Ok (s', sent) ->
  exists conf',
    conf_table s' = Some conf'
    /\ config.treasury_balance conf' = config.treasury_balance conf - wrap64 (amount q)
    /\ 0 <= config.treasury_balance conf' <= config.treasury_balance conf.
Proof.
  intros Hconf Hb H. unfold withdraw in H. ok_steps H.
  rewrite Hconf in Hconf0. injection Hconf0 as <-.
  injection H as <- <-. simpl. eexists. split; [reflexivity |]. simpl.
  apply Z.leb_le in Hc0. unfold wrap64, is_u64 in *.
  assert (Hm : 0 <= amount q mod 2 ^ 64 < 2 ^ 64) by (apply Z.mod_pos_bound; lia).
  assert (Heq : (config.treasury_balance conf - amount q) mod 2 ^ 64
                = config.treasury_balance conf - amount q mod 2 ^ 64).
  { rewrite Zminus_mod. rewrite (Z.mod_small (config.treasury_balance conf)) by lia.
    apply Z.mod_small. lia. }
  rewrite Heq. lia.
Qed.

(** The payout of [reveal] does not read the tracked balance before the
    transfer: whatever the balance, a prize is sent and subtracted modulo
    [2^64]. *)
Lemma reveal_payout_unguarded (e : Env) (conf : config.t) (p : name) (tw : Z) :
  0 < tw <= max_amount ->
  symbol_is_valid (config.arcade_symbol conf) = true ->
  reveal_payout e conf p tw
  = Ok (config.set_treasury_balance conf (wrap64 (config.treasury_balance conf - tw)),
        [mk_transfer (config.arcade_contract conf) (self e) p
                     (mk_asset tw (config.arcade_symbol conf))
                     "Zoltaran Speaks winnings!"]).
Proof.
  intros Htw Hsym. unfold reveal_payout, asset_new, to_i64, max_amount in *.
  rewrite (proj2 (Z.ltb_lt 0 tw)) by lia.
  rewrite (proj2 (Z.ltb_lt tw (2 ^ 63))) by lia.
  rewrite (proj2 (Z.leb_le (- (2 ^ 62 - 1)) tw)) by lia.
  rewrite (proj2 (Z.leb_le tw (2 ^ 62 - 1))) by lia.
  rewrite Hsym. reflexivity.
Qed.

(** C2. The reward payout of [reveal] is not guarded by the tracked balance:
    in the reachable storage [st_committed] the treasury holds 0, Alice's
    reveal wins 250 tokens, the transfer is sent and the balance wraps to
    [2^64 - 25000000000]. *)
Theorem reveal_payout_wraps_treasury :
  reachable 2000 st_committed
  /\ (config.treasury_balance <$> conf_table st_committed) = Some 0
  /\ exists s' payout,
       run env_reveal st_committed alice_reveal = Ok (s', [payout])
       /\ amount (tr_quantity payout) = TOKENS_250
       /\ tr_to payout = alice
       /\ (config.treasury_balance <$> conf_table s') = Some (2 ^ 64 - 25000000000).
Proof.
  split; [exact st_committed_reachable |].
  split; [vm_compute; reflexivity |].
  eexists _, _. split; [vm_compute; reflexivity |].
  repeat split; vm_compute; reflexivity.
Qed.

(** ** Configuration *)

Lemma setconfig_total (a b c d f : Z) :
  wrap32 (wrap32 (wrap32 (wrap32 (a + b) + c) + d) + f) = wrap32 (a + b + c + d + f).
Proof.
  unfold wrap32.
  repeat (rewrite Zplus_mod_idemp_l; rewrite <- ?Z.add_assoc).
  reflexivity.
Qed.

(** Where the 32-bit sum does not wrap, [setconfig] enforces the bound. *)
Lemma setconfig_bound_without_wrap (e : Env) (s s' : State) (ad ac : name)
    (sy p0 p1 p2 p3 p4 : Z) (sent : list inline_transfer) :
  0 <= p0 + p1 + p2 + p3 + p4 < 2 ^ 32 ->
  setconfig e s ad ac sy p0 p1 p2 p3 p4 = Ok (s', sent) ->
  p0 + p1 + p2 + p3 + p4 <= 10000.
Proof.
  intros Hr H. unfold setconfig in H. ok_steps H.
  rewrite setconfig_total in Hc. unfold wrap32 in Hc.
  rewrite Z.mod_small in Hc by exact Hr. apply Z.leb_le in Hc. exact Hc.
Qed.

(** With a first weight of [2^32 - 1] every draw is a granted wish. *)
Lemma determine_outcome_saturated (conf : config.t) (draw : Z) :
  config.prob_win conf = 4294967295 -> 0 <= draw < 10000 ->
  determine_outcome conf draw = (OUTCOME_WISH_GRANTED, 0).
Proof.
  intros Hw Hd. unfold determine_outcome. rewrite Hw.
  replace (wrap32 (0 + 4294967295)) with 4294967295 by reflexivity.
  destruct (Z.ltb_spec draw 4294967295); [reflexivity | lia].
Qed.

(** C7. [setconfig] adds the weights in 32-bit arithmetic: the weights
    [4294967295, 1, 0, 0, 0] have sum [2^32 > 10000], the computed total is 0
    and the configuration is stored; with it even the draw 9999 is a
    granted wish. *)
Theorem setconfig_accepts_wrapped_sum :
  4294967295 + 1 + 0 + 0 + 0 > 10000
  /\ is_u32 4294967295
  /\ exists s' conf',
       setconfig (env_at 1000 0 zoltaran zoltaran) empty_state
                 the_admin arcade_token ARCADE 4294967295 1 0 0 0 = Ok (s', [])
       /\ conf_table s' = Some conf'
       /\ weights conf' = [4294967295; 1; 0; 0; 0]
       /\ determine_outcome conf' 9999 = (OUTCOME_WISH_GRANTED, 0).
Proof.
  split; [lia |]. split; [unfold is_u32; lia |].
  eexists _, _. split; [vm_compute; reflexivity |].
  split; [reflexivity |]. split; reflexivity.
Qed.

(** ** Reveal: validation *)

Lemma abort_apply (e : Env) (s : State) (a : Action) (msg : string) :
  run e s a = Abort msg -> apply e s a = s.
Proof. unfold apply. intros ->. reflexivity. Qed.

Lemma reveal_Ok_inv (e : Env) (s s' : State) (p : name) (i : Z)
    (secret cid : string) (sent : list inline_transfer) :
  reveal e s p i secret cid = Ok (s', sent) ->
  exists conf c,
    has_auth e p = true
    /\ conf_table s = Some conf
    /\ config.paused conf = false
    /\ commits_table.find i (commits s) = Some c
    /\ commit.player c = p
    /\ commit.block_num c < current_block e
    /\ commit.commit_hash c = sha256 (secret ++ cid).
Proof.
  unfold reveal. intros H. ok_steps H. clear H.
  destruct (commits_table.find i (commits s)) as [c|]; [| discriminate].
  injection Hx as <-.
  exists conf, c. unfold require_auth in *.
  apply negb_true_iff in Hc. apply Z.eqb_eq in Hc0. apply Z.ltb_lt in Hc1.
  apply bool_decide_eq_true in Hc2. auto 10.
Qed.

(** C3. A reveal whose secret and content reference do not hash to the
    stored commitment hash aborts, and the storage (accounts, treasury,
    history, leaderboard, commitments) is what it was before the call. *)
Theorem reveal_hash_mismatch_fails (e : Env) (s : State) (p : name) (i : Z)
    (secret cid : string) (c : commit.t) :
  commits_table.find i (commits s) = Some c ->
  sha256 (secret ++ cid) <> commit.commit_hash c ->
  (exists msg, reveal e s p i secret cid = Abort msg)
  /\ apply e s (Areveal p i secret cid) = s.
Proof.
  intros Hfind Hneq.
  assert (Hab : exists msg, reveal e s p i secret cid = Abort msg).
  { destruct (reveal e s p i secret cid) as [[s' sent]|msg] eqn:E; [| eauto].
    apply reveal_Ok_inv in E. destruct E as (conf & c' & _ & _ & _ & Hf & _ & _ & Hh).
    rewrite Hfind in Hf. injection Hf as <-. congruence. }
  split; [exact Hab |]. destruct Hab as [msg Hab]. by eapply abort_apply.
Qed.

Lemma reveal_hash_mismatch_fails_witness :
  (exists msg, reveal env_reveal st_committed alice 1 "guess" "QmWish" = Abort msg)
  /\ apply env_reveal st_committed (Areveal alice 1 "guess" "QmWish") = st_committed.
Proof.
  apply (reveal_hash_mismatch_fails env_reveal st_committed alice 1 "guess" "QmWish"
           (commit.mk 1 alice (sha256 "secret2QmWish") 1000 0 2000)).
  - vm_compute. reflexivity.
  - vm_compute. discriminate.
Defined.

(** The message of the failed reveal, once the earlier checks pass. *)
Lemma reveal_hash_mismatch_message (e : Env) (s : State) (p : name) (i : Z)
    (secret cid : string) (c : commit.t) (conf : config.t) :
  has_auth e p = true ->
  conf_table s = Some conf ->
  config.paused conf = false ->
  commits_table.find i (commits s) = Some c ->
  commit.player c = p ->
  commit.block_num c < current_block e ->
  sha256 (secret ++ cid) <> commit.commit_hash c ->
  reveal e s p i secret cid = Abort "Hash mismatch - invalid secret or CID".
Proof.
  intros Hauth Hconf Hp Hfind Hpl Hblk Hneq. unfold reveal, require_auth, get_config.
  rewrite Hauth, Hconf. simpl. rewrite Hp, Hfind. simpl.
  rewrite (proj2 (Z.eqb_eq _ _) Hpl). simpl.
  rewrite (proj2 (Z.ltb_lt _ _) Hblk). simpl.
  rewrite bool_decide_eq_false_2 by congruence. reflexivity.
Qed.

(** A successful reveal found its commitment at a lower height. *)
Lemma reveal_block_check (e : Env) (s s' : State) (p : name) (i : Z)
    (secret cid : string) (c : commit.t) (sent : list inline_transfer) :
  commits_table.find i (commits s) = Some c ->
  reveal e s p i secret cid = Ok (s', sent) ->
  commit.block_num c < current_block e.
Proof.
  intros Hfind E. apply reveal_Ok_inv in E.
  destruct E as (conf & c' & _ & _ & _ & Hf & _ & Hb & _).
  rewrite Hfind in Hf. injection Hf as <-. exact Hb.
Qed.

(** C4. A reveal succeeds only at a block height strictly above the one
    stored in the commitment; at the same height it aborts and the storage
    is unchanged.  The height is the time in seconds divided by two. *)
Theorem reveal_requires_later_block (e : Env) (s : State) (p : name) (i : Z)
    (secret cid : string) (c : commit.t) :
  commits_table.find i (commits s) = Some c ->
  (forall s' sent, reveal e s p i secret cid = Ok (s', sent) ->
                   commit.block_num c < current_block e)
  /\ (current_block e = commit.block_num c ->
      (exists msg, reveal e s p i secret cid = Abort msg)
      /\ apply e s (Areveal p i secret cid) = s)
  /\ current_block e = sec_since_epoch e / 2.
Proof.
  intros Hfind.
  assert (Hlater : forall s' sent, reveal e s p i secret cid = Ok (s', sent) ->
                                   commit.block_num c < current_block e).
  { intros s' sent E. by eapply reveal_block_check. }
  split; [exact Hlater |]. split; [| reflexivity].
  intros Hsame.
  assert (Hab : exists msg, reveal e s p i secret cid = Abort msg).
  { destruct (reveal e s p i secret cid) as [[s' sent]|msg] eqn:E; [| eauto].
    specialize (Hlater _ _ eq_refl). lia. }
  split; [exact Hab |]. destruct Hab as [msg Hab]. by eapply abort_apply.
Qed.

Lemma reveal_requires_later_block_witness :
  current_block (env_at 2001 777 alice zoltaran) = 1000
  /\ (exists msg, reveal (env_at 2001 777 alice zoltaran) st_committed
                         alice 1 "secret2" "QmWish" = Abort msg)
  /\ apply (env_at 2001 777 alice zoltaran) st_committed
           (Areveal alice 1 "secret2" "QmWish") = st_committed.
Proof.
  split; [reflexivity |].
  apply (proj1 (proj2 (reveal_requires_later_block
                         (env_at 2001 777 alice zoltaran) st_committed alice 1
                         "secret2" "QmWish"
                         (commit.mk 1 alice (sha256 "secret2QmWish") 1000 0 2000)
                         ltac:(vm_compute; reflexivity)))).
  reflexivity.
Defined.

Lemma find_emplaced (k : Z) (rows : list commit.t) (c : commit.t) :
  commits_table.find k rows = None ->
  (commit.id c =? k) = true ->
  commits_table.find k (rows ++ [c]) = Some c.
Proof.
  unfold commits_table.find. intros Hnone Hk.
  induction rows as [|r rest IH]; simpl in *; [by rewrite Hk |].
  destruct (commit.id r =? k); [discriminate | auto].
Qed.

(** The height stored by [commit] is the height of its own block, so a
    reveal in that block is refused. *)
Lemma commit_then_reveal_same_block (e0 e : Env) (s0 s : State) (p : name)
    (h : checksum256) (w : Z) (sent : list inline_transfer) (secret cid : string) :
  commit e0 s0 p h w = Ok (s, sent) ->
  current_block e = current_block e0 ->
  exists msg, reveal e s p (globals.next_commit_id (get_globals s0)) secret cid = Abort msg.
Proof.
  intros Hc Hsame. unfold commit in Hc. ok_steps Hc.
  unfold commits_table.emplace in Hx0. simpl in Hx0.
  destruct (commits_table.find _ (commits s0)) eqn:Hfresh; [discriminate |].
  injection Hx0 as <-. injection Hc as <- <-.
  set (c := commit.mk _ _ _ _ _ _).
  assert (Hfind : commits_table.find (commit.id c) (commits s0 ++ [c]) = Some c).
  { apply find_emplaced; [exact Hfresh | apply Z.eqb_refl]. }
  set (s1 := mk_state _ _ _ _ _ _ _).
  destruct (reveal e s1 p (commit.id c) secret cid) as [[s' snt]|msg] eqn:E; [| eauto].
  pose proof (reveal_block_check e s1 s' p (commit.id c) secret cid c snt Hfind E) as Hb.
  subst c. cbn [commit.block_num] in Hb. lia.
Qed.

(** ** Outcome resolution *)

Lemma random_value_range (secret : string) (tapos : Z) (p : name) :
  0 <= random_value secret tapos p < 10000.
Proof. unfold random_value. apply Z.mod_pos_bound. lia. Qed.

Lemma determine_outcome_weights (c1 c2 : config.t) (draw : Z) :
  weights c1 = weights c2 -> determine_outcome c1 draw = determine_outcome c2 draw.
Proof.
  unfold weights. intros [= H1 H2 H3 H4 H5].
  unfold determine_outcome. rewrite H1, H2, H3, H4, H5. reflexivity.
Qed.

(** What a successful reveal appends to the history. *)
Lemma reveal_recorded (e : Env) (s s' : State) (p : name) (i : Z)
    (secret cid : string) (sent : list inline_transfer) (conf : config.t) :
  conf_table s = Some conf ->
  reveal e s p i secret cid = Ok (s', sent) ->
  recorded_outcome s' = Some (resolve_outcome secret (tapos_block_prefix e) p conf).
Proof.
  intros Hconf H. unfold reveal in H. ok_steps H.
  rewrite Hconf in Hconf0. injection Hconf0 as <-.
  destruct (resolve_outcome _ _ _ _) as [rc tw]. ok_steps H.
  destruct x1 as [conf' snt]. injection H as <- <-.
  unfold gamehistory_table.emplace in Hx0.
  destruct (gamehistory_table.find _ _); [discriminate |]. injection Hx0 as <-.
  unfold recorded_outcome. simpl. rewrite last_snoc. reflexivity.
Qed.

(** C5. The draw, the outcome code and the reward of a reveal are functions
    of the secret, the block prefix, the player and the five weights: two
    successful reveals that agree on these, in whatever storages and at
    whatever times, record the same outcome, the one [resolve_outcome]
    computes from a draw in [0, 10000). *)
Theorem resolver_deterministic (e1 e2 : Env) (s1 s2 s1' s2' : State)
    (conf1 conf2 : config.t) (p : name) (i1 i2 : Z) (secret cid1 cid2 : string)
    (sent1 sent2 : list inline_transfer) :
  conf_table s1 = Some conf1 ->
  conf_table s2 = Some conf2 ->
  weights conf1 = weights conf2 ->
  tapos_block_prefix e1 = tapos_block_prefix e2 ->
  reveal e1 s1 p i1 secret cid1 = Ok (s1', sent1) ->
  reveal e2 s2 p i2 secret cid2 = Ok (s2', sent2) ->
  random_value secret (tapos_block_prefix e1) p
    = random_value secret (tapos_block_prefix e2) p
  /\ 0 <= random_value secret (tapos_block_prefix e1) p < 10000
  /\ recorded_outcome s1' = recorded_outcome s2'
  /\ recorded_outcome s1'
     = Some (determine_outcome conf1 (random_value secret (tapos_block_prefix e1) p)).
Proof.
  intros Hc1 Hc2 Hw Ht H1 H2.
  split; [by rewrite Ht |]. split; [apply random_value_range |].
  rewrite (reveal_recorded _ _ _ _ _ _ _ _ _ Hc1 H1).
  rewrite (reveal_recorded _ _ _ _ _ _ _ _ _ Hc2 H2).
  unfold resolve_outcome. rewrite <- Ht.
  rewrite (determine_outcome_weights conf1 conf2 _ Hw). auto.
Qed.

Lemma resolver_deterministic_witness :
  exists s1' s2' sent1 sent2,
    st_committed <> st_funded
    /\ run env_reveal st_committed alice_reveal = Ok (s1', sent1)
    /\ run (env_at 2020 777 alice zoltaran) st_funded alice_reveal = Ok (s2', sent2)
    /\ recorded_outcome s1' = recorded_outcome s2'
    /\ recorded_outcome s1' = Some (OUTCOME_TOKENS_250, TOKENS_250).
Proof.
  destruct (run env_reveal st_committed alice_reveal) as [[s1' sent1]|] eqn:E1;
    [| vm_compute in E1; discriminate E1].
  destruct (run (env_at 2020 777 alice zoltaran) st_funded alice_reveal)
    as [[s2' sent2]|] eqn:E2; [| vm_compute in E2; discriminate E2].
  exists s1', s2', sent1, sent2.
  split; [vm_compute; discriminate |].
  split; [reflexivity |]. split; [reflexivity |].
  destruct (resolver_deterministic env_reveal (env_at 2020 777 alice zoltaran)
              st_committed st_funded s1' s2'
              (config.mk the_admin arcade_token ARCADE 0 false 2000 1000 800 200 1000)
              (config.mk the_admin arcade_token ARCADE 100000000000 false
                         2000 1000 800 200 1000)
              alice 1 1 "secret2" "QmWish" "QmWish" sent1 sent2)
    as (_ & _ & Hsame & Hval).
  - vm_compute. reflexivity.
  - vm_compute. reflexivity.
  - reflexivity.
  - reflexivity.
  - exact E1.
  - exact E2.
  - split; [exact Hsame |]. rewrite Hval. vm_compute. reflexivity.
Defined.

(** Where the sum of the weights stays below [2^32], as it does for every
    configuration whose weights add up to at most 10000, the walk of [reveal]
    selects the first bucket whose cumulative threshold exceeds the draw,
    and no win when there is none. *)
Lemma walk_first_bucket_without_wrap (conf : config.t) (draw : Z) :
  Forall (fun w => 0 <= w) (weights conf) ->
  fold_right Z.add 0 (weights conf) < 2 ^ 32 ->
  determine_outcome conf draw = first_bucket draw (thresholds conf).
Proof.
  unfold weights, determine_outcome, first_bucket, thresholds, bucket_outcomes.
  intros Hpos Hsum. simpl in *.
  repeat match goal with
         | H : Forall _ (_ :: _) |- _ => apply Forall_cons_iff in H; destruct H
         end.
  unfold wrap32. repeat (rewrite Z.mod_small by lia).
  repeat match goal with
         | |- context [?a <? ?b] => destruct (a <? b); try reflexivity
         end.
Qed.

(** The scenario of the weights 2000, 1000, 800, 200, 1000. *)
Lemma bucket_walk_scenario :
  map fst (thresholds scenario_config) = [2000; 3000; 3800; 4000; 5000]
  /\ determine_outcome scenario_config 1999 = (OUTCOME_WISH_GRANTED, 0)
  /\ determine_outcome scenario_config 2000 = (OUTCOME_TOKENS_250, 25000000000)
  /\ determine_outcome scenario_config 9999 = (OUTCOME_TRY_AGAIN, 0)
  /\ forall draw,
       determine_outcome scenario_config draw
       = first_bucket draw (thresholds scenario_config).
Proof.
  split; [vm_compute; reflexivity |].
  split; [vm_compute; reflexivity |].
  split; [vm_compute; reflexivity |].
  split; [vm_compute; reflexivity |].
  intros draw. apply walk_first_bucket_without_wrap.
  - repeat constructor; vm_compute; discriminate.
  - vm_compute. reflexivity.
Qed.

Lemma st_wrapped_committed_reachable : reachable 2000 st_wrapped_committed.
Proof.
  apply (reachable_step 1000 st_wrapped (env_at 2000 0 alice zoltaran)
           (Acommit alice (sha256 "secret2QmWish") WISH_TYPE_FREE)
           st_wrapped_committed []);
    [| simpl; lia | vm_compute; reflexivity].
  apply (reachable_step 0 empty_state (env_at 1000 0 zoltaran zoltaran)
           wrapping_setconfig st_wrapped []);
    [exact reachable_init | simpl; lia | vm_compute; reflexivity].
Qed.

(** C6. The walk of [reveal] accumulates its threshold in [uint32_t].  The
    weights [5, 4294967295, 0, 0, 0] are accepted by [setconfig]; their
    cumulative thresholds are 5 and then 4294967300, so the first bucket
    whose threshold exceeds the draw 2010 is the small prize; the code,
    whose running threshold has wrapped to 4, answers "no win", and Alice's
    reveal with that draw records no win. *)
Theorem bucket_walk_wraps_cumulative :
  exists conf s',
    run (env_at 1000 0 zoltaran zoltaran) empty_state wrapping_setconfig
    = Ok (st_wrapped, [])
    /\ conf_table st_wrapped = Some conf
    /\ weights conf = [5; 4294967295; 0; 0; 0]
    /\ map fst (thresholds conf)
       = [5; 4294967300; 4294967300; 4294967300; 4294967300]
    /\ first_bucket 2010 (thresholds conf) = (OUTCOME_TOKENS_250, TOKENS_250)
    /\ determine_outcome conf 2010 = (OUTCOME_TRY_AGAIN, 0)
    /\ reachable 2000 st_wrapped_committed
    /\ random_value "secret2" 777 alice = 2010
    /\ run env_reveal st_wrapped_committed alice_reveal = Ok (s', [])
    /\ recorded_outcome s' = Some (OUTCOME_TRY_AGAIN, 0).
Proof.
  eexists _, _.
  split; [vm_compute; reflexivity |].
  split; [vm_compute; reflexivity |].
  split; [reflexivity |].
  split; [reflexivity |].
  split; [reflexivity |].
  split; [reflexivity |].
  split; [exact st_wrapped_committed_reachable |].
  split; [vm_compute; reflexivity |].
  split; [vm_compute; reflexivity |].
  vm_compute. reflexivity.
Qed.

(** ** The pause flag *)

Lemma reveal_payout_keeps_flags (e : Env) (conf conf' : config.t) (p : name) (tw : Z)
    (sent : list inline_transfer) :
  reveal_payout e conf p tw = Ok (conf', sent) ->
  config.paused conf' = config.paused conf.
Proof.
  unfold reveal_payout. destruct (0 <? tw).
  - intros H. ok_steps H. injection H as <- <-. reflexivity.
  - intros [= <- <-]. reflexivity.
Qed.

(** No action other than [setpause(true)] raises the pause flag. *)
Lemma run_paused (e : Env) (s s' : State) (a : Action) (sent : list inline_transfer) :
  run e s a = Ok (s', sent) ->
  is_paused s' = true ->
  is_paused s = true \/ a = Asetpause true.
Proof.
  unfold is_paused. destruct a; cbn [run]; intros H Hp.
  - unfold setconfig in H. ok_steps H. injection H as <- <-. simpl in Hp. discriminate.
  - unfold settoken in H. ok_steps H. injection H as <- <-. simpl in Hp. auto.
  - unfold setpause in H. ok_steps H. injection H as <- <-. simpl in Hp.
    right. by rewrite Hp.
  - unfold commit in H. ok_steps H. injection H as <- <-. simpl in Hp. auto.
  - unfold reveal in H. ok_steps H.
    destruct (resolve_outcome _ _ _ _) as [rc tw]. ok_steps H.
    destruct x1 as [conf' snt]. injection H as <- <-. simpl in Hp.
    apply reveal_payout_keeps_flags in Hx1. rewrite Hconf. left. congruence.
  - unfold on_transfer in H.
    destruct (negb (to =? self e) || (from =? self e)); [injection H as <- <-; auto |].
    destruct (conf_table s) as [conf|] eqn:Hconf;
      [| injection H as <- <-; rewrite Hconf in Hp; discriminate].
    destruct (_ && _ && _); [injection H as <- <-; auto |].
    destruct (negb _); [injection H as <- <-; rewrite Hconf in Hp; auto |].
    unfold on_transfer_purchase in H. ok_steps H. injection H as <- <-.
    simpl in Hp. rewrite Hconf in Hp. auto.
  - unfold cleanup in H. ok_steps H.
    destruct (cleanup_loop _ _ _ _) as [c' u']. injection H as <- <-. simpl in Hp. auto.
  - unfold withdraw in H. ok_steps H. injection H as <- <-. simpl in Hp.
    rewrite Hconf. auto.
Qed.

(** C10. A successful [setconfig] leaves the game un-paused whatever the
    flag was, and carries the tracked treasury balance over; afterwards the
    flag is raised again only by [setpause(true)]. *)
Theorem setconfig_unpauses_keeps_treasury (e : Env) (s s' : State) (ad ac : name)
    (sy p0 p1 p2 p3 p4 : Z) (sent : list inline_transfer) :
  setconfig e s ad ac sy p0 p1 p2 p3 p4 = Ok (s', sent) ->
  is_paused s' = false
  /\ tracked_balance s' = tracked_balance s
  /\ (forall e1 a s'' sent1,
        run e1 s' a = Ok (s'', sent1) -> is_paused s'' = true -> a = Asetpause true).
Proof.
  intros H.
  assert (Hp : is_paused s' = false).
  { unfold setconfig in H. ok_steps H. injection H as <- <-. reflexivity. }
  split; [exact Hp |]. split.
  - unfold setconfig in H. ok_steps H. injection H as <- <-.
    unfold tracked_balance. simpl. destruct (conf_table s); reflexivity.
  - intros e1 a s'' sent1 Hrun Hp''.
    destruct (run_paused _ _ _ _ _ Hrun Hp'') as [Hcontra|Ha]; [congruence | exact Ha].
Qed.

Lemma setconfig_unpauses_keeps_treasury_witness :
  is_paused st_paused = true
  /\ exists s',
       setconfig (env_at 1600 0 zoltaran zoltaran) st_paused
                 the_admin arcade_token ARCADE 2000 1000 800 200 1000 = Ok (s', [])
       /\ is_paused s' = false
       /\ tracked_balance s' = tracked_balance st_paused.
Proof.
  split; [vm_compute; reflexivity |].
  destruct (setconfig (env_at 1600 0 zoltaran zoltaran) st_paused
              the_admin arcade_token ARCADE 2000 1000 800 200 1000)
    as [[s' sent]|] eqn:E; [| vm_compute in E; discriminate E].
  pose proof E as E'. vm_compute in E'. injection E' as _ <-.
  exists s'. split; [reflexivity |].
  destruct (setconfig_unpauses_keeps_treasury _ _ _ _ _ _ _ _ _ _ _ _ E)
    as (Hp & Hb & _).
  split; [exact Hp | exact Hb].
Defined.

(** ** Incoming transfers *)

(** C8, as the code has it.  For a transfer to a configured contract that
    does not take the funding branch: a memo with the purchase prefix whose
    count [stoul] cannot read, or reads as a value outside 1..1000, aborts
    the transfer; a memo without the prefix is accepted and nothing is
    written. *)
Theorem on_transfer_rejects_bad_count_only (e : Env) (s : State) (from to : name)
    (q : asset) (memo : string) (conf : config.t) :
  to = self e ->
  from <> self e ->
  conf_table s = Some conf ->
  is_treasury_funding e conf q memo = false ->
  (has_purchase_prefix memo = true -> bad_wish_count memo = true ->
     (exists msg, on_transfer e s from to q memo = Abort msg)
     /\ apply e s (Aon_transfer from to q memo) = s)
  /\ (has_purchase_prefix memo = false ->
     on_transfer e s from to q memo = Ok (s, [])).
Proof.
  intros Hto Hfrom Hconf Hfund.
  assert (Hdispatch : on_transfer e s from to q memo
                      = if has_purchase_prefix memo
                        then on_transfer_purchase e s from q memo
                        else Ok (s, [])).
  { unfold on_transfer, has_purchase_prefix.
    rewrite (proj2 (Z.eqb_eq _ _) Hto), (proj2 (Z.eqb_neq _ _) Hfrom), Hconf.
    unfold is_treasury_funding in Hfund. rewrite Hfund. cbn [negb orb].
    destruct (String.eqb _ _); reflexivity. }
  split.
  - intros Hpre Hbad. rewrite Hpre in Hdispatch.
    assert (Hab : exists msg, on_transfer e s from to q memo = Abort msg).
    { rewrite Hdispatch. unfold on_transfer_purchase, bad_wish_count in *.
      destruct (stoul (string_drop 7 memo)) as [v|m]; [| cbn; eauto].
      apply negb_true_iff in Hbad. cbn [mbind result_bind]. rewrite Hbad. cbn. eauto. }
    split; [exact Hab |]. destruct Hab as [msg Hab]. by eapply abort_apply.
  - intros Hpre. rewrite Hdispatch, Hpre. reflexivity.
Qed.

Lemma on_transfer_rejects_bad_count_only_witness :
  (exists msg, on_transfer (env_at 3000 0 bob arcade_token) st_configured
                           bob zoltaran (mk_asset 500 ARCADE) "WISHES:abc" = Abort msg)
  /\ apply (env_at 3000 0 bob arcade_token) st_configured
           (Aon_transfer bob zoltaran (mk_asset 500 ARCADE) "WISHES:abc") = st_configured.
Proof.
  apply (proj1 (on_transfer_rejects_bad_count_only
                  (env_at 3000 0 bob arcade_token) st_configured bob zoltaran
                  (mk_asset 500 ARCADE) "WISHES:abc" scenario_config
                  ltac:(reflexivity) ltac:(vm_compute; discriminate)
                  ltac:(vm_compute; reflexivity) ltac:(vm_compute; reflexivity)));
    vm_compute; reflexivity.
Defined.

(** C8, as stated, fails: the memo [hello] is neither a treasury keyword nor
    a purchase, yet the transfer of 500 tokens to the configured contract
    completes and the storage is unchanged. *)
Lemma on_transfer_accepts_unrecognized_memo :
  is_treasury_memo "hello" = false
  /\ well_formed_purchase "hello" = false
  /\ on_transfer (env_at 3000 0 bob arcade_token) st_configured
                 bob zoltaran (mk_asset 500 ARCADE) "hello" = Ok (st_configured, [])
  /\ apply (env_at 3000 0 bob arcade_token) st_configured
           (Aon_transfer bob zoltaran (mk_asset 500 ARCADE) "hello") = st_configured.
Proof. repeat split; vm_compute; reflexivity. Qed.

(** ** The expiry sweeper *)

Section SecondaryIndex.

Variable sec : commit.t -> Z.

Lemma index_lt_spec (a b : commit.t) :
  commits_table.index_lt sec a b = true
  <-> sec a < sec b \/ (sec a = sec b /\ commit.id a < commit.id b).
Proof.
  unfold commits_table.index_lt.
  rewrite orb_true_iff, andb_true_iff, !Z.ltb_lt, Z.eqb_eq. reflexivity.
Qed.

Lemma index_lt_false (a b : commit.t) :
  commits_table.index_lt sec a b = false
  <-> sec b < sec a \/ (sec a = sec b /\ commit.id b <= commit.id a).
Proof.
  rewrite <- not_true_iff_false, index_lt_spec. lia.
Qed.

(** [begin()] is a least row of the index. *)
Lemma index_begin_least (rows : list commit.t) (m : commit.t) :
  commits_table.index_begin sec rows = Some m ->
  forall c, In c rows -> commits_table.index_lt sec c m = false.
Proof.
  revert m. induction rows as [|r rest IH]; intros m; simpl; [discriminate |].
  destruct (commits_table.index_begin sec rest) as [m0|] eqn:Hrest.
  - destruct (commits_table.index_lt sec m0 r) eqn:Hlt; intros [= <-] c [<-|Hin].
    + apply index_lt_spec in Hlt. apply index_lt_false. lia.
    + by apply IH.
    + apply index_lt_false. lia.
    + specialize (IH m0 eq_refl c Hin).
      apply index_lt_false in IH. apply index_lt_false in Hlt.
      apply index_lt_false. lia.
  - apply index_begin_None in Hrest. subst rest.
    intros [= <-] c [<-|[]]. apply index_lt_false. lia.
Qed.

Lemma index_begin_before (rows : list commit.t) (m c : commit.t) :
  commits_table.index_begin sec rows = Some m ->
  In c rows -> commit.id c <> commit.id m ->
  commits_table.index_lt sec m c = true.
Proof.
  intros Hm Hin Hne. pose proof (index_begin_least rows m Hm c Hin) as Hl.
  apply index_lt_false in Hl. apply index_lt_spec. lia.
Qed.

End SecondaryIndex.

Lemma NoDup_map_filter {A B : Type} (f : A -> B) (P : A -> bool) (l : list A) :
  List.NoDup (map f l) -> List.NoDup (map f (List.filter P l)).
Proof.
  induction l as [|a l IH]; simpl; [auto |].
  intros Hnd. apply NoDup_cons_iff in Hnd. destruct Hnd as [Hnotin Hnd].
  destruct (P a); simpl; [| auto].
  apply NoDup_cons_iff. split; [| auto].
  intros Hin. apply Hnotin. apply in_map_iff in Hin.
  destruct Hin as (x & Hfx & Hx). apply filter_In in Hx.
  apply in_map_iff. exists x. tauto.
Qed.

Lemma NoDup_map_snoc {A B : Type} (f : A -> B) (l : list A) (a : A) :
  List.NoDup (map f l) -> ~ In (f a) (map f l) -> List.NoDup (map f (l ++ [a])).
Proof.
  induction l as [|x l IH]; simpl; intros Hnd Hnotin.
  - apply NoDup_cons_iff. split; [intros [] | constructor].
  - apply NoDup_cons_iff in Hnd. destruct Hnd as [Hx Hnd].
    apply NoDup_cons_iff. split.
    + rewrite map_app, in_app_iff. simpl. intros [Hin|[Heq|[]]]; [tauto |].
      apply Hnotin. left. congruence.
    + apply IH; [exact Hnd | tauto].
Qed.

Lemma NoDup_map_inj {A B : Type} (f : A -> B) (l : list A) (a b : A) :
  List.NoDup (map f l) -> In a l -> In b l -> f a = f b -> a = b.
Proof.
  induction l as [|x l IH]; simpl; [tauto |].
  intros Hnd Ha Hb Hf. apply NoDup_cons_iff in Hnd. destruct Hnd as [Hx Hnd].
  destruct Ha as [<-|Ha], Hb as [<-|Hb]; auto.
  - exfalso. apply Hx. rewrite Hf. by apply in_map.
  - exfalso. apply Hx. rewrite <- Hf. by apply in_map.
Qed.

Lemma erase_length (cs : list commit.t) (c : commit.t) :
  List.NoDup (map commit.id cs) -> In c cs ->
  S (length (commits_table.erase (commit.id c) cs)) = length cs.
Proof.
  unfold commits_table.erase.
  induction cs as [|x cs IH]; simpl; [tauto |].
  intros Hnd Hin. apply NoDup_cons_iff in Hnd. destruct Hnd as [Hx Hnd].
  destruct (Z.eqb_spec (commit.id x) (commit.id c)) as [Heq|Hne]; simpl.
  - f_equal. clear IH Hin.
    induction cs as [|y cs IH]; simpl; [reflexivity |].
    simpl in Hx. apply NoDup_cons_iff in Hnd. destruct Hnd as [_ Hnd].
    destruct (Z.eqb_spec (commit.id y) (commit.id c)) as [Hy|Hy]; simpl.
    + exfalso. apply Hx. left. congruence.
    + f_equal. apply IH; [tauto | exact Hnd].
  - f_equal. destruct Hin as [->|Hin]; [contradiction | auto].
Qed.

Lemma cleanup_loop_NoDup {B : Type} (f : commit.t -> B) (budget : nat) (now : Z)
    (cs : list commit.t) (us : gmap Z user.t) :
  List.NoDup (map f cs) -> List.NoDup (map f (cleanup_loop budget now cs us).1).
Proof.
  revert cs us. induction budget as [|b IH]; intros cs us Hnd; simpl; [exact Hnd |].
  destruct (commits_table.index_begin commit.by_time cs) as [itr|]; [| exact Hnd].
  destruct (COMMIT_EXPIRY_SECONDS <? wrap32 (now - commit.timestamp itr)); [| exact Hnd].
  apply IH. by apply NoDup_map_filter.
Qed.

Lemma cleanup_refund_lookup (c : commit.t) (us : gmap Z user.t) (p : name) :
  cleanup_refund c us !! p
  = if decide (p = commit.player c) then refund_row c (us !! p) else us !! p.
Proof.
  unfold cleanup_refund, refund_row.
  destruct (commit.wish_type c =? WISH_TYPE_PURCHASED).
  - destruct (us !! commit.player c) as [u|] eqn:Hu.
    + destruct (decide (p = commit.player c)) as [->|Hne].
      * rewrite lookup_insert_eq, Hu. reflexivity.
      * rewrite lookup_insert_ne by congruence. reflexivity.
    + destruct (decide (p = commit.player c)) as [->|Hne]; [by rewrite Hu | reflexivity].
  - destruct (decide (p = commit.player c)); reflexivity.
Qed.

Section CleanupLoop.

Variable now : Z.

(** Only expired rows are erased. *)
Lemma cleanup_loop_removed_expired (budget : nat) (cs : list commit.t)
    (us : gmap Z user.t) (c : commit.t) :
  List.NoDup (map commit.id cs) ->
  removed cs (cleanup_loop budget now cs us).1 c ->
  expired now c = true.
Proof.
  revert cs us. induction budget as [|b IH]; intros cs us Hnd [Hin Hout]; simpl in Hout;
    [contradiction |].
  destruct (commits_table.index_begin commit.by_time cs) as [itr|] eqn:Hitr;
    [| contradiction].
  destruct (COMMIT_EXPIRY_SECONDS <? wrap32 (now - commit.timestamp itr)) eqn:Hexp;
    [| contradiction].
  destruct (Z.eq_dec (commit.id c) (commit.id itr)) as [Heq|Hne].
  - assert (c = itr) as ->; [| exact Hexp].
    apply (NoDup_map_inj commit.id cs); auto. by eapply index_begin_In.
  - apply (IH (commits_table.erase (commit.id itr) cs) (cleanup_refund itr us)).
    + by apply NoDup_map_filter.
    + split; [apply erase_In; auto | exact Hout].
Qed.

(** The erased rows come before the kept ones in the by-time index. *)
Lemma cleanup_loop_prefix (budget : nat) (cs : list commit.t) (us : gmap Z user.t)
    (r k : commit.t) :
  List.NoDup (map commit.id cs) ->
  removed cs (cleanup_loop budget now cs us).1 r ->
  In k (cleanup_loop budget now cs us).1 ->
  commits_table.index_lt commit.by_time r k = true.
Proof.
  revert cs us. induction budget as [|b IH]; intros cs us Hnd [Hin Hout] Hk;
    simpl in Hout, Hk; [contradiction |].
  destruct (commits_table.index_begin commit.by_time cs) as [itr|] eqn:Hitr;
    [| contradiction].
  destruct (COMMIT_EXPIRY_SECONDS <? wrap32 (now - commit.timestamp itr)) eqn:Hexp;
    [| contradiction].
  assert (Hk' : In k cs /\ commit.id k <> commit.id itr).
  { apply cleanup_loop_In in Hk. by apply erase_In in Hk. }
  destruct (Z.eq_dec (commit.id r) (commit.id itr)) as [Heq|Hne].
  - assert (r = itr) as ->.
    { apply (NoDup_map_inj commit.id cs); auto. by eapply index_begin_In. }
    apply (index_begin_before commit.by_time cs); tauto.
  - apply (IH (commits_table.erase (commit.id itr) cs) (cleanup_refund itr us)).
    + by apply NoDup_map_filter.
    + split; [apply erase_In; auto | exact Hout].
    + exact Hk.
Qed.

(** At most [budget] rows are erased; when fewer are, the scan stopped at
    the end of the index or at a row that has not expired. *)
Lemma cleanup_loop_stop (budget : nat) (cs : list commit.t) (us : gmap Z user.t) :
  List.NoDup (map commit.id cs) ->
  let cs' := (cleanup_loop budget now cs us).1 in
  (length cs <= length cs' + budget)%nat
  /\ ((length cs < length cs' + budget)%nat ->
      match commits_table.index_begin commit.by_time cs' with
      | Some m => expired now m = false
      | None => True
      end).
Proof.
  revert cs us. induction budget as [|b IH]; intros cs us Hnd; simpl.
  - split; lia.
  - destruct (commits_table.index_begin commit.by_time cs) as [itr|] eqn:Hitr; simpl.
    + destruct (COMMIT_EXPIRY_SECONDS <? wrap32 (now - commit.timestamp itr)) eqn:Hexp;
        simpl.
      * pose proof (erase_length cs itr Hnd (index_begin_In _ _ _ Hitr)) as Hlen.
        destruct (IH (commits_table.erase (commit.id itr) cs) (cleanup_refund itr us))
          as [Hle Hstop]; [by apply NoDup_map_filter |].
        split; [lia |]. intros Hlt. apply Hstop. lia.
      * split; [lia |]. intros _. rewrite Hitr. exact Hexp.
    + split; [lia |]. intros _. by rewrite Hitr.
Qed.

(** The accounts after the loop: the owner of an erased row has its row
    refunded once, every other account is untouched. *)
Lemma cleanup_loop_users (budget : nat) (cs : list commit.t) (us : gmap Z user.t)
    (p : name) :
  List.NoDup (map commit.id cs) ->
  List.NoDup (map commit.player cs) ->
  let r := cleanup_loop budget now cs us in
  (exists c, removed cs r.1 c /\ commit.player c = p
             /\ r.2 !! p = refund_row c (us !! p))
  \/ ((forall c, removed cs r.1 c -> commit.player c <> p) /\ r.2 !! p = us !! p).
Proof.
  revert cs us. induction budget as [|b IH]; intros cs us Hid Hpl; simpl.
  { right. split; [intros c [Hin Hout]; contradiction | reflexivity]. }
  destruct (commits_table.index_begin commit.by_time cs) as [itr|] eqn:Hitr; simpl;
    [| right; split; [intros c [Hin Hout]; contradiction | reflexivity]].
  destruct (COMMIT_EXPIRY_SECONDS <? wrap32 (now - commit.timestamp itr)) eqn:Hexp;
    simpl; [| right; split; [intros c [Hin Hout]; contradiction | reflexivity]].
  pose proof (index_begin_In _ _ _ Hitr) as Hitr_in.
  set (cs1 := commits_table.erase (commit.id itr) cs).
  set (us1 := cleanup_refund itr us).
  assert (Hgone : ~ In itr (cleanup_loop b now cs1 us1).1).
  { intros Hin. apply cleanup_loop_In in Hin. apply erase_In in Hin. tauto. }
  destruct (IH cs1 us1) as [(c & [Hc Hout] & Hcp & Hus)|[Hnone Hus]];
    [by apply NoDup_map_filter | by apply NoDup_map_filter | |].
  - left. exists c. apply erase_In in Hc. destruct Hc as [Hc Hne].
    split; [split; auto |]. split; [exact Hcp |].
    rewrite Hus. unfold us1. rewrite cleanup_refund_lookup.
    destruct (decide (p = commit.player itr)) as [Heq|]; [| reflexivity].
    exfalso. apply Hne. f_equal.
    apply (NoDup_map_inj commit.player cs); auto. congruence.
  - destruct (Z.eq_dec (commit.player itr) p) as [Heq|Hne].
    + left. exists itr. split; [split; auto |]. split; [exact Heq |].
      rewrite Hus. unfold us1. rewrite cleanup_refund_lookup.
      destruct (decide (p = commit.player itr)); [reflexivity | congruence].
    + right. split.
      * intros c [Hc Hout].
        destruct (Z.eq_dec (commit.id c) (commit.id itr)) as [Hid'|Hid'].
        -- assert (c = itr) as -> by (apply (NoDup_map_inj commit.id cs); auto).
           exact Hne.
        -- apply Hnone. split; [apply erase_In; auto | exact Hout].
      * rewrite Hus. unfold us1. rewrite cleanup_refund_lookup.
        destruct (decide (p = commit.player itr)); [congruence | reflexivity].
Qed.

End CleanupLoop.

(** ** Invariants of the reachable storages *)

Lemma insert_keeps_row (m : gmap Z user.t) (k : Z) (v : user.t) (q : Z) :
  is_Some (m !! q) -> is_Some (<[k := v]> m !! q).
Proof.
  intros Hq. destruct (decide (k = q)) as [->|Hne].
  - rewrite lookup_insert_eq. eauto.
  - by rewrite lookup_insert_ne.
Qed.

Lemma commit_take_wish_rows (e : Env) (p : name) (w : Z) (us us' : gmap Z user.t) :
  commit_take_wish e p w us = Ok us' ->
  is_Some (us' !! p) /\ forall q, is_Some (us !! q) -> is_Some (us' !! q).
Proof.
  unfold commit_take_wish. intros H.
  destruct (w =? WISH_TYPE_FREE); destruct (us !! p) as [u|]; try discriminate;
    try (ok_steps H); injection H as <-;
    (split; [rewrite lookup_insert_eq; eauto | intros q; apply insert_keeps_row]).
Qed.

Lemma reveal_update_user_rows (p : name) (rc tw : Z) (us : gmap Z user.t) (q : Z) :
  is_Some (us !! q) -> is_Some (reveal_update_user p rc tw us !! q).
Proof.
  unfold reveal_update_user. destruct (us !! p); apply insert_keeps_row.
Qed.

Lemma cleanup_loop_rows (budget : nat) (now : Z) (cs : list commit.t)
    (us : gmap Z user.t) (q : name) :
  is_Some (us !! q) -> is_Some ((cleanup_loop budget now cs us).2 !! q).
Proof.
  revert cs us. induction budget as [|b IH]; intros cs us Hq; simpl; [exact Hq |].
  destruct (commits_table.index_begin commit.by_time cs) as [itr|]; [| exact Hq].
  destruct (COMMIT_EXPIRY_SECONDS <? wrap32 (now - commit.timestamp itr)); [| exact Hq].
  apply IH. rewrite cleanup_refund_lookup.
  destruct (decide (q = commit.player itr)); [| exact Hq].
  unfold refund_row. destruct (commit.wish_type itr =? WISH_TYPE_PURCHASED); [| exact Hq].
  destruct Hq as [u ->]. simpl. eauto.
Qed.

(** Account rows are never deleted. *)
Lemma run_keeps_rows (e : Env) (s s' : State) (a : Action)
    (sent : list inline_transfer) (q : Z) :
  run e s a = Ok (s', sent) -> is_Some (users s !! q) -> is_Some (users s' !! q).
Proof.
  destruct a; cbn [run]; intros H Hq.
  - unfold setconfig in H. ok_steps H. by injection H as <- <-.
  - unfold settoken in H. ok_steps H. by injection H as <- <-.
  - unfold setpause in H. ok_steps H. by injection H as <- <-.
  - unfold commit in H. ok_steps H. injection H as <- <-. cbn [users].
    by apply (commit_take_wish_rows _ _ _ _ _ Hx).
  - unfold reveal in H. ok_steps H.
    destruct (resolve_outcome _ _ _ _) as [rc tw]. ok_steps H.
    destruct x1 as [conf' snt]. injection H as <- <-. cbn [users].
    by apply reveal_update_user_rows.
  - unfold on_transfer in H.
    destruct (negb (to =? self e) || (from =? self e)); [by injection H as <- <- |].
    destruct (conf_table s) as [conf|]; [| by injection H as <- <-].
    destruct (_ && _ && _); [by injection H as <- <- |].
    destruct (negb _); [by injection H as <- <- |].
    unfold on_transfer_purchase in H. ok_steps H. injection H as <- <-. cbn [users].
    destruct (users s !! from); by apply insert_keeps_row.
  - unfold cleanup in H. ok_steps H.
    destruct (cleanup_loop _ _ _ _) as [c' u'] eqn:Hloop. injection H as <- <-.
    cbn [users]. change u' with (c', u').2. rewrite <- Hloop.
    by apply cleanup_loop_rows.
  - unfold withdraw in H. ok_steps H. by injection H as <- <-.
Qed.

Lemma find_None_fresh (k : Z) (rows : list commit.t) :
  commits_table.find k rows = None -> ~ In k (map commit.id rows).
Proof.
  unfold commits_table.find. intros Hnone Hin. apply in_map_iff in Hin.
  destruct Hin as (c & Hk & Hc).
  apply (find_none _ _ Hnone) in Hc. apply Z.eqb_neq in Hc. contradiction.
Qed.

Lemma filter_nil_fresh (p : name) (rows : list commit.t) :
  List.filter (fun c => commit.player c =? p) rows = [] ->
  ~ In p (map commit.player rows).
Proof.
  intros Hnil Hin. apply in_map_iff in Hin. destruct Hin as (c & Hp & Hc).
  assert (Hf : In c (List.filter (fun c => commit.player c =? p) rows)).
  { apply filter_In. split; [exact Hc | by apply Z.eqb_eq]. }
  rewrite Hnil in Hf. destruct Hf.
Qed.

(** The row a successful [commit] adds. *)
Lemma commit_new_row (e : Env) (s s' : State) (p : name) (h : checksum256) (w : Z)
    (sent : list inline_transfer) :
  commit e s p h w = Ok (s', sent) ->
  exists c,
    commits s' = commits s ++ [c]
    /\ commit.player c = p
    /\ commit.timestamp c = sec_since_epoch e
    /\ commit.block_num c = current_block e
    /\ ~ In (commit.id c) (map commit.id (commits s))
    /\ ~ In p (map commit.player (commits s))
    /\ is_Some (users s' !! p).
Proof.
  unfold commit. intros H. ok_steps H.
  apply bool_decide_eq_true in Hc0.
  unfold commits_table.index_find in Hc0. apply index_begin_None in Hc0.
  unfold commits_table.emplace in Hx0. cbn [commit.id] in Hx0.
  destruct (commits_table.find _ _) eqn:Hfresh; [discriminate |].
  injection Hx0 as <-. injection H as <- <-. cbn [commits users].
  eexists. split; [reflexivity |]. cbn [commit.player commit.timestamp commit.block_num commit.id].
  split; [reflexivity |]. split; [reflexivity |]. split; [reflexivity |].
  split; [by apply find_None_fresh |].
  split; [by apply filter_nil_fresh |].
  exact (proj1 (commit_take_wish_rows _ _ _ _ _ Hx)).
Qed.

Lemma run_sweep_inv (t : Z) (e : Env) (s s' : State) (a : Action)
    (sent : list inline_transfer) :
  sweep_inv t s ->
  t <= sec_since_epoch e ->
  run e s a = Ok (s', sent) ->
  sweep_inv (sec_since_epoch e) s'.
Proof.
  intros (Ht & Hid & Hpl & Hrows) Hle Hrun.
  pose proof (fun q => run_keeps_rows _ _ _ _ _ q Hrun) as Hkeep.
  assert (Hold : (forall c, In c (commits s') -> In c (commits s)) ->
                 forall c, In c (commits s') ->
                   0 <= commit.timestamp c <= sec_since_epoch e
                   /\ is_Some (users s' !! commit.player c)).
  { intros Hsub c Hc. destruct (Hrows c (Hsub c Hc)) as [Hts Hu].
    split; [lia | by apply Hkeep]. }
  unfold sweep_inv. split; [lia |].
  destruct a;
    try (pose proof (other_commits _ _ _ _ _ Hrun) as Heq; cbn in Heq;
         rewrite Heq in *;
         split; [exact Hid | split; [exact Hpl | apply Hold; auto]]).
  - cbn [run] in Hrun. apply commit_new_row in Hrun.
    destruct Hrun as (c & Heq & Hp & Hts & _ & Hfid & Hfpl & Hu). rewrite Heq.
    split; [by apply NoDup_map_snoc |].
    split; [apply NoDup_map_snoc; [exact Hpl | by rewrite Hp] |].
    intros c' Hc'. apply in_app_iff in Hc'. destruct Hc' as [Hc'|[<-|[]]].
    + destruct (Hrows c' Hc') as [Hts' Hu']. split; [lia | by apply Hkeep].
    + rewrite Hp. split; [lia | exact Hu].
  - cbn [run] in Hrun. apply reveal_commits in Hrun. destruct Hrun as (k & Heq).
    rewrite Heq in *.
    split; [by apply NoDup_map_filter |]. split; [by apply NoDup_map_filter |].
    apply Hold. intros c Hc. apply erase_In in Hc. tauto.
  - cbn [run] in Hrun. apply cleanup_commits in Hrun. rewrite Hrun in *.
    split; [by apply cleanup_loop_NoDup |]. split; [by apply cleanup_loop_NoDup |].
    apply Hold. intros c Hc. by apply cleanup_loop_In in Hc.
Qed.

Lemma reachable_sweep_inv (t : Z) (s : State) : reachable t s -> sweep_inv t s.
Proof.
  induction 1 as [|t s e a s' sent Hr IH Ht Hrun].
  - unfold sweep_inv. simpl.
    split; [lia |]. split; [constructor |]. split; [constructor |]. intros c [].
  - eapply run_sweep_inv; eauto. lia.
Qed.

Lemma cleanup_result (e : Env) (s s' : State) (n : Z) (sent : list inline_transfer) :
  cleanup e s n = Ok (s', sent) ->
  let r := cleanup_loop (Z.to_nat n) (sec_since_epoch e) (commits s) (users s) in
  commits s' = r.1 /\ users s' = r.2 /\ sent = []
  /\ conf_table s' = conf_table s /\ history s' = history s
  /\ leaderboard s' = leaderboard s.
Proof.
  unfold cleanup. intros H. ok_steps H.
  destruct (cleanup_loop _ _ _ _) as [c' u']. injection H as <- <-. simpl. auto 10.
Qed.

(** [cleanup] needs no authorization and cannot fail once the contract is
    configured. *)
Lemma cleanup_total (e : Env) (s : State) (n : Z) :
  is_Some (conf_table s) -> exists s', cleanup e s n = Ok (s', []).
Proof.
  intros [conf Hconf]. unfold cleanup, get_config. rewrite Hconf. simpl.
  destruct (cleanup_loop _ _ _ _) as [c' u']. eauto.
Qed.

Lemma expired_age (now : Z) (c : commit.t) :
  0 <= commit.timestamp c <= now -> now < 2 ^ 32 ->
  expired now c = true <-> now - commit.timestamp c > COMMIT_EXPIRY_SECONDS.
Proof.
  intros Hts Hnow. unfold expired, wrap32.
  rewrite Z.mod_small by lia. rewrite Z.ltb_lt. lia.
Qed.

(** The refund is a plain increment unless the counter is at its maximum. *)
Lemma refund_increment (n : Z) : 0 <= n < UINT32_MAX -> wrap32 (n + 1) = n + 1.
Proof. unfold UINT32_MAX, wrap32. intros Hn. apply Z.mod_small. lia. Qed.

(** X21. A sweep of a reachable storage, whatever its bound: every removed
    commitment is older than the expiry window of 3600 seconds; the owner
    of a removed commitment tagged [WISH_TYPE_PURCHASED] gets one
    purchased-wish credit (counted in [uint32_t]); the owner of a removed
    commitment tagged [WISH_TYPE_FREE] gets none, and no other account
    changes.  The removed commitments are a prefix of the by-time index, at
    most [max_clean] long, and when the bound was not exhausted every
    remaining commitment is within the window: the scan stopped at the
    first one that has not expired. *)
Theorem cleanup_removes_expired_refunds_purchased (t : Z) (s s' : State) (e : Env)
    (max_clean : Z) (sent : list inline_transfer) :
  reachable t s ->
  t <= sec_since_epoch e < 2 ^ 32 ->
  cleanup e s max_clean = Ok (s', sent) ->
  (forall c, removed (commits s) (commits s') c ->
             sec_since_epoch e - commit.timestamp c > COMMIT_EXPIRY_SECONDS)
  /\ (forall c, removed (commits s) (commits s') c ->
        commit.wish_type c = WISH_TYPE_PURCHASED ->
        exists u, users s !! commit.player c = Some u
                  /\ users s' !! commit.player c
                     = Some (user.set_purchased_wishes u
                               (wrap32 (user.purchased_wishes u + 1))))
  /\ (forall c, removed (commits s) (commits s') c ->
        commit.wish_type c = WISH_TYPE_FREE ->
        users s' !! commit.player c = users s !! commit.player c)
  /\ (forall p, (forall c, removed (commits s) (commits s') c -> commit.player c <> p) ->
        users s' !! p = users s !! p)
  /\ (forall r k, removed (commits s) (commits s') r -> In k (commits s') ->
        commits_table.index_lt commit.by_time r k = true)
  /\ (length (commits s) <= length (commits s') + Z.to_nat max_clean)%nat
  /\ ((length (commits s) < length (commits s') + Z.to_nat max_clean)%nat ->
      forall k, In k (commits s') ->
                sec_since_epoch e - commit.timestamp k <= COMMIT_EXPIRY_SECONDS).
Proof.
  intros Hreach Hnow Hrun.
  destruct (reachable_sweep_inv _ _ Hreach) as (Ht & Hid & Hpl & Hrows).
  destruct (cleanup_result _ _ _ _ _ Hrun) as (Hcs & Hus & _).
  set (now := sec_since_epoch e) in *.
  set (b := Z.to_nat max_clean) in *.
  assert (Hown : forall c p, removed (commits s) (commits s') c -> commit.player c = p ->
                   users s' !! p = refund_row c (users s !! p)).
  { intros c p Hrem Hp.
    destruct (cleanup_loop_users now b (commits s) (users s) p Hid Hpl)
      as [(c0 & Hrem0 & Hp0 & Hrow)|[Hnone _]].
    - rewrite <- Hcs in Hrem0. rewrite Hus, Hrow.
      assert (c0 = c) as ->; [| reflexivity].
      apply (NoDup_map_inj commit.player (commits s)); auto.
      + exact (proj1 Hrem0).
      + exact (proj1 Hrem).
      + congruence.
    - exfalso. rewrite <- Hcs in Hnone. exact (Hnone c Hrem Hp). }
  split.
  { intros c Hrem. destruct (Hrows c (proj1 Hrem)) as [Hts _].
    apply expired_age; [lia | lia |].
    apply (cleanup_loop_removed_expired now b (commits s) (users s)); [exact Hid |].
    by rewrite <- Hcs. }
  split.
  { intros c Hrem Hw. destruct (Hrows c (proj1 Hrem)) as [_ [u Hu]].
    exists u. split; [exact Hu |].
    rewrite (Hown c _ Hrem eq_refl). unfold refund_row.
    rewrite Hw, Hu. reflexivity. }
  split.
  { intros c Hrem Hw. rewrite (Hown c _ Hrem eq_refl). unfold refund_row.
    rewrite Hw. reflexivity. }
  split.
  { intros p Hnone.
    destruct (cleanup_loop_users now b (commits s) (users s) p Hid Hpl)
      as [(c0 & Hrem0 & Hp0 & _)|[_ Hrow]].
    - exfalso. rewrite <- Hcs in Hrem0. exact (Hnone c0 Hrem0 Hp0).
    - by rewrite Hus. }
  split.
  { intros r k Hrem Hk. rewrite Hcs in Hrem, Hk.
    by apply (cleanup_loop_prefix now b (commits s) (users s)). }
  destruct (cleanup_loop_stop now b (commits s) (users s) Hid) as [Hle Hstop].
  rewrite <- Hcs in Hle, Hstop.
  split; [exact Hle |].
  intros Hlt k Hk. specialize (Hstop Hlt).
  destruct (commits_table.index_begin commit.by_time (commits s')) as [m|] eqn:Hm.
  - assert (Hsub : forall c, In c (commits s') -> In c (commits s)).
    { intros c Hc. rewrite Hcs in Hc. by apply cleanup_loop_In in Hc. }
    pose proof (index_begin_In _ _ _ Hm) as Hmin.
    destruct (Hrows m (Hsub m Hmin)) as [Htm _].
    destruct (Hrows k (Hsub k Hk)) as [Htk _].
    pose proof (index_begin_least commit.by_time _ _ Hm k Hk) as Hleast.
    apply index_lt_false in Hleast. unfold commit.by_time in Hleast.
    assert (Hnot : ~ now - commit.timestamp m > COMMIT_EXPIRY_SECONDS).
    { rewrite <- expired_age by lia. by rewrite Hstop. }
    lia.
  - apply index_begin_None in Hm. rewrite Hm in Hk. destruct Hk.
Qed.

Lemma st_two_commits_reachable : reachable 2000 st_two_commits.
Proof.
  apply (reachable_step 1300 st_bob_committed (env_at 2000 0 alice zoltaran)
           (Acommit alice (sha256 "secret2QmWish") WISH_TYPE_FREE) st_two_commits []);
    [| simpl; lia | vm_compute; reflexivity].
  apply (reachable_step 1200 st_bought (env_at 1300 0 bob zoltaran)
           (Acommit bob (sha256 "bobsecretQmBob") WISH_TYPE_PURCHASED)
           st_bob_committed []);
    [| simpl; lia | vm_compute; reflexivity].
  apply (reachable_step 1100 st_token (env_at 1200 0 bob arcade_token)
           (Aon_transfer bob zoltaran (mk_asset 500 ARCADE) "WISHES:5") st_bought []);
    [| simpl; lia | vm_compute; reflexivity].
  apply (reachable_step 1000 st_configured (env_at 1100 0 the_admin zoltaran)
           (Asettoken ARCADE arcade_token 100 0 true) st_token []);
    [| simpl; lia | vm_compute; reflexivity].
  exact st_configured_reachable.
Qed.

Lemma cleanup_removes_expired_refunds_purchased_witness :
  exists s',
    cleanup (env_at 5000 0 alice zoltaran) st_two_commits 10 = Ok (s', [])
    /\ map commit.id (commits st_two_commits) = [1; 2]
    /\ map commit.id (commits s') = [2]
    /\ (user.purchased_wishes <$> users st_two_commits !! bob) = Some 4
    /\ (user.purchased_wishes <$> users s' !! bob) = Some 5
    /\ (forall c, removed (commits st_two_commits) (commits s') c ->
                  5000 - commit.timestamp c > COMMIT_EXPIRY_SECONDS)
    /\ (forall k, In k (commits s') -> 5000 - commit.timestamp k <= COMMIT_EXPIRY_SECONDS).
Proof.
  destruct (cleanup (env_at 5000 0 alice zoltaran) st_two_commits 10)
    as [[s' sent]|] eqn:E; [| vm_compute in E; discriminate E].
  pose proof E as E'. vm_compute in E'. injection E' as Hs <-.
  assert (Hids : map commit.id (commits s') = [2]) by (rewrite <- Hs; reflexivity).
  assert (Hbob : (user.purchased_wishes <$> users s' !! bob) = Some 5)
    by (rewrite <- Hs; vm_compute; reflexivity).
  clear Hs. exists s'. split; [reflexivity |].
  split; [vm_compute; reflexivity |]. split; [exact Hids |].
  split; [vm_compute; reflexivity |]. split; [exact Hbob |].
  destruct (cleanup_removes_expired_refunds_purchased 2000 st_two_commits s'
              (env_at 5000 0 alice zoltaran) 10 [] st_two_commits_reachable
              ltac:(simpl; lia) E) as (Hold & _ & _ & _ & _ & _ & Hstop).
  split; [exact Hold |]. apply Hstop.
  apply (f_equal (@length Z)) in Hids. rewrite length_map in Hids. rewrite Hids.
  vm_compute. lia.
Defined.

(** * Further properties of the actions *)

(** ** Authorization and the pause flag *)

(** X1. An action called without the authorization it demands ([setconfig]:
    the contract account; [settoken], [setpause], [withdraw]: the configured
    admin; [commit], [reveal]: the player) aborts and writes nothing. *)
Theorem unauthorized_action_aborts (e : Env) (s : State) (a : Action) (n : name) :
  required_authority e s a = Some n ->
  has_auth e n = false ->
  (exists msg, run e s a = Abort msg) /\ apply e s a = s.
Proof.
  intros Hreq Hauth.
  assert (Hab : run e s a = Abort "missing required authority").
  { destruct a; cbn [run required_authority] in *; try discriminate;
      try (destruct (conf_table s) as [conf|] eqn:Hconf; [| discriminate]);
      injection Hreq as <-.
    - unfold setconfig, require_auth. by rewrite Hauth.
    - unfold settoken, get_config, require_auth. rewrite Hconf.
      cbn [mbind result_bind]. by rewrite Hauth.
    - unfold setpause, get_config, require_auth. rewrite Hconf.
      cbn [mbind result_bind]. by rewrite Hauth.
    - unfold commit, require_auth. by rewrite Hauth.
    - unfold reveal, require_auth. by rewrite Hauth.
    - unfold withdraw, get_config, require_auth. rewrite Hconf.
      cbn [mbind result_bind]. by rewrite Hauth. }
  split; [eauto | by eapply abort_apply].
Qed.

Lemma unauthorized_action_aborts_witness :
  (exists msg, run (env_at 1500 0 bob zoltaran) st_configured (Asetpause true) = Abort msg)
  /\ apply (env_at 1500 0 bob zoltaran) st_configured (Asetpause true) = st_configured.
Proof.
  apply (unauthorized_action_aborts (env_at 1500 0 bob zoltaran) st_configured
           (Asetpause true) the_admin); vm_compute; reflexivity.
Defined.

(** X2. While the game is paused every [commit] and every [reveal] aborts,
    whereas [cleanup] still succeeds: expired commitments can be swept and
    refunded during a pause. *)
Theorem paused_blocks_play_not_sweep (e : Env) (s : State) :
  is_paused s = true ->
  (forall p h w, exists msg, commit e s p h w = Abort msg)
  /\ (forall p i secret cid, exists msg, reveal e s p i secret cid = Abort msg)
  /\ (forall n, exists s', cleanup e s n = Ok (s', [])).
Proof.
  unfold is_paused. intros Hp.
  destruct (conf_table s) as [conf|] eqn:Hconf; [| discriminate].
  split; [| split].
  - intros p h w. destruct (commit e s p h w) as [[s' sent]|msg] eqn:E; [| eauto].
    unfold commit in E. ok_steps E. rewrite Hconf in Hconf0. injection Hconf0 as <-.
    rewrite Hp in Hc. discriminate.
  - intros p i secret cid.
    destruct (reveal e s p i secret cid) as [[s' sent]|msg] eqn:E; [| eauto].
    apply reveal_Ok_inv in E. destruct E as (conf' & c & _ & Hc' & Hp' & _).
    congruence.
  - intros n. apply cleanup_total. rewrite Hconf. eauto.
Qed.

Lemma paused_blocks_play_not_sweep_witness :
  (exists msg, commit (env_at 1600 0 alice zoltaran) st_paused alice
                      (sha256 "secret2QmWish") WISH_TYPE_FREE = Abort msg)
  /\ exists s', cleanup (env_at 1600 0 alice zoltaran) st_paused 5 = Ok (s', []).
Proof.
  destruct (paused_blocks_play_not_sweep (env_at 1600 0 alice zoltaran) st_paused
              ltac:(vm_compute; reflexivity)) as (Hcommit & _ & Hsweep).
  split; [apply Hcommit | apply Hsweep].
Defined.

(** ** Reveal: ownership and replay *)

Lemma find_id (k : Z) (rows : list commit.t) (c : commit.t) :
  commits_table.find k rows = Some c -> commit.id c = k /\ In c rows.
Proof.
  unfold commits_table.find. intros H. apply find_some in H.
  destruct H as [Hin Hk]. apply Z.eqb_eq in Hk. auto.
Qed.

Lemma find_erased (k : Z) (rows : list commit.t) :
  commits_table.find k (commits_table.erase k rows) = None.
Proof.
  unfold commits_table.find, commits_table.erase.
  induction rows as [|r rest IH]; simpl; [reflexivity |].
  destruct (commit.id r =? k) eqn:E; simpl; [exact IH |]. by rewrite E.
Qed.

(** [reveal] erases the row it was given the key of. *)
Lemma reveal_erases (e : Env) (s s' : State) (p : name) (i : Z)
    (secret cid : string) (sent : list inline_transfer) :
  reveal e s p i secret cid = Ok (s', sent) ->
  commits s' = commits_table.erase i (commits s).
Proof.
  unfold reveal. intros H. ok_steps H.
  destruct (resolve_outcome _ _ _ _) as [rc tw]. ok_steps H.
  destruct x1 as [conf' snt]. injection H as <- <-. cbn [commits].
  destruct (commits_table.find i (commits s)) as [c|] eqn:Hfind; [| discriminate].
  injection Hx as <-. apply find_id in Hfind. destruct Hfind as [Hid _].
  by rewrite Hid.
Qed.

(** X3. [reveal] aborts, writing nothing, when the commitment id is not in
    the table or the commitment belongs to another player. *)
Theorem reveal_needs_own_commit (e : Env) (s : State) (p : name) (i : Z)
    (secret cid : string) :
  commits_table.find i (commits s) = None
  \/ (exists c, commits_table.find i (commits s) = Some c /\ commit.player c <> p) ->
  (exists msg, reveal e s p i secret cid = Abort msg)
  /\ apply e s (Areveal p i secret cid) = s.
Proof.
  intros Hcase.
  assert (Hab : exists msg, reveal e s p i secret cid = Abort msg).
  { destruct (reveal e s p i secret cid) as [[s' sent]|msg] eqn:E; [| eauto].
    apply reveal_Ok_inv in E. destruct E as (conf & c & _ & _ & _ & Hf & Hpl & _).
    destruct Hcase as [Hnone|(c' & Hf' & Hne)]; congruence. }
  split; [exact Hab |]. destruct Hab as [msg Hab]. by eapply abort_apply.
Qed.

Lemma reveal_needs_own_commit_witness :
  (exists msg, reveal (env_at 2010 777 bob zoltaran) st_committed bob 1
                      "secret2" "QmWish" = Abort msg)
  /\ apply (env_at 2010 777 bob zoltaran) st_committed
           (Areveal bob 1 "secret2" "QmWish") = st_committed.
Proof.
  apply reveal_needs_own_commit. right.
  exists (commit.mk 1 alice (sha256 "secret2QmWish") 1000 0 2000).
  split; [vm_compute; reflexivity | vm_compute; discriminate].
Defined.

(** X4. A commitment is revealed at most once: right after a successful
    reveal of commitment [i], any reveal of [i], by anyone and with any
    secret, aborts, so its prize cannot be paid twice. *)
Theorem reveal_not_replayable (e : Env) (s s' : State) (p : name) (i : Z)
    (secret cid : string) (sent : list inline_transfer) :
  reveal e s p i secret cid = Ok (s', sent) ->
  forall e' p' secret' cid', exists msg, reveal e' s' p' i secret' cid' = Abort msg.
Proof.
  intros H e' p' secret' cid'. apply reveal_erases in H.
  destruct (reveal e' s' p' i secret' cid') as [[s'' sent']|msg] eqn:E; [| eauto].
  apply reveal_Ok_inv in E. destruct E as (conf & c & _ & _ & _ & Hf & _).
  rewrite H, find_erased in Hf. discriminate.
Qed.

Lemma reveal_not_replayable_witness :
  is_ok (run env_reveal st_committed alice_reveal) = true
  /\ exists msg, reveal (env_at 2020 778 alice zoltaran) st_revealed alice 1
                        "secret2" "QmWish" = Abort msg.
Proof.
  split; [vm_compute; reflexivity |].
  destruct (reveal env_reveal st_committed alice 1 "secret2" "QmWish")
    as [[s' sent]|] eqn:E; [| vm_compute in E; discriminate E].
  assert (Hs : st_revealed = s').
  { unfold st_revealed, apply, alice_reveal. cbn [run]. by rewrite E. }
  rewrite Hs.
  apply (reveal_not_replayable env_reveal st_committed s' alice 1 "secret2" "QmWish"
           sent E).
Defined.

(** ** Outcomes *)

Lemma wrap32_plus_0 (x : Z) : wrap32 (wrap32 x + 0) = wrap32 x.
Proof. unfold wrap32. rewrite Z.add_0_r. apply Z.mod_mod. lia. Qed.

Ltac split_walk :=
  repeat match goal with
         | |- context [?a <? ?b] => destruct (a <? b)
         end.

(** X5. Whatever the configuration, the bucket walk yields one of the six
    rows of the outcome table, so a reveal never pays anything but 0, 250,
    500 or 1000 tokens; and a bucket whose weight is 0 is never drawn. *)
Theorem outcome_table_and_disabled_buckets (conf : config.t) (d : Z) :
  0 <= d ->
  In (determine_outcome conf d) outcome_table
  /\ (config.prob_win conf = 0 ->
      fst (determine_outcome conf d) <> OUTCOME_WISH_GRANTED)
  /\ (config.prob_tokens_250 conf = 0 ->
      fst (determine_outcome conf d) <> OUTCOME_TOKENS_250)
  /\ (config.prob_tokens_500 conf = 0 ->
      fst (determine_outcome conf d) <> OUTCOME_TOKENS_500)
  /\ (config.prob_tokens_1000 conf = 0 ->
      fst (determine_outcome conf d) <> OUTCOME_TOKENS_1000)
  /\ (config.prob_free_spin conf = 0 ->
      fst (determine_outcome conf d) <> OUTCOME_FREE_SPIN).
Proof.
  intros Hd. unfold determine_outcome, outcome_table.
  split; [split_walk; simpl; tauto |].
  split.
  { intros ->. replace (wrap32 (0 + 0)) with 0 by reflexivity.
    destruct (Z.ltb_spec d 0); [lia |]. split_walk; cbn; discriminate. }
  repeat split; intros ->; rewrite wrap32_plus_0; split_walk; cbn; discriminate.
Qed.

Lemma outcome_table_and_disabled_buckets_witness :
  In (determine_outcome scenario_config 4500) outcome_table
  /\ fst (determine_outcome
            (config.mk the_admin arcade_token ARCADE 0 false 2000 0 800 200 1000)
            2500) <> OUTCOME_TOKENS_250.
Proof.
  split.
  - apply (outcome_table_and_disabled_buckets scenario_config 4500). lia.
  - apply (outcome_table_and_disabled_buckets
             (config.mk the_admin arcade_token ARCADE 0 false 2000 0 800 200 1000)
             2500); [lia | reflexivity].
Defined.

(** ** Treasury bookkeeping *)

Lemma wrap64_idem (x : Z) : wrap64 (wrap64 x) = wrap64 x.
Proof. unfold wrap64. apply Z.mod_mod. lia. Qed.

Lemma wrap64_minus_i64 (a x : Z) : wrap64 (a - to_i64 x) = wrap64 (a - x).
Proof.
  unfold to_i64, wrap64. destruct (x <? 2 ^ 63); [reflexivity |].
  replace (a - (x - 2 ^ 64)) with (a - x + 1 * 2 ^ 64) by lia.
  apply Z.mod_add. lia.
Qed.

Lemma reveal_payout_balance (e : Env) (conf conf' : config.t) (p : name) (tw : Z)
    (sent : list inline_transfer) :
  reveal_payout e conf p tw = Ok (conf', sent) ->
  wrap64 (config.treasury_balance conf')
  = wrap64 (config.treasury_balance conf - paid_out sent)
  /\ Forall (fun tr => tr_from tr = self e /\ tr_to tr = p
                       /\ tr_contract tr = config.arcade_contract conf
                       /\ amount (tr_quantity tr) = to_i64 tw) sent
  /\ (sent = [] <-> tw <= 0).
Proof.
  unfold reveal_payout. destruct (Z.ltb_spec 0 tw) as [Hpos|Hnp].
  - intros H. ok_steps H. injection H as <- <-.
    unfold asset_new in Hx. ok_steps Hx. injection Hx as <-.
    cbn [paid_out fold_right tr_quantity amount config.treasury_balance
         config.set_treasury_balance].
    rewrite wrap64_idem, Z.add_0_r, wrap64_minus_i64.
    split; [reflexivity |]. split; [by repeat constructor |].
    split; [discriminate | lia].
  - intros [= <- <-]. cbn [paid_out fold_right]. rewrite Z.sub_0_r.
    split; [reflexivity |]. split; [constructor | tauto].
Qed.

(** X6. The tracked treasury balance moves only with money: after any
    successful action it equals, modulo [2^64], the old balance plus the
    funding booked by the action minus the total of the inline transfers the
    action sent, and every such transfer is sent from the contract account. *)
Theorem treasury_moves_with_transfers (e : Env) (s s' : State) (a : Action)
    (sent : list inline_transfer) :
  run e s a = Ok (s', sent) ->
  wrap64 (tracked_balance s')
  = wrap64 (tracked_balance s + deposit e s a - paid_out sent)
  /\ Forall (fun tr => tr_from tr = self e) sent.
Proof.
  assert (Hsame : forall x, wrap64 x = wrap64 (x + 0 - paid_out [])).
  { intros x. cbn [paid_out fold_right]. f_equal. lia. }
  unfold tracked_balance. destruct a; cbn [run deposit]; intros H.
  - unfold setconfig in H. ok_steps H. injection H as <- <-. cbn [conf_table].
    split; [| constructor]. cbn [config.treasury_balance].
    destruct (conf_table s); apply Hsame.
  - unfold settoken in H. ok_steps H. injection H as <- <-. cbn [conf_table].
    split; [apply Hsame | constructor].
  - unfold setpause in H. ok_steps H. injection H as <- <-. cbn [conf_table].
    rewrite Hconf. split; [apply Hsame | constructor].
  - unfold commit in H. ok_steps H. injection H as <- <-. cbn [conf_table].
    split; [apply Hsame | constructor].
  - unfold reveal in H. ok_steps H.
    destruct (resolve_outcome _ _ _ _) as [rc tw]. ok_steps H.
    destruct x1 as [conf' snt]. injection H as <- <-. cbn [conf_table].
    rewrite Hconf. apply reveal_payout_balance in Hx1.
    destruct Hx1 as (Hbal & Hall & _). rewrite Hbal. split; [f_equal; lia |].
    eapply Forall_impl; [exact Hall |]. intros tr. cbn. tauto.
  - unfold on_transfer in H.
    destruct (negb (to =? self e) || (from =? self e));
      [injection H as <- <-; split; [apply Hsame | constructor] |].
    destruct (conf_table s) as [conf|] eqn:Hconf;
      [| injection H as <- <-; rewrite Hconf; split; [apply Hsame | constructor]].
    unfold is_treasury_funding.
    destruct (_ && _ && _).
    + injection H as <- <-. cbn [conf_table config.treasury_balance
                                 config.set_treasury_balance paid_out fold_right].
      rewrite wrap64_idem. split; [f_equal; lia | constructor].
    + destruct (negb _);
        [injection H as <- <-; rewrite Hconf; split; [apply Hsame | constructor] |].
      unfold on_transfer_purchase in H. ok_steps H. injection H as <- <-.
      cbn [conf_table]. rewrite Hconf. split; [apply Hsame | constructor].
  - unfold cleanup in H. ok_steps H.
    destruct (cleanup_loop _ _ _ _) as [c' u']. injection H as <- <-.
    cbn [conf_table]. split; [apply Hsame | constructor].
  - unfold withdraw in H. ok_steps H. injection H as <- <-. rewrite Hconf.
    cbn [conf_table config.treasury_balance config.set_treasury_balance
         paid_out fold_right tr_quantity].
    rewrite wrap64_idem. split; [f_equal; lia | by repeat constructor].
Qed.

Lemma treasury_moves_with_transfers_witness :
  exists s' sent,
    run env_reveal st_funded alice_reveal = Ok (s', sent)
    /\ tracked_balance st_funded = 100000000000
    /\ paid_out sent = 25000000000
    /\ wrap64 (tracked_balance s') = 75000000000.
Proof.
  destruct (run env_reveal st_funded alice_reveal) as [[s' sent]|] eqn:E;
    [| vm_compute in E; discriminate E].
  exists s', sent. split; [reflexivity |].
  assert (Hpaid : paid_out sent = 25000000000).
  { pose proof E as E'. vm_compute in E'. injection E' as _ <-. reflexivity. }
  split; [vm_compute; reflexivity |]. split; [exact Hpaid |].
  destruct (treasury_moves_with_transfers env_reveal st_funded s' alice_reveal sent E)
    as [Hbal _].
  rewrite Hbal, Hpaid. vm_compute. reflexivity.
Defined.

(** X7. Funding then withdrawing.  A transfer that takes the funding branch
    raises the tracked balance by its amount; the admin can then withdraw any
    amount up to the new balance, which sends one transfer of that amount
    and lowers the balance by it, while a larger amount aborts with
    "Insufficient treasury". *)
Theorem fund_then_withdraw (e1 e2 : Env) (s : State) (conf : config.t)
    (from to : name) (q : asset) (memo : string) (y : Z) :
  conf_table s = Some conf ->
  from <> self e1 ->
  is_treasury_funding e1 conf q memo = true ->
  0 <= config.treasury_balance conf ->
  0 <= amount q ->
  config.treasury_balance conf + amount q < 2 ^ 64 ->
  has_auth e2 (config.admin conf) = true ->
  0 <= y < 2 ^ 63 ->
  exists s1,
    on_transfer e1 s from (self e1) q memo = Ok (s1, [])
    /\ tracked_balance s1 = config.treasury_balance conf + amount q
    /\ (y <= config.treasury_balance conf + amount q ->
        exists s2,
          withdraw e2 s1 to (mk_asset y (config.arcade_symbol conf))
          = Ok (s2, [mk_transfer (config.arcade_contract conf) (self e2) to
                                 (mk_asset y (config.arcade_symbol conf))
                                 "Treasury withdrawal"])
          /\ tracked_balance s2 = config.treasury_balance conf + amount q - y)
    /\ (config.treasury_balance conf + amount q < y ->
        withdraw e2 s1 to (mk_asset y (config.arcade_symbol conf))
        = Abort "Insufficient treasury").
Proof.
  intros Hconf Hfrom Hfund Hb Hq Hsum Hauth Hy.
  assert (Hw : wrap64 (config.treasury_balance conf + amount q)
               = config.treasury_balance conf + amount q).
  { unfold wrap64. apply Z.mod_small. lia. }
  assert (Hwy : wrap64 y = y) by (unfold wrap64; apply Z.mod_small; lia).
  eexists. split.
  { unfold on_transfer. rewrite Z.eqb_refl, (proj2 (Z.eqb_neq _ _) Hfrom), Hconf.
    cbn [negb orb]. unfold is_treasury_funding in Hfund. rewrite Hfund. reflexivity. }
  split; [unfold tracked_balance; cbn; exact Hw |].
  unfold withdraw, get_config, require_auth.
  cbn [conf_table mbind result_bind config.admin config.set_treasury_balance
       config.arcade_symbol config.treasury_balance config.arcade_contract
       symbol amount].
  rewrite Hauth, Z.eqb_refl, Hw, Hwy. cbn [check mbind result_bind].
  split.
  - intros Hle. rewrite (proj2 (Z.leb_le _ _) Hle). cbn [check mbind result_bind].
    eexists. split; [reflexivity |]. unfold tracked_balance. cbn.
    unfold wrap64. apply Z.mod_small. lia.
  - intros Hgt. rewrite (proj2 (Z.leb_gt _ _) Hgt). reflexivity.
Qed.

Lemma fund_then_withdraw_witness :
  exists s1,
    on_transfer (env_at 2005 0 bob arcade_token) st_committed bob zoltaran
                (mk_asset 100000000000 ARCADE) "fund" = Ok (s1, [])
    /\ tracked_balance s1 = 100000000000
    /\ (exists s2,
          withdraw (env_at 2100 0 the_admin zoltaran) s1 alice
                   (mk_asset 40000000000 ARCADE)
          = Ok (s2, [mk_transfer arcade_token zoltaran alice
                                 (mk_asset 40000000000 ARCADE) "Treasury withdrawal"])
          /\ tracked_balance s2 = 60000000000)
    /\ withdraw (env_at 2100 0 the_admin zoltaran) s1 alice
                (mk_asset 100000000001 ARCADE) = Abort "Insufficient treasury".
Proof.
  pose proof (fun y Hy =>
    fund_then_withdraw (env_at 2005 0 bob arcade_token)
      (env_at 2100 0 the_admin zoltaran) st_committed scenario_config
      bob alice (mk_asset 100000000000 ARCADE) "fund" y
      ltac:(vm_compute; reflexivity) ltac:(vm_compute; discriminate)
      ltac:(vm_compute; reflexivity) ltac:(vm_compute; discriminate)
      ltac:(vm_compute; discriminate) ltac:(vm_compute; reflexivity)
      ltac:(vm_compute; reflexivity) Hy) as Hfw.
  change (self (env_at 2005 0 bob arcade_token)) with zoltaran in Hfw.
  destruct (Hfw 40000000000 ltac:(vm_compute; split; [discriminate | reflexivity]))
    as (s1 & Hfund & Hbal & Hok & _).
  destruct (Hfw 100000000001 ltac:(vm_compute; split; [discriminate | reflexivity]))
    as (s1' & Hfund' & _ & _ & Hfail).
  assert (s1' = s1) as -> by congruence.
  exists s1. split; [exact Hfund |]. split; [exact Hbal |].
  split; [apply Hok; vm_compute; discriminate | apply Hfail; vm_compute; reflexivity].
Defined.

(** ** Account rows *)

Lemma row_kept_refl (o : option user.t) : row_kept o o.
Proof. destruct o as [u|]; simpl; [repeat split; lia | exact I]. Qed.

Lemma row_kept_trans (o1 o2 o3 : option user.t) :
  row_kept o1 o2 -> row_kept o2 o3 -> row_kept o1 o3.
Proof.
  destruct o1 as [u1|], o2 as [u2|], o3 as [u3|]; simpl; try tauto.
  - intros (A1 & A2 & A3 & A4 & A5) (B1 & B2 & B3 & B4 & B5).
    repeat split; try congruence. lia.
  - intros (A1 & A2) (B1 & B2 & B3 & B4 & B5). split; congruence.
Qed.

Lemma commit_take_wish_row_kept (e : Env) (p : name) (w : Z)
    (us us' : gmap Z user.t) (q : name) :
  commit_take_wish e p w us = Ok us' -> row_kept (us !! q) (us' !! q).
Proof.
  unfold commit_take_wish. intros H.
  destruct (w =? WISH_TYPE_FREE); destruct (us !! p) as [u|] eqn:Hu;
    try discriminate; try (ok_steps H); injection H as <-;
    (destruct (decide (q = p)) as [->|Hne];
     [rewrite lookup_insert_eq, Hu | rewrite lookup_insert_ne by congruence;
                                     apply row_kept_refl]);
    simpl; repeat split; try reflexivity; lia.
Qed.

Lemma cleanup_loop_row_kept (budget : nat) (now : Z) (cs : list commit.t)
    (us : gmap Z user.t) (q : name) :
  row_kept (us !! q) ((cleanup_loop budget now cs us).2 !! q).
Proof.
  revert cs us. induction budget as [|b IH]; intros cs us; simpl;
    [apply row_kept_refl |].
  destruct (commits_table.index_begin commit.by_time cs) as [itr|];
    [| apply row_kept_refl].
  destruct (COMMIT_EXPIRY_SECONDS <? wrap32 (now - commit.timestamp itr));
    [| apply row_kept_refl].
  eapply row_kept_trans; [| apply IH].
  rewrite cleanup_refund_lookup.
  destruct (decide (q = commit.player itr)); [| apply row_kept_refl].
  unfold refund_row. destruct (commit.wish_type itr =? WISH_TYPE_PURCHASED);
    [| apply row_kept_refl].
  destruct (us !! q) as [u|]; simpl; [repeat split; lia | exact I].
Qed.

(** No action but [reveal] touches the statistics of an account or the
    leaderboard. *)
Lemma run_rows_kept (e : Env) (s s' : State) (a : Action)
    (sent : list inline_transfer) (q : name) :
  run e s a = Ok (s', sent) ->
  is_reveal a = false ->
  row_kept (users s !! q) (users s' !! q) /\ leaderboard s' = leaderboard s.
Proof.
  destruct a; cbn [run is_reveal]; intros H Hnr; try discriminate.
  - unfold setconfig in H. ok_steps H. injection H as <- <-.
    split; [apply row_kept_refl | reflexivity].
  - unfold settoken in H. ok_steps H. injection H as <- <-.
    split; [apply row_kept_refl | reflexivity].
  - unfold setpause in H. ok_steps H. injection H as <- <-.
    split; [apply row_kept_refl | reflexivity].
  - unfold commit in H. ok_steps H. injection H as <- <-. cbn [users leaderboard].
    split; [by eapply commit_take_wish_row_kept | reflexivity].
  - unfold on_transfer in H.
    destruct (negb (to =? self e) || (from =? self e));
      [injection H as <- <-; split; [apply row_kept_refl | reflexivity] |].
    destruct (conf_table s) as [conf|];
      [| injection H as <- <-; split; [apply row_kept_refl | reflexivity]].
    destruct (_ && _ && _);
      [injection H as <- <-; split; [apply row_kept_refl | reflexivity] |].
    destruct (negb _);
      [injection H as <- <-; split; [apply row_kept_refl | reflexivity] |].
    unfold on_transfer_purchase in H. ok_steps H. injection H as <- <-.
    cbn [users leaderboard]. split; [| reflexivity].
    destruct (users s !! from) as [ur|] eqn:Hu;
      (destruct (decide (q = from)) as [->|Hne];
       [rewrite lookup_insert_eq, Hu | rewrite lookup_insert_ne by congruence;
                                       apply row_kept_refl]);
      simpl; repeat split; try reflexivity; lia.
  - unfold cleanup in H. ok_steps H.
    destruct (cleanup_loop _ _ _ _) as [c' u'] eqn:Hloop. injection H as <- <-.
    cbn [users leaderboard]. split; [| reflexivity].
    change u' with (c', u').2. rewrite <- Hloop. apply cleanup_loop_row_kept.
  - unfold withdraw in H. ok_steps H. injection H as <- <-.
    split; [apply row_kept_refl | reflexivity].
Qed.

(** Everything a successful [reveal] writes. *)
Lemma reveal_effect (e : Env) (s s' : State) (p : name) (i : Z)
    (secret cid : string) (sent : list inline_transfer) (conf : config.t) :
  conf_table s = Some conf ->
  reveal e s p i secret cid = Ok (s', sent) ->
  let rc := (resolve_outcome secret (tapos_block_prefix e) p conf).1 in
  let tw := (resolve_outcome secret (tapos_block_prefix e) p conf).2 in
  users s' = reveal_update_user p rc tw (users s)
  /\ leaderboard s'
     = (if (rc =? OUTCOME_WISH_GRANTED) || (0 <? tw)
        then update_leaderboard p (if rc =? OUTCOME_WISH_GRANTED then 1 else 0) tw
               (leaderboard s)
        else leaderboard s)
  /\ history s'
     = history s ++ [gameresult.mk (globals.next_result_id (get_globals s)) p rc tw
                                   cid (sec_since_epoch e)]
  /\ gamehistory_table.find (globals.next_result_id (get_globals s)) (history s) = None
  /\ tokens s' = tokens s
  /\ reveal_payout e conf p tw = Ok (default conf (conf_table s'), sent).
Proof.
  intros Hconf H. unfold reveal in H. ok_steps H.
  rewrite Hconf in Hconf0. injection Hconf0 as <-.
  destruct (resolve_outcome _ _ _ _) as [rc tw]. ok_steps H.
  destruct x1 as [conf' snt]. injection H as <- <-.
  unfold gamehistory_table.emplace in Hx0. cbn [gameresult.id] in Hx0.
  destruct (gamehistory_table.find _ _) eqn:Hfresh; [discriminate |].
  injection Hx0 as <-. cbn. auto 10.
Qed.

Lemma reveal_update_user_row (p : name) (rc tw : Z) (us : gmap Z user.t)
    (q : name) (u : user.t) :
  us !! q = Some u ->
  exists u', reveal_update_user p rc tw us !! q = Some u'
             /\ user.account u' = user.account u
             /\ user.last_free_day u' = user.last_free_day u.
Proof.
  intros Hq. unfold reveal_update_user.
  destruct (decide (q = p)) as [->|Hne].
  - rewrite Hq, lookup_insert_eq. eexists. split; [reflexivity |]. simpl. auto.
  - destruct (us !! p); rewrite lookup_insert_ne by congruence; eauto.
Qed.

(** One action: an account row stays, with its identity, and its free-wish
    day does not go back. *)
Lemma run_row_persists (e : Env) (s s' : State) (a : Action)
    (sent : list inline_transfer) (q : name) (u : user.t) :
  run e s a = Ok (s', sent) ->
  users s !! q = Some u ->
  exists u', users s' !! q = Some u'
             /\ user.account u' = user.account u
             /\ user.last_free_day u <= user.last_free_day u'.
Proof.
  intros Hrun Hq. destruct (is_reveal a) eqn:Hr.
  - destruct a; try discriminate. cbn [run] in Hrun.
    destruct (reveal_Ok_inv _ _ _ _ _ _ _ _ Hrun) as (conf & c & _ & Hconf & _).
    destruct (reveal_effect _ _ _ _ _ _ _ _ _ Hconf Hrun) as (Hus & _).
    rewrite Hus.
    destruct (reveal_update_user_row player
                (resolve_outcome client_secret (tapos_block_prefix e) player conf).1
                (resolve_outcome client_secret (tapos_block_prefix e) player conf).2
                (users s) q u Hq) as (u' & Hu' & Hacc & Hday).
    exists u'. split; [exact Hu' |]. split; [exact Hacc | lia].
  - destruct (run_rows_kept _ _ _ _ _ q Hrun Hr) as [Hkept _].
    rewrite Hq in Hkept. destruct (users s' !! q) as [u'|]; [| destruct Hkept].
    exists u'. simpl in Hkept. tauto.
Qed.

Lemma evolves_row_persists (s s' : State) (q : name) (u : user.t) :
  evolves s s' ->
  users s !! q = Some u ->
  exists u', users s' !! q = Some u'
             /\ user.account u' = user.account u
             /\ user.last_free_day u <= user.last_free_day u'.
Proof.
  induction 1 as [s|s s1 s2 e a sent Hev IH Hrun]; intros Hq.
  - exists u. split; [exact Hq |]. split; [reflexivity | lia].
  - destruct (IH Hq) as (u1 & Hu1 & Hacc1 & Hday1).
    destruct (run_row_persists _ _ _ _ _ _ _ Hrun Hu1) as (u2 & Hu2 & Hacc2 & Hday2).
    exists u2. split; [exact Hu2 |]. split; [congruence | lia].
Qed.

(** X8. Account rows are never deleted: whatever actions follow, a player
    who has a row keeps a row for the same account. *)
Theorem accounts_never_deleted (s s' : State) (q : name) (u : user.t) :
  evolves s s' ->
  users s !! q = Some u ->
  exists u', users s' !! q = Some u' /\ user.account u' = user.account u.
Proof.
  intros Hev Hq. destruct (evolves_row_persists s s' q u Hev Hq) as (u' & Hu' & Ha & _).
  eauto.
Qed.

Lemma committed_evolves_revealed : evolves st_committed st_revealed.
Proof.
  apply (evolves_step st_committed st_committed st_revealed env_reveal alice_reveal
           [mk_transfer arcade_token zoltaran alice (mk_asset 25000000000 ARCADE)
                        "Zoltaran Speaks winnings!"]).
  - apply evolves_refl.
  - vm_compute. reflexivity.
Qed.

Lemma accounts_never_deleted_witness :
  exists u', users st_revealed !! alice = Some u' /\ user.account u' = alice.
Proof.
  apply (accounts_never_deleted st_committed st_revealed alice
           (user.mk alice 0 0 0 0 0) committed_evolves_revealed).
  vm_compute. reflexivity.
Defined.

Lemma commit_free_sets_day (e : Env) (s s' : State) (p : name) (h : checksum256)
    (sent : list inline_transfer) :
  commit e s p h WISH_TYPE_FREE = Ok (s', sent) ->
  exists u, users s' !! p = Some u /\ user.last_free_day u = current_day_number e.
Proof.
  unfold commit. intros H. ok_steps H. injection H as <- <-. cbn [users].
  unfold commit_take_wish in Hx. rewrite Z.eqb_refl in Hx.
  destruct (users s !! p) as [ur|]; try (ok_steps Hx); injection Hx as <-;
    rewrite lookup_insert_eq; eexists; split; reflexivity.
Qed.

(** X9. One free wish per day.  After a player's successful free commit,
    whatever actions follow (reveals, purchases, sweeps, ...), every further
    free commit of that player on the same or an earlier day aborts. *)
Theorem free_wish_once_per_day (e0 e2 : Env) (s0 s1 s2 : State) (p : name)
    (h0 h2 : checksum256) (sent0 : list inline_transfer) :
  commit e0 s0 p h0 WISH_TYPE_FREE = Ok (s1, sent0) ->
  evolves s1 s2 ->
  current_day_number e2 <= current_day_number e0 ->
  exists msg, commit e2 s2 p h2 WISH_TYPE_FREE = Abort msg.
Proof.
  intros Hc Hev Hday.
  destruct (commit_free_sets_day _ _ _ _ _ _ Hc) as (u1 & Hu1 & Hd1).
  destruct (evolves_row_persists _ _ _ _ Hev Hu1) as (u2 & Hu2 & _ & Hd2).
  destruct (commit e2 s2 p h2 WISH_TYPE_FREE) as [[s3 sent2]|msg] eqn:E; [| eauto].
  unfold commit in E. ok_steps E.
  unfold commit_take_wish in Hx. rewrite Z.eqb_refl, Hu2 in Hx. ok_steps Hx.
  lia.
Qed.

Lemma free_wish_once_per_day_witness :
  live_commits alice st_revealed = []
  /\ exists msg, commit (env_at 3000 0 alice zoltaran) st_revealed alice
                        (sha256 "anotherQmWish") WISH_TYPE_FREE = Abort msg.
Proof.
  split; [vm_compute; reflexivity |].
  apply (free_wish_once_per_day (env_at 2000 0 alice zoltaran)
           (env_at 3000 0 alice zoltaran) st_configured st_committed st_revealed
           alice (sha256 "secret2QmWish") (sha256 "anotherQmWish") []).
  - vm_compute. reflexivity.
  - exact committed_evolves_revealed.
  - vm_compute. discriminate.
Defined.

(** The purchased path of [commit]. *)
Lemma commit_purchased_effect (e : Env) (s s' : State) (p : name)
    (h : checksum256) (w : Z) (sent : list inline_transfer) :
  w <> WISH_TYPE_FREE ->
  commit e s p h w = Ok (s', sent) ->
  exists u,
    users s !! p = Some u
    /\ 0 < user.purchased_wishes u
    /\ users s' !! p
       = Some (user.set_purchased_wishes u (wrap32 (user.purchased_wishes u - 1)))
    /\ (user.purchased_wishes u <= UINT32_MAX ->
        wrap32 (user.purchased_wishes u - 1) = user.purchased_wishes u - 1)
    /\ (forall q, q <> p -> users s' !! q = users s !! q)
    /\ exists c, commits s' = commits s ++ [c]
                 /\ commit.player c = p /\ commit.wish_type c = w.
Proof.
  intros Hw H. unfold commit in H. ok_steps H.
  unfold commit_take_wish in Hx. rewrite (proj2 (Z.eqb_neq _ _) Hw) in Hx.
  destruct (users s !! p) as [ur|] eqn:Hu; [| discriminate]. ok_steps Hx.
  injection Hx as <-. apply Z.ltb_lt in Hc1.
  unfold commits_table.emplace in Hx0.
  destruct (commits_table.find _ _); [discriminate |]. injection Hx0 as <-.
  injection H as <- <-. cbn [users commits].
  exists ur. split; [reflexivity |]. split; [exact Hc1 |].
  split; [apply lookup_insert_eq |].
  split; [intros Hmax; unfold wrap32, UINT32_MAX in *; apply Z.mod_small; lia |].
  split; [intros q Hq; by rewrite lookup_insert_ne |].
  eexists. split; [reflexivity |]. split; reflexivity.
Qed.

(** X10. A commit with any wish type other than 0 takes the purchased path:
    it needs an account with at least one purchased wish and takes exactly
    one (in [uint32_t]), leaving every other account as it was; the new
    commitment carries the wish type as given. *)
Theorem commit_purchased_consumes_credit (e : Env) (s s' : State) (p : name)
    (h : checksum256) (w : Z) (sent : list inline_transfer) :
  w <> WISH_TYPE_FREE ->
  commit e s p h w = Ok (s', sent) ->
  exists u,
    users s !! p = Some u
    /\ 0 < user.purchased_wishes u
    /\ users s' !! p
       = Some (user.set_purchased_wishes u (wrap32 (user.purchased_wishes u - 1)))
    /\ (user.purchased_wishes u <= UINT32_MAX ->
        wrap32 (user.purchased_wishes u - 1) = user.purchased_wishes u - 1)
    /\ (forall q, q <> p -> users s' !! q = users s !! q)
    /\ exists c, commits s' = commits s ++ [c]
                 /\ commit.player c = p /\ commit.wish_type c = w.
Proof.
  intros Hw H. unfold commit in H. ok_steps H.
  unfold commit_take_wish in Hx. rewrite (proj2 (Z.eqb_neq _ _) Hw) in Hx.
  destruct (users s !! p) as [ur|] eqn:Hu; [| discriminate]. ok_steps Hx.
  injection Hx as <-. apply Z.ltb_lt in Hc1.
  unfold commits_table.emplace in Hx0.
  destruct (commits_table.find _ _); [discriminate |]. injection Hx0 as <-.
  injection H as <- <-. cbn [users commits].
  exists ur. split; [reflexivity |]. split; [exact Hc1 |].
  split; [apply lookup_insert_eq |].
  split; [intros Hmax; unfold wrap32, UINT32_MAX in *; apply Z.mod_small; lia |].
  split; [intros q Hq; by rewrite lookup_insert_ne |].
  eexists. split; [reflexivity |]. split; reflexivity.
Qed.

Lemma commit_purchased_consumes_credit_witness :
  (user.purchased_wishes <$> users st_bought !! bob) = Some 5
  /\ (user.purchased_wishes <$> users st_bob_committed !! bob) = Some 4.
Proof.
  split; [vm_compute; reflexivity |].
  destruct (commit (env_at 1300 0 bob zoltaran) st_bought bob
              (sha256 "bobsecretQmBob") WISH_TYPE_PURCHASED)
    as [[s' sent]|] eqn:E; [| vm_compute in E; discriminate E].
  assert (Hs : st_bob_committed = s').
  { unfold st_bob_committed, apply. cbn [run]. by rewrite E. }
  destruct (commit_purchased_consumes_credit (env_at 1300 0 bob zoltaran) st_bought
              s' bob (sha256 "bobsecretQmBob") WISH_TYPE_PURCHASED sent
              ltac:(vm_compute; discriminate) E) as (u & Hu & _ & Hu' & _).
  rewrite Hs, Hu'. assert (u = user.mk bob 5 0 0 0 0) as ->.
  { assert (Hb : users st_bought !! bob = Some (user.mk bob 5 0 0 0 0))
      by (vm_compute; reflexivity).
    congruence. }
  vm_compute. reflexivity.
Defined.

Lemma st_bought_reachable : reachable 1200 st_bought.
Proof.
  apply (reachable_step 1100 st_token (env_at 1200 0 bob arcade_token)
           (Aon_transfer bob zoltaran (mk_asset 500 ARCADE) "WISHES:5") st_bought []);
    [| simpl; lia | vm_compute; reflexivity].
  apply (reachable_step 1000 st_configured (env_at 1100 0 the_admin zoltaran)
           (Asettoken ARCADE arcade_token 100 0 true) st_token []);
    [| simpl; lia | vm_compute; reflexivity].
  exact st_configured_reachable.
Qed.

(** X11. A wish type other than 0 and 1 loses the credit on expiry: from a
    reachable storage, a commit with such a type takes a purchased wish, and
    when a later [cleanup] sweeps that commitment no credit comes back: the
    player is left with one wish fewer than before the commit. *)
Theorem untagged_purchase_not_refunded (t : Z) (s0 s1 s2 : State) (e0 e1 : Env)
    (p : name) (h : checksum256) (w n : Z) (sent0 sent1 : list inline_transfer) :
  reachable t s0 ->
  t <= sec_since_epoch e0 < 2 ^ 32 ->
  w <> WISH_TYPE_FREE ->
  w <> WISH_TYPE_PURCHASED ->
  commit e0 s0 p h w = Ok (s1, sent0) ->
  cleanup e1 s1 n = Ok (s2, sent1) ->
  live_commits p s2 = [] ->
  exists u,
    users s0 !! p = Some u
    /\ users s2 !! p
       = Some (user.set_purchased_wishes u (wrap32 (user.purchased_wishes u - 1))).
Proof.
  intros Hreach Ht Hw0 Hw1 Hcommit Hclean Hgone.
  assert (Hr1 : reachable (sec_since_epoch e0) s1)
    by (eapply (reachable_step t s0 e0 (Acommit p h w)); eauto).
  destruct (reachable_sweep_inv _ _ Hr1) as (_ & Hid & Hpl & _).
  destruct (commit_purchased_effect _ _ _ _ _ _ _ Hw0 Hcommit)
    as (u & Hu & _ & Hu1 & _ & _ & c & Hcs & Hcp & Hcw).
  exists u. split; [exact Hu |]. rewrite <- Hu1.
  destruct (cleanup_result _ _ _ _ _ Hclean) as (Hcs2 & Hus2 & _).
  assert (Hin : In c (commits s1)) by (rewrite Hcs; apply in_or_app; simpl; auto).
  assert (Hout : ~ In c (commits s2)).
  { intros Hc2. unfold live_commits in Hgone.
    assert (Hf : In c (List.filter (fun c => commit.player c =? p) (commits s2))).
    { apply filter_In. split; [exact Hc2 | by apply Z.eqb_eq]. }
    rewrite Hgone in Hf. destruct Hf. }
  destruct (cleanup_loop_users (sec_since_epoch e1) (Z.to_nat n) (commits s1)
              (users s1) p Hid Hpl) as [(c0 & Hrem0 & Hp0 & Hrow)|[Hnone _]].
  - rewrite Hus2, Hrow.
    assert (c0 = c) as ->.
    { apply (NoDup_map_inj commit.player (commits s1)); auto.
      - exact (proj1 Hrem0).
      - congruence. }
    unfold refund_row. rewrite Hcw, (proj2 (Z.eqb_neq _ _) Hw1). reflexivity.
  - exfalso. apply (Hnone c); [| exact Hcp]. split; [exact Hin | by rewrite <- Hcs2].
Qed.

Lemma untagged_purchase_not_refunded_witness :
  (user.purchased_wishes <$> users st_bought !! bob) = Some 5
  /\ exists s2,
       cleanup (env_at 5000 0 alice zoltaran) st_bob_tag2 10 = Ok (s2, [])
       /\ commits s2 = []
       /\ (user.purchased_wishes <$> users s2 !! bob) = Some 4.
Proof.
  split; [vm_compute; reflexivity |].
  destruct (commit (env_at 1300 0 bob zoltaran) st_bought bob
              (sha256 "bobsecretQmBob") 2) as [[s1 sent0]|] eqn:E0;
    [| vm_compute in E0; discriminate E0].
  assert (Hs1 : st_bob_tag2 = s1).
  { unfold st_bob_tag2, apply. cbn [run]. by rewrite E0. }
  destruct (cleanup (env_at 5000 0 alice zoltaran) st_bob_tag2 10)
    as [[s2 sent1]|] eqn:E1; [| vm_compute in E1; discriminate E1].
  pose proof E1 as E1'. vm_compute in E1'. injection E1' as Hs2 <-.
  assert (Hcs : commits s2 = []) by (rewrite <- Hs2; reflexivity).
  exists s2. split; [reflexivity |]. split; [exact Hcs |].
  rewrite Hs1 in E1.
  destruct (untagged_purchase_not_refunded 1200 st_bought s1 s2
              (env_at 1300 0 bob zoltaran) (env_at 5000 0 alice zoltaran) bob
              (sha256 "bobsecretQmBob") 2 10 sent0 [] st_bought_reachable
              ltac:(simpl; lia) ltac:(vm_compute; discriminate)
              ltac:(vm_compute; discriminate) E0 E1
              ltac:(unfold live_commits; rewrite Hcs; reflexivity))
    as (u & Hu & Hu2).
  rewrite Hu2. assert (u = user.mk bob 5 0 0 0 0) as ->.
  { assert (Hb : users st_bought !! bob = Some (user.mk bob 5 0 0 0 0))
      by (vm_compute; reflexivity).
    congruence. }
  vm_compute. reflexivity.
Defined.

(** ** Game history *)

Lemma history_find_None_fresh (k : Z) (rows : list gameresult.t) :
  gamehistory_table.find k rows = None -> ~ In k (map gameresult.id rows).
Proof.
  unfold gamehistory_table.find. intros Hnone Hin. apply in_map_iff in Hin.
  destruct Hin as (g & Hk & Hg).
  apply (find_none _ _ Hnone) in Hg. apply Z.eqb_neq in Hg. contradiction.
Qed.

(** One action leaves the history alone or, for a [reveal], appends one
    record with a fresh id, for the revealing player. *)
Lemma run_history (e : Env) (s s' : State) (a : Action) (sent : list inline_transfer) :
  run e s a = Ok (s', sent) ->
  (is_reveal a = false /\ history s' = history s)
  \/ (exists g, is_reveal a = true
                /\ history s' = history s ++ [g]
                /\ ~ In (gameresult.id g) (map gameresult.id (history s))
                /\ gameresult.timestamp g = sec_since_epoch e).
Proof.
  destruct a; cbn [run is_reveal]; intros H.
  - left. unfold setconfig in H. ok_steps H. by injection H as <- <-.
  - left. unfold settoken in H. ok_steps H. by injection H as <- <-.
  - left. unfold setpause in H. ok_steps H. by injection H as <- <-.
  - left. unfold commit in H. ok_steps H. by injection H as <- <-.
  - right.
    destruct (reveal_Ok_inv _ _ _ _ _ _ _ _ H) as (conf & c & _ & Hconf & _).
    destruct (reveal_effect _ _ _ _ _ _ _ _ _ Hconf H) as (_ & _ & Hh & Hfresh & _).
    eexists. split; [reflexivity |]. split; [exact Hh |].
    split; [by apply history_find_None_fresh | reflexivity].
  - left. unfold on_transfer in H.
    destruct (negb (to =? self e) || (from =? self e)); [by injection H as <- <- |].
    destruct (conf_table s) as [conf|]; [| by injection H as <- <-].
    destruct (_ && _ && _); [by injection H as <- <- |].
    destruct (negb _); [by injection H as <- <- |].
    unfold on_transfer_purchase in H. ok_steps H. by injection H as <- <-.
  - left. unfold cleanup in H. ok_steps H.
    destruct (cleanup_loop _ _ _ _) as [c' u']. by injection H as <- <-.
  - left. unfold withdraw in H. ok_steps H. by injection H as <- <-.
Qed.

(** X12. The game history is append-only: whatever actions are carried out,
    the records already written stay, unchanged and in place, as a prefix of
    the later history; only [reveal] adds records, one per call, and the
    record ids stay pairwise distinct. *)
Theorem history_append_only (s s' : State) :
  evolves s s' ->
  List.NoDup (map gameresult.id (history s)) ->
  (exists suffix, history s' = history s ++ suffix)
  /\ List.NoDup (map gameresult.id (history s')).
Proof.
  induction 1 as [s|s s1 s2 e a sent Hev IH Hrun]; intros Hnd.
  - split; [exists []; by rewrite app_nil_r | exact Hnd].
  - destruct (IH Hnd) as [[suffix Hsuf] Hnd1].
    destruct (run_history _ _ _ _ _ Hrun) as [[_ Hsame]|(g & _ & Happ & Hfresh & _)].
    + rewrite Hsame. split; [eauto | exact Hnd1].
    + rewrite Happ. split.
      * exists (suffix ++ [g]). by rewrite Hsuf, <- app_assoc.
      * by apply NoDup_map_snoc.
Qed.

Lemma history_append_only_witness :
  history st_committed = []
  /\ (exists suffix, history st_revealed = history st_committed ++ suffix)
  /\ map gameresult.id (history st_revealed) = [1].
Proof.
  split; [reflexivity |].
  split; [| vm_compute; reflexivity].
  apply (history_append_only st_committed st_revealed committed_evolves_revealed).
  constructor.
Defined.

(** ** Leaderboard *)

Lemma determine_outcome_in_table (conf : config.t) (d : Z) :
  In (determine_outcome conf d) outcome_table.
Proof. unfold determine_outcome, outcome_table. split_walk; simpl; tauto. Qed.

Ltac wrap_arith :=
  unfold wrap32, wrap64 in *;
  repeat match goal with
         | |- _ /\ _ => split
         end;
  try reflexivity; try congruence;
  try (apply Z.mod_pos_bound; lia);
  try (rewrite ?Z.add_0_r; rewrite ?Z.mod_small by lia; lia);
  try (f_equal; lia).

(** The account and leaderboard writes of [reveal] keep the two rows of
    every player in agreement. *)
Lemma reveal_rows_agree (p : name) (rc tw : Z) (us : gmap Z user.t)
    (lb : gmap Z leader.t) (q : name) :
  In (rc, tw) outcome_table ->
  rows_agree q (us !! q) (lb !! q) ->
  rows_agree q (reveal_update_user p rc tw us !! q)
    ((if (rc =? OUTCOME_WISH_GRANTED) || (0 <? tw)
      then update_leaderboard p (if rc =? OUTCOME_WISH_GRANTED then 1 else 0) tw lb
      else lb) !! q).
Proof.
  unfold rows_agree. intros Hin Hagree.
  destruct (decide (q = p)) as [->|Hne].
  - unfold reveal_update_user, update_leaderboard.
    destruct (us !! p) as [u|] eqn:Hu, (lb !! p) as [l|] eqn:Hl; try contradiction;
      unfold outcome_table in Hin; simpl in Hin;
      destruct Hin as [E|[E|[E|[E|[E|[E|[]]]]]]]; injection E as <- <-;
      cbn -[wrap32 wrap64 Z.add];
      rewrite ?lookup_insert_eq, ?Hl; cbn -[wrap32 wrap64 Z.add Z.pow].
    all: try (destruct Hagree as (A1 & A2 & A3 & A4 & A5)).
    all: try (destruct Hagree as (A1 & A2)).
    all: wrap_arith.
    all: rewrite ?A2; vm_compute; first [reflexivity | discriminate].
  - assert (Hus : reveal_update_user p rc tw us !! q = us !! q).
    { unfold reveal_update_user. destruct (us !! p);
        by rewrite lookup_insert_ne by congruence. }
    assert (Hlb : (if (rc =? OUTCOME_WISH_GRANTED) || (0 <? tw)
                   then update_leaderboard p
                          (if rc =? OUTCOME_WISH_GRANTED then 1 else 0) tw lb
                   else lb) !! q = lb !! q).
    { destruct ((rc =? OUTCOME_WISH_GRANTED) || (0 <? tw)); [| reflexivity].
      unfold update_leaderboard. destruct (lb !! p);
        by rewrite lookup_insert_ne by congruence. }
    rewrite Hus, Hlb. exact Hagree.
Qed.

Lemma rows_agree_kept (q : name) (o o' : option user.t) (l : option leader.t) :
  rows_agree q o l -> row_kept o o' -> rows_agree q o' l.
Proof.
  unfold rows_agree, row_kept.
  destruct o as [u|], o' as [u'|], l as [lr|]; try tauto.
  - intros (A1 & A2 & A3 & A4 & A5) (B1 & B2 & B3 & B4 & B5).
    rewrite B3, B4. auto.
  - intros (A1 & A2) (B1 & B2 & B3 & B4 & B5). split; congruence.
Qed.

Lemma run_stats_agree (e : Env) (s s' : State) (a : Action)
    (sent : list inline_transfer) :
  (forall q, stats_agree s q) ->
  run e s a = Ok (s', sent) ->
  forall q, stats_agree s' q.
Proof.
  intros Hagree Hrun q. unfold stats_agree in *.
  destruct (is_reveal a) eqn:Hr.
  - destruct a; try discriminate. cbn [run] in Hrun.
    destruct (reveal_Ok_inv _ _ _ _ _ _ _ _ Hrun) as (conf & c & _ & Hconf & _).
    destruct (reveal_effect _ _ _ _ _ _ _ _ _ Hconf Hrun) as (Hus & Hlb & _).
    rewrite Hus, Hlb. apply reveal_rows_agree; [| apply Hagree].
    unfold resolve_outcome.
    destruct (determine_outcome conf _) as [rc tw] eqn:Hd. cbn [fst snd].
    rewrite <- Hd. apply determine_outcome_in_table.
  - destruct (run_rows_kept _ _ _ _ _ q Hrun Hr) as [Hkept Hlb].
    rewrite Hlb. eapply rows_agree_kept; [apply Hagree | exact Hkept].
Qed.

(** X13. The leaderboard mirrors the accounts.  In every reachable storage a
    player with a leaderboard row has an account row with the same number of
    wins and the same total of tokens won, and a player without a
    leaderboard row has an account, if any, with no win and no tokens won. *)
Theorem leaderboard_mirrors_accounts (t : Z) (s : State) (p : name) :
  reachable t s ->
  stats_agree s p
  /\ (forall l, leaderboard s !! p = Some l ->
        exists u, users s !! p = Some u
                  /\ leader.player l = p
                  /\ leader.wins l = user.total_wins u
                  /\ leader.tokens_won l = user.tokens_won u)
  /\ (forall u, leaderboard s !! p = None -> users s !! p = Some u ->
        user.total_wins u = 0 /\ user.tokens_won u = 0).
Proof.
  intros Hreach.
  assert (Hall : forall q, stats_agree s q).
  { induction Hreach as [|t s e a s' sent Hr IH Ht Hrun].
    - intros q. unfold stats_agree, rows_agree. cbn. by rewrite !lookup_empty.
    - by eapply run_stats_agree. }
  pose proof (Hall p) as Hp. split; [exact Hp |].
  unfold stats_agree, rows_agree in Hp. split.
  - intros l Hl. rewrite Hl in Hp. destruct (users s !! p) as [u|]; [| destruct Hp].
    exists u. tauto.
  - intros u Hl Hu. rewrite Hl, Hu in Hp. exact Hp.
Qed.

Lemma st_revealed_reachable : reachable 2010 st_revealed.
Proof.
  apply (reachable_step 2000 st_committed env_reveal alice_reveal st_revealed
           [mk_transfer arcade_token zoltaran alice (mk_asset 25000000000 ARCADE)
                        "Zoltaran Speaks winnings!"]).
  - exact st_committed_reachable.
  - simpl. lia.
  - vm_compute. reflexivity.
Qed.

Lemma leaderboard_mirrors_accounts_witness :
  exists u, users st_revealed !! alice = Some u
            /\ leader.tokens_won (leader.mk alice 0 25000000000) = user.tokens_won u.
Proof.
  destruct (leaderboard_mirrors_accounts 2010 st_revealed alice st_revealed_reachable)
    as (_ & Hrow & _).
  destruct (Hrow (leader.mk alice 0 25000000000) ltac:(vm_compute; reflexivity))
    as (u & Hu & _ & _ & Htok).
  exists u. split; [exact Hu | exact Htok].
Defined.

(** ** Purchases *)

(** The way into the purchase branch of [on_transfer]. *)
Lemma on_transfer_to_purchase (e : Env) (s : State) (from to : name) (q : asset)
    (memo : string) (conf : config.t) :
  to = self e ->
  from <> self e ->
  conf_table s = Some conf ->
  is_treasury_funding e conf q memo = false ->
  has_purchase_prefix memo = true ->
  on_transfer e s from to q memo = on_transfer_purchase e s from q memo.
Proof.
  intros Hto Hfrom Hconf Hfund Hpre. unfold on_transfer.
  rewrite (proj2 (Z.eqb_eq _ _) Hto), (proj2 (Z.eqb_neq _ _) Hfrom), Hconf.
  unfold is_treasury_funding in Hfund. rewrite Hfund. cbn [negb orb].
  unfold has_purchase_prefix in Hpre. by rewrite Hpre.
Qed.

(** What a successful purchase has checked and written. *)
Lemma on_transfer_purchase_inv (e : Env) (s s' : State) (from : name) (q : asset)
    (memo : string) (sent : list inline_transfer) :
  on_transfer_purchase e s from q memo = Ok (s', sent) ->
  exists v tok,
    stoul (string_drop 7 memo) = Ok v
    /\ 0 < wrap32 v <= 1000
    /\ tokens s !! symbol_code_raw (symbol q) = Some tok
    /\ tokenconfig.enabled tok = true
    /\ tokenconfig.contract tok = first_receiver e
    /\ wrap64 (tokenconfig.price_per_wish tok * wrap32 v) <= wrap64 (amount q)
    /\ sent = []
    /\ s' = mk_state (conf_table s) (tokens s)
              (let total :=
                 wrap32 (wrap32 v
                         + wrap32 (wrap32 v * tokenconfig.bonus_bps tok) / 10000) in
               match users s !! from with
               | None => <[from := user.mk from total 0 0 0 0]> (users s)
               | Some u =>
                   <[from := user.set_purchased_wishes u
                               (wrap32 (user.purchased_wishes u + total))]> (users s)
               end)
              (commits s) (history s) (leaderboard s) (glob_table s).
Proof.
  unfold on_transfer_purchase. intros H. ok_steps H. injection H as <- <-.
  destruct (stoul (string_drop 7 memo)) as [v|]; [| discriminate].
  injection Hx as <-.
  destruct (tokens s !! symbol_code_raw (symbol q)) as [tok|]; [| discriminate].
  injection Hx0 as <-.
  exists v, tok. apply andb_true_iff in Hc. destruct Hc as [Hlo Hhi].
  apply Z.ltb_lt in Hlo. apply Z.leb_le in Hhi. apply Z.eqb_eq in Hc1.
  apply Z.leb_le in Hc2. auto 12.
Qed.

Lemma credited_no_wrap (n bps : Z) :
  1 <= n <= 1000 -> 0 <= bps < 2 ^ 16 ->
  wrap32 (n + wrap32 (n * bps) / 10000) = credited_wishes n bps.
Proof.
  intros Hn Hb. unfold credited_wishes, wrap32.
  assert (Hprod : 0 <= n * bps < 2 ^ 32) by nia.
  rewrite (Z.mod_small (n * bps)) by exact Hprod.
  assert (Hq : 0 <= n * bps / 10000 <= n * bps).
  { split; [apply Z.div_pos; lia |]. apply Z.div_le_upper_bound; nia. }
  apply Z.mod_small. nia.
Qed.

(** X14. [settoken] is an upsert on the symbol code: afterwards the code maps
    to a row with the given contract, price, bonus and flag, while the
    stored symbol of an existing row (its precision) is kept; every other
    token row is untouched.  Once a token is stored as disabled, a purchase
    paid in it aborts. *)
Theorem settoken_upserts (e : Env) (s s' : State) (sym : Z) (tc : name)
    (price bps : Z) (en : bool) (sent : list inline_transfer) :
  settoken e s sym tc price bps en = Ok (s', sent) ->
  tokens s' !! symbol_code_raw sym
  = Some (tokenconfig.mk
            (match tokens s !! symbol_code_raw sym with
             | Some t => tokenconfig.sym t
             | None => sym
             end) tc price bps en)
  /\ (forall k, k <> symbol_code_raw sym -> tokens s' !! k = tokens s !! k)
  /\ (en = false ->
      forall e' from to q memo conf,
        to = self e' -> from <> self e' ->
        conf_table s' = Some conf ->
        is_treasury_funding e' conf q memo = false ->
        has_purchase_prefix memo = true ->
        symbol_code_raw (symbol q) = symbol_code_raw sym ->
        exists msg, on_transfer e' s' from to q memo = Abort msg).
Proof.
  intros H. unfold settoken in H. ok_steps H. injection H as <- <-. cbn [tokens].
  split; [rewrite lookup_insert_eq; by destruct (tokens s !! symbol_code_raw sym) |].
  split; [intros k Hk; by rewrite lookup_insert_ne |].
  intros -> e' from to q memo conf' Hto Hfrom Hconf' Hfund Hpre Hcode.
  rewrite (on_transfer_to_purchase e' _ from to q memo conf' Hto Hfrom Hconf' Hfund Hpre).
  destruct (on_transfer_purchase e' _ from q memo) as [[s'' sent']|msg] eqn:E; [| eauto].
  apply on_transfer_purchase_inv in E.
  destruct E as (v & tok & _ & _ & Htok & Hen & _).
  cbn [tokens] in Htok. rewrite Hcode, lookup_insert_eq in Htok.
  injection Htok as <-. destruct (tokens s !! symbol_code_raw sym); discriminate.
Qed.

Lemma settoken_upserts_witness :
  exists s',
    settoken (env_at 1250 0 the_admin zoltaran) st_bought ARCADE arcade_token
             100 0 false = Ok (s', [])
    /\ (tokenconfig.enabled <$> tokens s' !! symbol_code_raw ARCADE) = Some false
    /\ exists msg,
         on_transfer (env_at 1260 0 bob arcade_token) s' bob zoltaran
                     (mk_asset 500 ARCADE) "WISHES:5" = Abort msg.
Proof.
  destruct (settoken (env_at 1250 0 the_admin zoltaran) st_bought ARCADE arcade_token
              100 0 false) as [[s' sent]|] eqn:E; [| vm_compute in E; discriminate E].
  pose proof E as E'. vm_compute in E'. injection E' as Hs <-.
  exists s'. split; [reflexivity |].
  destruct (settoken_upserts _ _ _ _ _ _ _ _ _ E) as (Hrow & _ & Hdis).
  split; [by rewrite Hrow |].
  apply (Hdis eq_refl (env_at 1260 0 bob arcade_token) bob zoltaran
           (mk_asset 500 ARCADE) "WISHES:5" scenario_config).
  - reflexivity.
  - vm_compute. discriminate.
  - rewrite <- Hs. vm_compute. reflexivity.
  - vm_compute. reflexivity.
  - vm_compute. reflexivity.
  - reflexivity.
Defined.

(** X15. A purchase is credited only when it is paid for.  When a transfer
    to the configured contract enters the purchase branch and succeeds, the
    memo held a count [n] in 1..1000, the token of the payment is registered,
    enabled and sent through its registered contract, the amount covers
    [price * n] (in [uint64_t]), and exactly the payer's account gains
    [n + n * bonus_bps / 10000] purchased wishes (in [uint32_t]); nothing is
    sent and no other account changes. *)
Theorem purchase_credits_what_was_paid (e : Env) (s s' : State) (from to : name)
    (q : asset) (memo : string) (conf : config.t) (sent : list inline_transfer) :
  to = self e ->
  from <> self e ->
  conf_table s = Some conf ->
  is_treasury_funding e conf q memo = false ->
  has_purchase_prefix memo = true ->
  on_transfer e s from to q memo = Ok (s', sent) ->
  exists n tok,
    (exists v, stoul (string_drop 7 memo) = Ok v /\ n = wrap32 v)
    /\ 1 <= n <= 1000
    /\ tokens s !! symbol_code_raw (symbol q) = Some tok
    /\ tokenconfig.enabled tok = true
    /\ tokenconfig.contract tok = first_receiver e
    /\ wrap64 (tokenconfig.price_per_wish tok * n) <= wrap64 (amount q)
    /\ (user.purchased_wishes <$> users s' !! from)
       = Some (wrap32 (default 0 (user.purchased_wishes <$> users s !! from)
                       + wrap32 (n + wrap32 (n * tokenconfig.bonus_bps tok) / 10000)))
    /\ (0 <= tokenconfig.bonus_bps tok < 2 ^ 16 ->
        wrap32 (n + wrap32 (n * tokenconfig.bonus_bps tok) / 10000)
        = credited_wishes n (tokenconfig.bonus_bps tok))
    /\ (forall p, p <> from -> users s' !! p = users s !! p)
    /\ sent = [].
Proof.
  intros Hto Hfrom Hconf Hfund Hpre H.
  rewrite (on_transfer_to_purchase e s from to q memo conf Hto Hfrom Hconf Hfund Hpre)
    in H.
  apply on_transfer_purchase_inv in H.
  destruct H as (v & tok & Hv & Hn & Htok & Hen & Hct & Hpay & -> & ->).
  exists (wrap32 v), tok.
  split; [by exists v |]. split; [lia |]. split; [exact Htok |].
  split; [exact Hen |]. split; [exact Hct |]. split; [exact Hpay |].
  cbn [users]. split.
  { destruct (users s !! from) as [u|]; rewrite lookup_insert_eq; cbn;
      [reflexivity |].
    f_equal. unfold wrap32 at 1. symmetry.
    rewrite Z.add_0_l. apply Z.mod_small.
    unfold wrap32 at 1. apply Z.mod_pos_bound. lia. }
  split; [intros Hb; apply credited_no_wrap; lia |].
  split; [| reflexivity].
  intros p Hp. destruct (users s !! from); by rewrite lookup_insert_ne.
Qed.

Lemma purchase_credits_what_was_paid_witness :
  (user.purchased_wishes <$> users st_bought !! bob) = Some 5
  /\ credited_wishes 5 0 = 5.
Proof.
  destruct (run (env_at 1200 0 bob arcade_token) st_token
              (Aon_transfer bob zoltaran (mk_asset 500 ARCADE) "WISHES:5"))
    as [[s' sent]|] eqn:E; [| vm_compute in E; discriminate E].
  assert (Hs : st_bought = s').
  { unfold st_bought, apply. by rewrite E. }
  cbn [run] in E.
  destruct (purchase_credits_what_was_paid (env_at 1200 0 bob arcade_token) st_token
              s' bob zoltaran (mk_asset 500 ARCADE) "WISHES:5" scenario_config sent
              ltac:(reflexivity) ltac:(vm_compute; discriminate)
              ltac:(vm_compute; reflexivity) ltac:(vm_compute; reflexivity)
              ltac:(vm_compute; reflexivity) E)
    as (n & tok & Hn & _ & Htok & _ & _ & _ & Hcredit & _).
  assert (n = 5) as ->.
  { destruct Hn as (v & Hv & ->). vm_compute in Hv. injection Hv as <-. reflexivity. }
  assert (tok = tokenconfig.mk ARCADE arcade_token 100 0 true) as ->.
  { assert (Ht : tokens st_token !! symbol_code_raw (symbol (mk_asset 500 ARCADE))
                 = Some (tokenconfig.mk ARCADE arcade_token 100 0 true))
      by (vm_compute; reflexivity).
    congruence. }
  split; [| reflexivity].
  rewrite Hs, Hcredit. vm_compute. reflexivity.
Defined.

(** The decimal text of a count in 1..1000 is read back by [stoul]. *)
Lemma stoul_to_string_small (n : Z) :
  1 <= n <= 1000 -> stoul (to_string n) = Ok n.
Proof.
  intros Hn.
  assert (Hall : forallb (fun k => match stoul (to_string k) with
                                   | Ok v => v =? k
                                   | Abort _ => false
                                   end)
                         (map Z.of_nat (seq 1 1000)) = true)
    by (vm_compute; reflexivity).
  rewrite forallb_forall in Hall. specialize (Hall n).
  assert (Hin : In n (map Z.of_nat (seq 1 1000))).
  { apply in_map_iff. exists (Z.to_nat n). split; [lia |]. apply in_seq. lia. }
  specialize (Hall Hin). destruct (stoul (to_string n)) as [v|]; [| discriminate].
  apply Z.eqb_eq in Hall. by subst.
Qed.

(** X16. A well-formed purchase goes through.  A payment to the configured
    contract with the memo [WISHES:] followed by the decimal digits of a
    count [n] in 1..1000, in a registered and enabled token sent through its
    contract, of an amount that covers [price * n], succeeds, sends nothing,
    and credits the payer [n + n * bonus_bps / 10000] purchased wishes. *)
Theorem purchase_with_decimal_memo_succeeds (e : Env) (s : State) (from : name)
    (q : asset) (n : Z) (conf : config.t) (tok : tokenconfig.t) :
  from <> self e ->
  conf_table s = Some conf ->
  1 <= n <= 1000 ->
  tokens s !! symbol_code_raw (symbol q) = Some tok ->
  tokenconfig.enabled tok = true ->
  tokenconfig.contract tok = first_receiver e ->
  0 <= tokenconfig.price_per_wish tok ->
  tokenconfig.price_per_wish tok * n <= amount q < 2 ^ 63 ->
  0 <= tokenconfig.bonus_bps tok < 2 ^ 16 ->
  exists s',
    on_transfer e s from (self e) q ("WISHES:" ++ to_string n) = Ok (s', [])
    /\ (user.purchased_wishes <$> users s' !! from)
       = Some (wrap32 (default 0 (user.purchased_wishes <$> users s !! from)
                       + credited_wishes n (tokenconfig.bonus_bps tok)))
    /\ conf_table s' = conf_table s
    /\ commits s' = commits s.
Proof.
  intros Hfrom Hconf Hn Htok Hen Hct Hprice Hpay Hbps.
  remember (to_string n) as digits eqn:Hdigits.
  assert (Hdisp : on_transfer e s from (self e) q ("WISHES:" ++ digits)
                  = on_transfer_purchase e s from q ("WISHES:" ++ digits)).
  { apply (on_transfer_to_purchase e s from (self e) q _ conf); auto.
    unfold is_treasury_funding, is_treasury_memo. cbn. apply andb_false_r. }
  rewrite Hdisp. unfold on_transfer_purchase.
  change (string_drop 7 ("WISHES:" ++ digits)) with digits.
  rewrite Hdigits, (stoul_to_string_small n Hn).
  assert (Hw : wrap32 n = n) by (unfold wrap32; apply Z.mod_small; lia).
  cbn [mbind result_bind]. rewrite Hw.
  rewrite (proj2 (Z.ltb_lt 0 n)) by lia. rewrite (proj2 (Z.leb_le n 1000)) by lia.
  cbn [andb check mbind result_bind]. rewrite Htok. cbn [mbind result_bind].
  rewrite Hen, Hct, Z.eqb_refl. cbn [check mbind result_bind].
  assert (Hle : (wrap64 (tokenconfig.price_per_wish tok * n) <=? wrap64 (amount q))
                = true).
  { apply Z.leb_le. unfold wrap64. rewrite !Z.mod_small by nia. lia. }
  rewrite Hle. cbn [check mbind result_bind].
  rewrite (credited_no_wrap n _ Hn Hbps).
  eexists. split; [reflexivity |]. cbn [users conf_table commits].
  split; [| split; reflexivity].
  destruct (users s !! from) as [u|]; rewrite lookup_insert_eq; cbn; [reflexivity |].
  f_equal. unfold wrap32, credited_wishes. symmetry. rewrite Z.add_0_l.
  apply Z.mod_small.
  assert (0 <= n * tokenconfig.bonus_bps tok / 10000 <= n * tokenconfig.bonus_bps tok).
  { split; [apply Z.div_pos; nia |]. apply Z.div_le_upper_bound; nia. }
  nia.
Qed.

Lemma purchase_with_decimal_memo_succeeds_witness :
  exists s',
    on_transfer (env_at 1200 0 bob arcade_token) st_token bob zoltaran
                (mk_asset 50000 ARCADE) "WISHES:500" = Ok (s', [])
    /\ (user.purchased_wishes <$> users s' !! bob) = Some 500.
Proof.
  destruct (purchase_with_decimal_memo_succeeds (env_at 1200 0 bob arcade_token)
              st_token bob (mk_asset 50000 ARCADE) 500 scenario_config
              (tokenconfig.mk ARCADE arcade_token 100 0 true)
              ltac:(vm_compute; discriminate) ltac:(vm_compute; reflexivity)
              ltac:(lia) ltac:(vm_compute; reflexivity) ltac:(reflexivity)
              ltac:(reflexivity) ltac:(vm_compute; discriminate)
              ltac:(vm_compute; split; [discriminate | reflexivity])
              ltac:(vm_compute; split; [discriminate | reflexivity]))
    as (s' & Hrun & Hcredit & _).
  exists s'. split; [exact Hrun |]. rewrite Hcredit. vm_compute. reflexivity.
Defined.

(** ** Sweeping in several calls *)

Lemma cleanup_loop_stuck (budget : nat) (now : Z) (cs : list commit.t)
    (us : gmap Z user.t) :
  match commits_table.index_begin commit.by_time cs with
  | Some itr => expired now itr = false
  | None => True
  end ->
  cleanup_loop budget now cs us = (cs, us).
Proof.
  destruct budget as [|b]; [reflexivity |]. simpl. unfold expired.
  destruct (commits_table.index_begin commit.by_time cs) as [itr|]; [| reflexivity].
  by intros ->.
Qed.

Lemma cleanup_loop_add (a b : nat) (now : Z) (cs : list commit.t) (us : gmap Z user.t) :
  cleanup_loop (a + b) now cs us
  = cleanup_loop b now (cleanup_loop a now cs us).1 (cleanup_loop a now cs us).2.
Proof.
  revert cs us. induction a as [|a IH]; intros cs us; [reflexivity |].
  cbn [Nat.add cleanup_loop].
  destruct (commits_table.index_begin commit.by_time cs) as [itr|] eqn:Hitr.
  - destruct (COMMIT_EXPIRY_SECONDS <? wrap32 (now - commit.timestamp itr)) eqn:Hexp.
    + apply IH.
    + cbn [fst snd]. symmetry. apply cleanup_loop_stuck. by rewrite Hitr.
  - cbn [fst snd]. symmetry. apply cleanup_loop_stuck. by rewrite Hitr.
Qed.

(** X17. Sweeping in instalments: in one environment, a [cleanup] bounded by
    [n] followed by a [cleanup] bounded by [m] leaves the storage that a
    single [cleanup] bounded by [n + m] leaves. *)
Theorem cleanup_composes (e : Env) (s s1 s2 : State) (n m : Z)
    (sent1 sent2 : list inline_transfer) :
  0 <= n -> 0 <= m -> n + m < 2 ^ 32 ->
  cleanup e s n = Ok (s1, sent1) ->
  cleanup e s1 m = Ok (s2, sent2) ->
  cleanup e s (n + m) = Ok (s2, []).
Proof.
  intros Hn Hm _ H1 H2. unfold cleanup in *.
  destruct (get_config s) as [conf|] eqn:Hconf; [| discriminate].
  cbn [mbind result_bind] in *.
  rewrite Z2Nat.inj_add by lia. rewrite cleanup_loop_add.
  destruct (cleanup_loop (Z.to_nat n) _ (commits s) (users s)) as [c1 u1].
  injection H1 as <- <-. cbn [conf_table commits users tokens history leaderboard
                              glob_table fst snd] in *.
  unfold get_config in *. cbn [conf_table] in H2.
  destruct (conf_table s); [| discriminate]. cbn [mbind result_bind] in H2.
  destruct (cleanup_loop (Z.to_nat m) _ c1 u1) as [c2 u2].
  injection H2 as <- <-. reflexivity.
Qed.

Lemma cleanup_composes_witness :
  exists s1 s2,
    cleanup (env_at 5000 0 alice zoltaran) st_two_commits 1 = Ok (s1, [])
    /\ cleanup (env_at 5000 0 alice zoltaran) s1 9 = Ok (s2, [])
    /\ cleanup (env_at 5000 0 alice zoltaran) st_two_commits 10 = Ok (s2, []).
Proof.
  destruct (cleanup (env_at 5000 0 alice zoltaran) st_two_commits 1)
    as [[s1 sent1]|] eqn:E1; [| vm_compute in E1; discriminate E1].
  pose proof E1 as E1'. vm_compute in E1'. injection E1' as Hs1 <-.
  destruct (cleanup (env_at 5000 0 alice zoltaran) s1 9)
    as [[s2 sent2]|] eqn:E2; [| rewrite <- Hs1 in E2; vm_compute in E2; discriminate E2].
  pose proof E2 as E2'. rewrite <- Hs1 in E2'. vm_compute in E2'.
  injection E2' as _ <-.
  exists s1, s2. split; [reflexivity |]. split; [exact E2 |].
  apply (cleanup_composes (env_at 5000 0 alice zoltaran) st_two_commits s1 s2 1 9 [] []);
    try lia; assumption.
Defined.

(** ** From commit to reveal *)

Lemma erase_emplaced (rows : list commit.t) (c : commit.t) :
  commits_table.find (commit.id c) rows = None ->
  commits_table.erase (commit.id c) (rows ++ [c]) = rows.
Proof.
  unfold commits_table.find, commits_table.erase. intros Hnone.
  rewrite List.filter_app. simpl. rewrite Z.eqb_refl. simpl. rewrite app_nil_r.
  induction rows as [|r rest IH]; simpl in *; [reflexivity |].
  destruct (commit.id r =? commit.id c); [discriminate |]. simpl. f_equal. auto.
Qed.

Lemma outcome_reward_bounds (conf : config.t) (d : Z) :
  0 <= (determine_outcome conf d).2 <= max_amount.
Proof.
  pose proof (determine_outcome_in_table conf d) as Hin.
  destruct (determine_outcome conf d) as [rc tw]. unfold outcome_table in Hin.
  simpl in Hin.
  destruct Hin as [E|[E|[E|[E|[E|[E|[]]]]]]]; injection E as <- <-;
    vm_compute; split; discriminate.
Qed.

(** X18. An honest player can finish.  On the storage left by a successful
    commit of [sha256 (secret ++ cid)], the player's reveal with that secret
    and content reference in any later block succeeds, provided the next
    result id is unused and the reward symbol is valid; it removes the
    commitment, so that the commits table is what it was before the commit,
    and appends the resolved outcome to the history. *)
Theorem commit_then_reveal_succeeds (e0 e1 : Env) (s0 s1 : State) (p : name)
    (secret cid : string) (w : Z) (sent0 : list inline_transfer) (conf : config.t) :
  conf_table s0 = Some conf ->
  commit e0 s0 p (sha256 (secret ++ cid)) w = Ok (s1, sent0) ->
  has_auth e1 p = true ->
  current_block e0 < current_block e1 ->
  gamehistory_table.find (globals.next_result_id (get_globals s0)) (history s0) = None ->
  symbol_is_valid (config.arcade_symbol conf) = true ->
  exists s2 sent1,
    reveal e1 s1 p (globals.next_commit_id (get_globals s0)) secret cid = Ok (s2, sent1)
    /\ commits s2 = commits s0
    /\ (exists g, history s2 = history s0 ++ [g])
    /\ recorded_outcome s2
       = Some (resolve_outcome secret (tapos_block_prefix e1) p conf).
Proof.
  intros Hconf Hcommit Hauth Hblk Hfresh Hsym.
  unfold commit in Hcommit. ok_steps Hcommit.
  rewrite Hconf in Hconf0. injection Hconf0 as <-.
  unfold commits_table.emplace in Hx0. cbn [commit.id] in Hx0.
  destruct (commits_table.find _ (commits s0)) eqn:Hid; [discriminate |].
  injection Hx0 as <-. injection Hcommit as <- <-.
  remember (get_globals s0) as g0 eqn:Hg0.
  set (c := commit.mk (globals.next_commit_id g0) p
                      (sha256 (secret ++ cid)) (current_block e0) w
                      (sec_since_epoch e0)) in *.
  unfold reveal, require_auth, get_config. cbn [conf_table commits].
  rewrite Hauth, Hconf. cbn [check mbind result_bind]. rewrite Hc.
  cbn [check mbind result_bind].
  rewrite (find_emplaced _ (commits s0) c Hid (Z.eqb_refl _)).
  cbn [mbind result_bind]. subst c. cbn [commit.player commit.block_num
                                        commit.commit_hash commit.id].
  rewrite Z.eqb_refl, (proj2 (Z.ltb_lt _ _) Hblk). cbn [check mbind result_bind].
  rewrite bool_decide_eq_true_2 by reflexivity. cbn [check mbind result_bind].
  pose proof (outcome_reward_bounds conf
                (random_value secret (tapos_block_prefix e1) p)) as Hbound.
  unfold resolve_outcome.
  destruct (determine_outcome conf _) as [rc tw]. cbn [snd] in Hbound.
  unfold get_globals. cbn [glob_table globals.next_result_id
                           globals.next_commit_id history].
  unfold gamehistory_table.emplace. cbn [gameresult.id]. rewrite Hfresh.
  cbn [mbind result_bind].
  assert (Hpay : exists conf' sent1,
             reveal_payout e1 conf p tw = Ok (conf', sent1)).
  { destruct (Z.ltb_spec 0 tw) as [Hpos|Hnp].
    - rewrite reveal_payout_unguarded by (auto; lia). eauto.
    - unfold reveal_payout. rewrite (proj2 (Z.ltb_ge 0 tw)) by lia. eauto. }
  destruct Hpay as (conf' & sent1 & ->). cbn [mbind result_bind].
  eexists _, _. split; [reflexivity |]. cbn [commits history].
  split.
  { exact (erase_emplaced (commits s0)
             (commit.mk (globals.next_commit_id g0) p (sha256 (secret ++ cid))
                        (current_block e0) w (sec_since_epoch e0)) Hid). }
  split; [eauto |].
  unfold recorded_outcome. cbn [history]. rewrite last_snoc. reflexivity.
Qed.

Lemma commit_then_reveal_succeeds_witness :
  exists s2 sent1,
    reveal env_reveal st_committed alice 1 "secret2" "QmWish" = Ok (s2, sent1)
    /\ commits s2 = commits st_configured
    /\ recorded_outcome s2 = Some (OUTCOME_TOKENS_250, TOKENS_250).
Proof.
  destruct (commit (env_at 2000 0 alice zoltaran) st_configured alice
              (sha256 ("secret2" ++ "QmWish")) WISH_TYPE_FREE)
    as [[s1 sent0]|] eqn:E; [| vm_compute in E; discriminate E].
  assert (Hs : st_committed = s1).
  { unfold st_committed, apply. cbn [run].
    change (sha256 "secret2QmWish") with (sha256 ("secret2" ++ "QmWish")).
    by rewrite E. }
  destruct (commit_then_reveal_succeeds (env_at 2000 0 alice zoltaran) env_reveal
              st_configured s1 alice "secret2" "QmWish" WISH_TYPE_FREE sent0
              scenario_config ltac:(vm_compute; reflexivity) E
              ltac:(vm_compute; reflexivity) ltac:(vm_compute; reflexivity)
              ltac:(vm_compute; reflexivity) ltac:(vm_compute; reflexivity))
    as (s2 & sent1 & Hrev & Hcs & _ & Hout).
  exists s2, sent1. rewrite Hs.
  split; [exact Hrev |]. split; [exact Hcs |].
  rewrite Hout. vm_compute. reflexivity.
Defined.

(** X19. What a reveal pays is what it records.  A successful reveal sends
    no transfer when the recorded reward is 0; otherwise it sends exactly
    one transfer, through the configured reward contract and in the
    configured symbol, from the contract to the revealing player, of exactly
    the recorded reward, and the player's account row exists afterwards. *)
Theorem reveal_pays_recorded_reward (e : Env) (s s' : State) (p : name) (i : Z)
    (secret cid : string) (sent : list inline_transfer) (conf : config.t) :
  conf_table s = Some conf ->
  reveal e s p i secret cid = Ok (s', sent) ->
  exists g,
    last (history s') = Some g
    /\ gameresult.player g = p
    /\ gameresult.wish_ipfs_cid g = cid
    /\ In (gameresult.result_code g, gameresult.tokens_won g) outcome_table
    /\ (gameresult.tokens_won g = 0 -> sent = [])
    /\ (0 < gameresult.tokens_won g ->
        sent = [mk_transfer (config.arcade_contract conf) (self e) p
                            (mk_asset (gameresult.tokens_won g)
                                      (config.arcade_symbol conf))
                            "Zoltaran Speaks winnings!"])
    /\ is_Some (users s' !! p).
Proof.
  intros Hconf H.
  destruct (reveal_effect _ _ _ _ _ _ _ _ _ Hconf H) as (Hus & _ & Hh & _ & _ & Hpay).
  eexists. rewrite Hh, last_snoc. split; [reflexivity |].
  cbn [gameresult.player gameresult.wish_ipfs_cid gameresult.result_code
       gameresult.tokens_won].
  split; [reflexivity |]. split; [reflexivity |].
  unfold resolve_outcome in *.
  pose proof (determine_outcome_in_table conf
                (random_value secret (tapos_block_prefix e) p)) as Hin.
  pose proof (outcome_reward_bounds conf
                (random_value secret (tapos_block_prefix e) p)) as Hbound.
  destruct (determine_outcome conf _) as [rc tw]. cbn [fst snd] in *.
  split; [exact Hin |].
  split; [| split].
  - intros ->. unfold reveal_payout in Hpay. cbn in Hpay. congruence.
  - intros Hpos. unfold reveal_payout, asset_new in Hpay.
    rewrite (proj2 (Z.ltb_lt 0 tw) Hpos) in Hpay. ok_steps Hpay.
    ok_steps Hx. injection Hx as <-. injection Hpay as _ <-.
    unfold to_i64, max_amount in *.
    rewrite (proj2 (Z.ltb_lt tw (2 ^ 63))) by lia. reflexivity.
  - rewrite Hus. unfold reveal_update_user.
    destruct (users s !! p); rewrite lookup_insert_eq; eauto.
Qed.

Lemma reveal_pays_recorded_reward_witness :
  exists s' sent g,
    reveal env_reveal st_committed alice 1 "secret2" "QmWish" = Ok (s', sent)
    /\ last (history s') = Some g
    /\ gameresult.tokens_won g = 25000000000
    /\ sent = [mk_transfer arcade_token zoltaran alice (mk_asset 25000000000 ARCADE)
                           "Zoltaran Speaks winnings!"].
Proof.
  destruct (reveal env_reveal st_committed alice 1 "secret2" "QmWish")
    as [[s' sent]|] eqn:E; [| vm_compute in E; discriminate E].
  destruct (reveal_pays_recorded_reward env_reveal st_committed s' alice 1
              "secret2" "QmWish" sent scenario_config
              ltac:(vm_compute; reflexivity) E)
    as (g & Hlast & _ & _ & _ & _ & Hsent & _).
  assert (Hg : gameresult.tokens_won g = 25000000000).
  { pose proof E as E'. vm_compute in E'. injection E' as Hs _.
    rewrite <- Hs in Hlast. vm_compute in Hlast. injection Hlast as <-. reflexivity. }
  exists s', sent, g. split; [reflexivity |]. split; [exact Hlast |].
  split; [exact Hg |]. rewrite (Hsent ltac:(lia)), Hg. reflexivity.
Defined.

(** ** Pending commitments of the reachable storages *)

(** X20. In every storage reachable at time [t] the pending commitments have
    pairwise distinct ids, none is stamped in the future, each was stamped
    at a non-negative time, and the owner of each has an account row. *)
Theorem reachable_commits_wellformed (t : Z) (s : State) :
  reachable t s ->
  List.NoDup (map commit.id (commits s))
  /\ forall c, In c (commits s) ->
       0 <= commit.timestamp c <= t
       /\ is_Some (users s !! commit.player c)
       /\ commits_table.find (commit.id c) (commits s) = Some c.
Proof.
  intros Hreach.
  destruct (reachable_sweep_inv t s Hreach) as (_ & Hid & _ & Hrows).
  split; [exact Hid |]. intros c Hc. destruct (Hrows c Hc) as [Hts Hu].
  split; [exact Hts |]. split; [exact Hu |].
  destruct (commits_table.find (commit.id c) (commits s)) as [c'|] eqn:Hf.
  - apply find_id in Hf. destruct Hf as [Heq Hin]. f_equal.
    by apply (NoDup_map_inj commit.id (commits s)).
  - exfalso. apply find_None_fresh in Hf. apply Hf. by apply in_map.
Qed.

Lemma reachable_commits_wellformed_witness :
  map commit.id (commits st_two_commits) = [1; 2]
  /\ List.NoDup (map commit.id (commits st_two_commits)).
Proof.
  split; [vm_compute; reflexivity |].
  exact (proj1 (reachable_commits_wellformed 2000 st_two_commits
                  st_two_commits_reachable)).
Defined.

(** ** An expired purchase that is not refunded *)

(** C9. [commit] takes a purchased wish for every wish type other than 0,
    [cleanup] gives one back only for the wish type 1.  Bob, holding 5
    purchased wishes in a reachable storage, commits with the wish type 2
    and is left with 4; the sweep 3700 seconds later removes his expired
    commitment and he still holds 4: the purchased wish is not refunded. *)
Theorem cleanup_drops_credit_of_tagged_purchase :
  reachable 1200 st_bought
  /\ (user.purchased_wishes <$> users st_bought !! bob) = Some 5
  /\ run (env_at 1300 0 bob zoltaran) st_bought
         (Acommit bob (sha256 "bobsecretQmBob") 2) = Ok (st_bob_tag2, [])
  /\ (user.purchased_wishes <$> users st_bob_tag2 !! bob) = Some 4
  /\ map (fun c => (commit.player c, commit.wish_type c, commit.timestamp c))
         (commits st_bob_tag2) = [(bob, 2, 1300)]
  /\ exists s2,
       run (env_at 5000 0 alice zoltaran) st_bob_tag2 (Acleanup 10) = Ok (s2, [])
       /\ commits s2 = []
       /\ (user.purchased_wishes <$> users s2 !! bob) = Some 4.
Proof.
  split; [exact st_bought_reachable |].
  split; [vm_compute; reflexivity |].
  split; [vm_compute; reflexivity |].
  split; [vm_compute; reflexivity |].
  split; [vm_compute; reflexivity |].
  eexists. split; [vm_compute; reflexivity |].
  split; [reflexivity | vm_compute; reflexivity].
Qed.
